(** * swconfig-otb: the serial console session of the OTBv2 switch

    A shallow embedding of [swconfig_otb/sw.py] (class [Sw]) and of its VLAN
    extension [swconfig_otb/sw_vlan.py], followed by the properties of the
    session layer and of the VLAN reconciliation that the specification
    states.  The code is Python 2: [str] is a byte string, [filter] returns a
    list, and a set is iterated in an order the language leaves open. *)

From Stdlib Require Import String Ascii ZArith List Lia DecimalString DecimalZ DecimalPos.
From stdpp Require Import gmap strings list.

Local Open Scope string_scope.
Local Open Scope list_scope.
Local Open Scope Z_scope.

(** ** Python's [str] operations used by the module *)

Module PyStr.

Definition LF : ascii := "010"%char.
Definition CR : ascii := "013"%char.
Definition BS : ascii := "008"%char.
Definition ESC : ascii := "027"%char.
Definition ETX : ascii := "003"%char.

(** [s.startswith(needle)] *)
Definition startswith (s needle : string) : bool := String.prefix needle s.

(** [sub in s] *)
Fixpoint contains (sub s : string) : bool :=
  match s with
  | EmptyString => String.prefix sub EmptyString
  | String _ s' => String.prefix sub s || contains sub s'
  end.

(** [s[n:]] and [s[:n]] for a non-negative [n] *)
Fixpoint drop_str (n : nat) (s : string) : string :=
  match n, s with
  | O, _ => s
  | S _, EmptyString => EmptyString
  | S n', String _ s' => drop_str n' s'
  end.

Fixpoint take_str (n : nat) (s : string) : string :=
  match n, s with
  | O, _ => EmptyString
  | S _, EmptyString => EmptyString
  | S n', String c s' => String c (take_str n' s')
  end.

(** [s.rstrip(chars)], [s.lstrip(chars)] with the character set as a predicate *)
Fixpoint rstrip_by (p : ascii -> bool) (s : string) : string :=
  match s with
  | EmptyString => EmptyString
  | String c s' =>
      match rstrip_by p s' with
      | EmptyString => if p c then EmptyString else String c EmptyString
      | t => String c t
      end
  end.

Fixpoint lstrip_by (p : ascii -> bool) (s : string) : string :=
  match s with
  | EmptyString => EmptyString
  | String c s' => if p c then lstrip_by p s' else s
  end.

Definition is_crlf (c : ascii) : bool := Ascii.eqb c CR || Ascii.eqb c LF.

(** The whitespace of [str.strip()]: space, tab, LF, VT, FF, CR. *)
Definition is_space (c : ascii) : bool :=
  let n := nat_of_ascii c in
  Nat.eqb n 32 || (Nat.leb 9 n && Nat.leb n 13).

(** [l.rstrip("\r\n")] *)
Definition rstrip_crlf (s : string) : string := rstrip_by is_crlf s.

(** [s.strip()] *)
Definition strip (s : string) : string := rstrip_by is_space (lstrip_by is_space s).

(** [s.split(sep)] for a one-character separator: never empty, keeps empty
    fields. *)
Fixpoint split (sep : ascii) (s : string) : list string :=
  match s with
  | EmptyString => [EmptyString]
  | String c s' =>
      if Ascii.eqb c sep then EmptyString :: split sep s'
      else match split sep s' with
           | [] => [String c EmptyString]
           | t :: ts => String c t :: ts
           end
  end.

(** [sep.join(l)] *)
Definition join (sep : string) (l : list string) : string := String.concat sep l.

(** ['%d' % z] and [str(z)] for an [int] *)
Definition str_of_int (z : Z) : string := NilZero.string_of_int (Z.to_int z).

(** [int(s)] on a decimal literal: surrounding whitespace is ignored, one sign
    is allowed, at least one digit is required; anything else is the
    [ValueError] of the builtin, here [None]. *)
Definition int (s : string) : option Z :=
  match strip s with
  | String "+" t => Z.of_uint <$> NilZero.uint_of_string t
  | String "-" t => (fun u => - Z.of_uint u) <$> NilZero.uint_of_string t
  | t => Z.of_uint <$> NilZero.uint_of_string t
  end.

(** The text before the first line feed: what a run of [.] can cover. *)
Fixpoint until_lf (s : string) : string :=
  match s with
  | EmptyString => EmptyString
  | String c s' => if Ascii.eqb c LF then EmptyString else String c (until_lf s')
  end.

End PyStr.

(** ** The two regular expressions of the module

    Python's [re.search] returns the leftmost match and, at that start, the
    first one in backtracking order: a greedy [.*] or [[^(]+] takes as much as
    the rest of the pattern allows.  [.] matches every byte but the line
    feed. *)

Module Regex.
Import PyStr.

(** [.*], ": ", [.*] anchored at the start of [s]: some ": " can be reached without
    crossing a line feed. *)
Fixpoint colon_space (s : string) : bool :=
  match s with
  | EmptyString => false
  | String c s' =>
      (Ascii.eqb c ":" && startswith s' " ")
      || (negb (Ascii.eqb c LF) && colon_space s')
  end.

(** [.*], ": %", [.*], ": ", [.*] anchored at the start of [s]. *)
Fixpoint comment_tail (s : string) : bool :=
  match s with
  | EmptyString => false
  | String c s' =>
      (Ascii.eqb c ":" && startswith s' " %" && colon_space (drop_str 2 s'))
      || (negb (Ascii.eqb c LF) && comment_tail s')
  end.

(** [re.search] of the comment pattern (a star, [.*], ": %", [.*], ": ",
    [.*], the whole in one group) in [line]: the start offset of the leftmost
    match and the matched text ([span()[0]] and [group()]).  The last [.*]
    runs up to the next line feed or the end of the text. *)
Fixpoint comment_search (line : string) : option (nat * string) :=
  match line with
  | EmptyString => None
  | String c s' =>
      if Ascii.eqb c "*" && comment_tail s' then Some (O, String c (until_lf s'))
      else match comment_search s' with
           | Some (i, m) => Some (S i, m)
           | None => None
           end
  end.

(** [.*], then ">" or "#", then a space, anchored at the start of [s]. *)
Fixpoint prompt_tail (s : string) : bool :=
  match s with
  | EmptyString => false
  | String c s' =>
      ((Ascii.eqb c ">" || Ascii.eqb c "#") && startswith s' " ")
      || (negb (Ascii.eqb c LF) && prompt_tail s')
  end.

(** The hostname pattern (a named group of one or more bytes other than the
    opening parenthesis, then [.*], then ">" or "#", then a space) anchored at
    the start of [s]: the longest non-empty run of such bytes after which the
    tail matches. *)
Fixpoint hostname_at (s : string) : option string :=
  match s with
  | EmptyString => None
  | String c s' =>
      if Ascii.eqb c "(" then None
      else match hostname_at s' with
           | Some h => Some (String c h)
           | None => if prompt_tail s' then Some (String c EmptyString) else None
           end
  end.

(** [re.search] of the hostname pattern in [s], group [hostname]. *)
Fixpoint hostname_search (s : string) : option string :=
  match s with
  | EmptyString => None
  | String _ s' =>
      match hostname_at s with
      | Some h => Some h
      | None => hostname_search s'
      end
  end.

End Regex.

(** ** Session states, configuration, exceptions

    [swconfig_otb/sw_state.py], [swconfig_otb/config.py] and
    [swconfig_otb/exception.py] are imported by the two modules: the state
    enumeration is the one named there, the needle of each state and the
    configuration constants are parameters of the development. *)

Inductive _States : Type :=
  | PRESS_ANY_KEY | LOGIN_USERNAME | LOGIN_PASSWORD
  | USER_MAIN | ADMIN_MAIN
  | CONFIG | CONFIG_VLAN | CONFIG_IF | CONFIG_IF_RANGE
  | MORE.

#[global] Instance _States_eq_dec : EqDecision _States.
Proof. solve_decision. Defined.

Record Config : Type := mkConfig {
  USER : string;
  PASSWORD : string;
  READ_TIMEOUT : Z;
  READ_RETRIES : Z;
  BAD_ECHO_BUDGET : Z;
  PORT_MIN : Z;
  PORT_MAX : Z;
  DEFAULT_VLAN : Z
}.

(** The exceptions the two modules raise or let escape.  [NonTermination] is
    not a Python exception: it marks a [while] loop cut by its fuel, and
    [session_terminates] below shows that no method ever produces it. *)
Inductive exn : Type :=
  | SerialTimeoutException
  | SwitchBadEchoBudgetExceededError
  | IndexError
  | KeyError
  | ValueError
  | TypeError
  | AssertionError
  | NonTermination.

#[global] Instance exn_eq_dec : EqDecision exn.
Proof. solve_decision. Defined.

(** ** The serial port

    The transport is outside the module.  It is a script: what the successive
    [read(1)] calls return ([None] is the empty string of a timed-out read),
    what the successive [readlines()] calls return (raw lines, terminators
    included; nothing left is an empty list), and the record of what the
    session did to it.  The timeout is kept in the unit of [READ_TIMEOUT]:
    the module only assigns and doubles it. *)

Inductive Event : Type :=
  | Write (c : ascii)
  | FlushInput.

#[global] Instance Event_eq_dec : EqDecision Event.
Proof. solve_decision. Defined.

Record Serial : Type := mkSerial {
  timeout : Z;
  rx_bytes : list (option ascii);
  rx_lines : list (list string);
  events : list Event
}.

(** ** The session object [Sw]

    [history] is a ghost field: the commands handed to [send_cmd], in
    order. *)
Record Sw : Type := mkSw {
  sock : Serial;
  state : option _States;
  hostname : option string;
  _bad_echo : Z;
  history : list string
}.

Definition set_sock (f : Serial -> Serial) (s : Sw) : Sw :=
  mkSw (f (sock s)) (state s) (hostname s) (_bad_echo s) (history s).
Definition set_state (st : option _States) (s : Sw) : Sw :=
  mkSw (sock s) st (hostname s) (_bad_echo s) (history s).
Definition set_hostname (h : option string) (s : Sw) : Sw :=
  mkSw (sock s) (state s) h (_bad_echo s) (history s).
Definition set_bad_echo (b : Z) (s : Sw) : Sw :=
  mkSw (sock s) (state s) (hostname s) b (history s).
Definition set_history (h : list string) (s : Sw) : Sw :=
  mkSw (sock s) (state s) (hostname s) (_bad_echo s) h.

(** ** Methods as state transformers that may raise *)

Inductive result (A : Type) : Type :=
  | Ok (a : A)
  | Raise (e : exn).
Arguments Ok {A} a.
Arguments Raise {A} e.

Definition M (A : Type) : Type := Sw -> result A * Sw.

Definition ret {A} (a : A) : M A := fun s => (Ok a, s).
Definition raise {A} (e : exn) : M A := fun s => (Raise e, s).
Definition bind {A B} (m : M A) (k : A -> M B) : M B :=
  fun s => match m s with
           | (Ok a, s') => k a s'
           | (Raise e, s') => (Raise e, s')
           end.
Definition gets {A} (f : Sw -> A) : M A := fun s => (Ok (f s), s).
Definition modify (f : Sw -> Sw) : M unit := fun s => (Ok tt, f s).

(** [try: m  except e: h] *)
Definition try_except {A} (m : M A) (e : exn) (h : M A) : M A :=
  fun s => match m s with
           | (Raise e', s') => if decide (e' = e) then h s' else (Raise e', s')
           | r => r
           end.

#[global] Instance M_ret : MRet M := @ret.
#[global] Instance M_bind : MBind M := fun A B k m => bind m k.

(** [self.sock.write(c)], [self.sock.read(1)], [self.sock.readlines()],
    [self.sock.flushInput()], [self.sock.close()] *)
Definition sock_write (c : ascii) : M unit :=
  modify (set_sock (fun k =>
    mkSerial (timeout k) (rx_bytes k) (rx_lines k) (events k ++ [Write c]))).

Definition sock_read1 : M (option ascii) :=
  fun s => match rx_bytes (sock s) with
           | [] => (Ok None, s)
           | b :: bs =>
               (Ok b, set_sock (fun k =>
                  mkSerial (timeout k) bs (rx_lines k) (events k)) s)
           end.

Definition sock_readlines : M (list string) :=
  fun s => match rx_lines (sock s) with
           | [] => (Ok [], s)
           | ls :: rest =>
               (Ok ls, set_sock (fun k =>
                  mkSerial (timeout k) (rx_bytes k) rest (events k)) s)
           end.

Definition sock_flushInput : M unit :=
  modify (set_sock (fun k =>
    mkSerial (timeout k) (rx_bytes k) (rx_lines k) (events k ++ [FlushInput]))).

Definition sock_set_timeout (t : Z) : M unit :=
  modify (set_sock (fun k => mkSerial t (rx_bytes k) (rx_lines k) (events k))).

(** What [_goto_admin_main_prompt] can return: [res] is [None], the output
    list of [_send], or the boolean of [_login]. *)
Inductive pyval : Type :=
  | PyNone
  | PyBool (b : bool)
  | PyList (l : list string).

(** Python's truth value. *)
Definition truthy (v : pyval) : bool :=
  match v with
  | PyNone => false
  | PyBool b => b
  | PyList l => negb (bool_decide (l = []))
  end.

(** ** [sw.py]: class [Sw] *)

Section Sw.
Import PyStr Regex.

Variable config : Config.
Variable prompt_needle : _States -> string.

(** [_MORE_MAGIC]: a backspace, and cursor-up followed by clear-line. *)
Definition _MORE_MAGIC_0 : string := String BS EmptyString.
Definition _MORE_MAGIC_1 : string := String ESC ("[A" +:+ String ESC "[2K").
Definition _MORE_MAGIC : list string := [_MORE_MAGIC_0; _MORE_MAGIC_1].

(** [close]: the socket is closed and the session fields are reset. *)
Definition close : M unit :=
  modify (fun s => mkSw (sock s) None None 0 (history s)).

(** [_filter(line, comments)]: the comment list is threaded through. *)
Definition _filter (line : string) (comments : list string) : string * list string :=
  match comment_search line with
  | Some (start, group) => (take_str start line, comments ++ [group])
  | None => (line, comments)
  end.

(** The list comprehension of [_recv_once]: [_filter] on each right-stripped
    line, in order, all calls appending to the same [coms]. *)
Fixpoint _filter_lines (ls : list string) (coms : list string)
  : list string * list string :=
  match ls with
  | [] => ([], coms)
  | l :: ls' =>
      let '(l', coms1) := _filter (rstrip_crlf l) coms in
      let '(rest, coms2) := _filter_lines ls' coms1 in
      (l' :: rest, coms2)
  end.

(** [filter(None, lines)] on strings: the empty ones go. *)
Definition filter_None (ls : list string) : list string :=
  List.filter (fun l => negb (String.eqb l EmptyString)) ls.

(** [_determine_hostname(output_last_line)] *)
Definition _determine_hostname (output_last_line : string) : M bool :=
  match hostname_search output_last_line with
  | Some h => modify (set_hostname (Some h)) ;; mret true
  | None => mret false
  end.

(** [not self.hostname] *)
Definition hostname_unset (h : option string) : bool :=
  match h with
  | None => true
  | Some EmptyString => true
  | Some _ => false
  end.

Definition fixed_states : list _States :=
  [PRESS_ANY_KEY; LOGIN_USERNAME; LOGIN_PASSWORD; MORE].

Definition hostname_states : list _States :=
  [CONFIG; CONFIG_VLAN; CONFIG_IF; CONFIG_IF_RANGE; ADMIN_MAIN; USER_MAIN].

(** [_parse_prompt(out)]: the state found (or [None]) and [out] as the call
    leaves it ([out.pop()] drops the last line).  [out[-1]] raises on an
    empty list. *)
Definition _parse_prompt (out : list string) : M (option _States * list string) :=
  match last out with
  | None => raise IndexError
  | Some last_line =>
      match List.find (fun st => startswith last_line (prompt_needle st)) fixed_states with
      | Some st =>
          mret (Some st, if decide (st = MORE) then removelast out else out)
      | None =>
          h ← gets hostname;
          known ← (if hostname_unset h
                   then _determine_hostname last_line
                   else mret true);
          if negb known then mret (None, out)
          else
            h ← gets hostname;
            match h with
            | None => raise TypeError
            | Some hn =>
                match List.find
                        (fun st => startswith last_line (hn +:+ prompt_needle st))
                        hostname_states with
                | Some st => mret (Some st, removelast out)
                | None => mret (None, out)
                end
            end
      end
  end.

(** [_recv_once()] *)
Definition _recv_once : M (list string * list string) :=
  raw ← sock_readlines;
  let '(ls, coms) := _filter_lines raw [] in
  let out := filter_None ls in
  if bool_decide (out = []) then raise SerialTimeoutException
  else
    '(st, out') ← _parse_prompt out;
    modify (set_state st) ;;
    mret (out', coms).

(** [_recv_once_retry()]: [n] attempts left in the [for] loop. *)
Fixpoint _recv_once_retry_loop (n : nat) : M (list string * list string) :=
  match n with
  | O => raise SerialTimeoutException
  | S n' =>
      try_except _recv_once SerialTimeoutException
        (t ← gets (fun s => timeout (sock s));
         sock_set_timeout (t * 2) ;;
         _recv_once_retry_loop n')
  end.

Definition _recv_once_retry : M (list string * list string) :=
  _recv_once_retry_loop (Z.to_nat (READ_RETRIES config)).

(** The pagination artifacts at the head of a continuation page:
    [out[0] == MAGIC[0] and out[1].startswith(MAGIC[1])], then [out.pop(0)]
    and the prefix cut from the new first line.  Both subscripts can raise. *)
Definition strip_more_magic (out : list string) : M (list string) :=
  match out !! 0%nat with
  | None => raise IndexError
  | Some l0 =>
      if String.eqb l0 _MORE_MAGIC_0 then
        match out !! 1%nat with
        | None => raise IndexError
        | Some l1 =>
            if startswith l1 _MORE_MAGIC_1
            then mret (drop_str (String.length _MORE_MAGIC_1) l1 :: drop 2 out)
            else mret out
        end
      else mret out
  end.

(** The [while auto_more and self.state == MORE] loop of [_recv]. *)
Fixpoint _recv_more (fuel : nat) (auto_more : bool)
    (whole_out all_comments : list string) : M (list string * list string) :=
  st ← gets state;
  if auto_more && bool_decide (st = Some MORE) then
    match fuel with
    | O => raise NonTermination
    | S fuel' =>
        sock_write " " ;;
        '(out, comments) ← _recv_once_retry;
        out ← strip_more_magic out;
        _recv_more fuel' auto_more (whole_out ++ out) (all_comments ++ comments)
    end
  else mret (whole_out, all_comments).

(** [_recv(auto_more, timeout)].  Every page read takes one scripted
    [readlines()] result, so the script bounds the loop. *)
Definition _recv (auto_more : bool) (tmo : Z) : M (list string * list string) :=
  sock_set_timeout tmo ;;
  '(whole_out, all_comments) ← _recv_once_retry;
  sock_set_timeout (READ_TIMEOUT config) ;;
  fuel ← gets (fun s => S (length (rx_lines (sock s))));
  _recv_more fuel auto_more whole_out all_comments.

(** The echo the loop of [_send] expects for [char] when [echo] came back:
    ['*' if self.state == LOGIN_PASSWORD and echo != char else char]. *)
Definition expected_echo (st : option _States) (echo : option ascii) (char : ascii)
  : ascii :=
  if bool_decide (st = Some LOGIN_PASSWORD) && negb (bool_decide (echo = Some char))
  then "*"%char else char.

(** The part of the loop body of [_send] that consumes and checks the echo of
    [char].  The arguments of [logger.warn] are evaluated before
    [flushInput()]: [ord(echo)] raises on the empty string of a timed-out
    read. *)
Definition check_echo (char : ascii) : M unit :=
  echo ← sock_read1;
  echo ← (if bool_decide (echo = Some CR) then sock_read1 else mret echo);
  st ← gets state;
  let expected := expected_echo st echo char in
  if negb (bool_decide (echo = Some expected)) then
    modify (fun s => set_bad_echo (_bad_echo s + 1) s) ;;
    (match echo with
     | None => raise TypeError
     | Some _ => mret tt
     end) ;;
    sock_flushInput ;;
    b ← gets _bad_echo;
    if bool_decide (b > BAD_ECHO_BUDGET config)
    then raise SwitchBadEchoBudgetExceededError
    else mret tt
  else mret tt.

(** The [for char in string] loop of [_send]. *)
Fixpoint _send_chars (string_ : string) (bypass_echo_check : bool) : M unit :=
  match string_ with
  | EmptyString => mret tt
  | String char rest =>
      sock_write char ;;
      (if bypass_echo_check then mret tt else check_echo char) ;;
      _send_chars rest bypass_echo_check
  end.

(** [_send(string, bypass_echo_check, auto_more, timeout)] *)
Definition _send (string_ : string) (bypass_echo_check auto_more : bool) (tmo : Z)
  : M (list string * list string) :=
  _send_chars string_ bypass_echo_check ;;
  _recv auto_more tmo.

(** [send_cmd(cmd, timeout)]; the command is recorded in [history] first. *)
Definition send_cmd (cmd : string) (tmo : Z) : M (list string * list string) :=
  modify (fun s => set_history (history s ++ [cmd]) s) ;;
  _send (cmd +:+ String LF EmptyString) false true tmo.

(** [_login()] *)
Definition _login : M bool :=
  st ← gets state;
  proceed ←
    (if bool_decide (st = Some LOGIN_USERNAME) then
       '(out, _) ← send_cmd (USER config) (READ_TIMEOUT config);
       if existsb (contains "Incorrect User Name") out then mret (Some false)
       else
         st' ← gets state;
         if negb (bool_decide (st' = Some LOGIN_PASSWORD)) then mret (Some false)
         else mret None
     else mret None);
  match proceed with
  | Some r => mret r
  | None =>
      st ← gets state;
      if bool_decide (st = Some LOGIN_PASSWORD) then
        '(_, comments) ← send_cmd (PASSWORD config) (READ_TIMEOUT config);
        if existsb (contains "ACCEPTED") comments then mret true
        else if existsb (contains "REJECTED") comments then mret false
        else mret false
      else raise AssertionError
  end.

(** [_goto_admin_main_prompt()] *)
Definition _goto_admin_main_prompt : M pyval :=
  sock_flushInput ;;
  st ← gets state;
  (if bool_decide (st = None) || bool_decide (st = Some PRESS_ANY_KEY)
   then _send (String LF EmptyString) true false (READ_TIMEOUT config) ;; mret tt
   else mret tt) ;;
  st ← gets state;
  if bool_decide (st = Some ADMIN_MAIN) then mret (PyBool true)
  else
    res ←
      (if bool_decide (st = Some MORE) then
         '(res, _) ← _send (String ETX EmptyString) true false (READ_TIMEOUT config);
         mret (PyList res)
       else if bool_decide (st = Some USER_MAIN) then
         '(res, _) ← send_cmd "enable" (READ_TIMEOUT config);
         mret (PyList res)
       else if bool_decide (st ∈ [Some CONFIG; Some CONFIG_VLAN;
                                  Some CONFIG_IF; Some CONFIG_IF_RANGE]) then
         '(res, _) ← send_cmd "end" (READ_TIMEOUT config);
         mret (PyList res)
       else if bool_decide (st ∈ [Some LOGIN_USERNAME; Some LOGIN_PASSWORD]) then
         r ← _login;
         mret (PyBool r)
       else mret PyNone);
    st ← gets state;
    if truthy res then mret (PyBool (bool_decide (st = Some ADMIN_MAIN)))
    else mret res.

(** [open_()]: the port is opened, then the session goes to the admin prompt;
    the result of the navigation is not looked at. *)
Definition open_ : M unit :=
  _goto_admin_main_prompt ;; mret tt.

End Sw.

(** ** [sw_vlan.py]: the VLAN methods added to [Sw] *)

(** The value of [ports[if_]]: the dictionary with the keys ['untagged'] and
    ['tagged']. *)
Record PortConf : Type := mkPortConf {
  untagged : option Z;
  tagged : gset Z
}.

#[global] Instance PortConf_eq_dec : EqDecision PortConf.
Proof. solve_decision. Defined.

(** Pure code that may raise. *)
Definition lift {A} (r : result A) : M A := fun s => (r, s).

Definition rbind {A B} (r : result A) (k : A -> result B) : result B :=
  match r with
  | Ok a => k a
  | Raise e => Raise e
  end.

(** [for x in l: body(x)] *)
Fixpoint for_each {A} (l : list A) (body : A -> M unit) : M unit :=
  match l with
  | [] => mret tt
  | x :: l' => body x ;; for_each l' body
  end.

Section SwVlan.
Import PyStr.

Variable config : Config.
Variable prompt_needle : _States -> string.

(** [range(a, b + 1)] *)
Definition range_incl (a b : Z) : list Z := seqZ a (b + 1 - a).

(** [init_vlan_config_datastruct()] *)
Definition init_vlan_config_datastruct : gset Z * gmap Z PortConf :=
  (∅, list_to_map
        ((fun key => (key, mkPortConf None ∅))
           <$> range_incl (PORT_MIN config) (PORT_MAX config))).

(** One element of [range_] expanded:
    [range(int(r[0]), int(r[-1]) + 1)] for [r] a non-empty list of bounds. *)
Definition expand_bounds (r : list string) : result (list Z) :=
  match head r, last r with
  | Some r0, Some rl =>
      match int r0 with
      | None => Raise ValueError
      | Some a =>
          match int rl with
          | None => Raise ValueError
          | Some b => Ok (range_incl a b)
          end
      end
  | _, _ => Raise IndexError
  end.

Fixpoint expand_all (range_ : list (list string)) : result (list Z) :=
  match range_ with
  | [] => Ok []
  | r :: rest =>
      rbind (expand_bounds r) (fun l =>
      rbind (expand_all rest) (fun ls => Ok (l ++ ls)))
  end.

(** [_str_to_if_range(string)] *)
Definition _str_to_if_range (string_ : string) : result (list Z) :=
  let range_ :=
    (fun r => split "-" (drop_str (String.length "gi") r))
      <$> List.filter (fun r => startswith r "gi") (split "," string_) in
  expand_all range_.

(** [_set_diff(old, new)] *)
Definition _set_diff (old new : gset Z) : gset Z * gset Z :=
  let intersect := new ∩ old in
  let added := new ∖ intersect in
  let removed := old ∖ intersect in
  (added, removed).

(** [_dict_diff(old, new)] *)
Definition _dict_diff (old new : gmap Z PortConf) : gset Z :=
  let set_old := dom old in
  let set_new := dom new in
  let intersect := set_new ∩ set_old in
  filter (fun o => old !! o ≠ new !! o) intersect.

(** The first inner loop of [_parse_vlans]: the untagged VID of a port is
    written once, a later one is skipped with a warning. *)
Fixpoint set_untagged (ifs : list Z) (vid : Z) (ports : gmap Z PortConf)
  : result (gmap Z PortConf) :=
  match ifs with
  | [] => Ok ports
  | if_ :: rest =>
      match ports !! if_ with
      | None => Raise KeyError
      | Some pc =>
          match untagged pc with
          | None => set_untagged rest vid (<[if_ := mkPortConf (Some vid) (tagged pc)]> ports)
          | Some _ => set_untagged rest vid ports
          end
      end
  end.

(** The second inner loop: [ports[if_]['tagged'].add(vid)]. *)
Fixpoint add_tagged (ifs : list Z) (vid : Z) (ports : gmap Z PortConf)
  : result (gmap Z PortConf) :=
  match ifs with
  | [] => Ok ports
  | if_ :: rest =>
      match ports !! if_ with
      | None => Raise KeyError
      | Some pc =>
          add_tagged rest vid (<[if_ := mkPortConf (untagged pc) ({[vid]} ∪ tagged pc)]> ports)
      end
  end.

(** The body of the row loop of [_parse_vlans]. *)
Definition parse_row (line : string) (acc : gset Z * gmap Z PortConf)
  : result (gset Z * gmap Z PortConf) :=
  let '(vlans, ports) := acc in
  let row := strip <$> split "|" line in
  match row !! 0%nat with
  | None => Raise IndexError
  | Some row0 =>
      match int row0 with
      | None => Raise ValueError
      | Some vid =>
          match row !! 2%nat with
          | None => Raise IndexError
          | Some untagged_ =>
              match row !! 3%nat with
              | None => Raise IndexError
              | Some tagged_ =>
                  let vlans := {[vid]} ∪ vlans in
                  rbind (_str_to_if_range untagged_) (fun untagged_range =>
                  rbind (_str_to_if_range tagged_) (fun tagged_range =>
                  rbind (set_untagged untagged_range vid ports) (fun ports =>
                  rbind (add_tagged tagged_range vid ports) (fun ports =>
                  Ok (vlans, ports)))))
              end
          end
      end
  end.

Fixpoint parse_rows (lines : list string) (acc : gset Z * gmap Z PortConf)
  : result (gset Z * gmap Z PortConf) :=
  match lines with
  | [] => Ok acc
  | line :: rest => rbind (parse_row line acc) (parse_rows rest)
  end.

(** [_parse_vlans()] *)
Definition _parse_vlans : M (gset Z * gmap Z PortConf) :=
  '(out, _) ← send_cmd config prompt_needle "show vlan static" (READ_TIMEOUT config);
  lift (parse_rows (drop 2 out) init_vlan_config_datastruct).

(** [self.send_cmd(cmd)] as a statement: the answer is dropped. *)
Definition send_cmd_ (cmd : string) : M unit :=
  send_cmd config prompt_needle cmd (READ_TIMEOUT config) ;; mret tt.

(** [','.join(str(v) for v in vids)] *)
Definition vid_range (vids : gset Z) : string :=
  join "," (str_of_int <$> elements vids).

(** The body of the port loop of [update_vlan_conf] (lines 48 to 83): the
    generator evaluates [ports_new[port_id]] first. *)
Definition configure_port (ports_old ports_new : gmap Z PortConf) (port_id : Z)
  : M unit :=
  match ports_new !! port_id with
  | None => raise KeyError
  | Some vids =>
      send_cmd_ ("interface GigabitEthernet " +:+ str_of_int port_id) ;;
      (if bool_decide (tagged vids ≠ ∅) then
         send_cmd_ "switchport mode trunk" ;;
         let native_vlan :=
           match untagged vids with
           | Some v => if bool_decide (v = 0) then DEFAULT_VLAN config else v
           | None => DEFAULT_VLAN config
           end in
         send_cmd_ ("switchport trunk native vlan " +:+ str_of_int native_vlan) ;;
         match ports_old !! port_id with
         | None => raise KeyError
         | Some old =>
             let '(ifv_added, ifv_removed) := _set_diff (tagged old) (tagged vids) in
             (if bool_decide (ifv_removed ≠ ∅) then
                send_cmd_ ("switchport trunk allowed vlan remove " +:+ vid_range ifv_removed)
              else mret tt) ;;
             (if bool_decide (ifv_added ≠ ∅) then
                send_cmd_ ("switchport trunk allowed vlan add " +:+ vid_range ifv_added)
              else mret tt)
         end
       else
         send_cmd_ "switchport mode access" ;;
         match untagged vids with
         | None => raise TypeError
         | Some v => send_cmd_ ("switchport access vlan " +:+ str_of_int v)
         end) ;;
      send_cmd_ "exit"
  end.

(** Lines 38 to 84 of [update_vlan_conf]: the commands that change the
    switch, once the session is at the admin prompt. *)
Definition apply_vlan_conf (vlan_added vlan_removed ports_changed : gset Z)
    (ports_old ports_new : gmap Z PortConf) : M unit :=
  send_cmd_ "config" ;;
  for_each (elements vlan_removed) (fun vlan =>
    send_cmd_ ("no vlan " +:+ str_of_int vlan)) ;;
  for_each (elements vlan_added) (fun vlan =>
    send_cmd_ ("vlan " +:+ str_of_int vlan) ;;
    send_cmd_ "exit") ;;
  for_each (elements ports_changed) (configure_port ports_old ports_new) ;;
  send_cmd_ "end".

(** [update_vlan_conf(vlans_new, ports_new)] *)
Definition update_vlan_conf (vlans_new : gset Z) (ports_new : gmap Z PortConf)
  : M unit :=
  '(vlans_old, ports_old) ← _parse_vlans;
  let '(vlan_added, vlan_removed) := _set_diff vlans_old vlans_new in
  let ports_changed := _dict_diff ports_old ports_new in
  if bool_decide (ports_changed = ∅) && bool_decide (vlan_added = ∅)
     && bool_decide (vlan_removed = ∅)
  then mret tt
  else
    _goto_admin_main_prompt config prompt_needle ;;
    apply_vlan_conf vlan_added vlan_removed ports_changed ports_old ports_new.

End SwVlan.

(** ** A concrete switch for the examples

    The prompts of the TG-NET console in the shape the module expects
    (hostname, then a marker), and a configuration.  Only the examples use
    them: every general statement below holds for any needle table and any
    configuration. *)

Module Sample.
Import PyStr.

Definition needle (st : _States) : string :=
  match st with
  | PRESS_ANY_KEY => "Press any key to continue"
  | LOGIN_USERNAME => "Username: "
  | LOGIN_PASSWORD => "Password: "
  | USER_MAIN => "> "
  | ADMIN_MAIN => "# "
  | CONFIG => "(config)# "
  | CONFIG_VLAN => "(config-vlan)# "
  | CONFIG_IF => "(config-if)# "
  | CONFIG_IF_RANGE => "(config-if-range)# "
  | MORE => "--More--"
  end.

Definition cfg : Config :=
  {| USER := "admin"; PASSWORD := "admin";
     READ_TIMEOUT := 1; READ_RETRIES := 3; BAD_ECHO_BUDGET := 5;
     PORT_MIN := 1; PORT_MAX := 18; DEFAULT_VLAN := 1 |}.

(** The echo of a command line: each byte back, the line feed as CR LF. *)
Fixpoint echo_of (s : string) : list (option ascii) :=
  match s with
  | EmptyString => [Some CR; Some LF]
  | String c s' => Some c :: echo_of s'
  end.

(** A session on [sw] in state [st] facing the scripted bytes and blocks. *)
Definition session (st : option _States) (bytes : list (option ascii))
    (blocks : list (list string)) : Sw :=
  {| sock := {| timeout := 1; rx_bytes := bytes; rx_lines := blocks; events := [] |};
     state := st; hostname := Some "sw"; _bad_echo := 0; history := [] |}.

(** The answer of [show vlan static] on a switch with VLAN 1 untagged on every
    port. *)
Definition vlan_table : list string :=
  [ "  VID  |     VLAN Name    |        Untagged Ports        |        Tagged Ports          |  Type   ";
    "-------+------------------+------------------------------+------------------------------+---------";
    "     1 |          default |                  gi1-18,lag1-8 |                          --- | Default ";
    "sw# " ].

(** The configuration that table describes, and a wanted one: VLAN 20 added,
    port 5 moved to it. *)
Definition current_vlans : gset Z := {[1]}.

Definition current_ports : gmap Z PortConf :=
  (fun _ => mkPortConf (Some 1) ∅) <$> snd (init_vlan_config_datastruct cfg).




(** The same switch asked only for its table. *)
Definition query_session : Sw :=
  session (Some ADMIN_MAIN) (echo_of "show vlan static") [vlan_table].

End Sample.

(** ** The classification as the specification words it

    Section 4.1: the fixed needles in the order PressAnyKey, LoginUsername,
    LoginPassword, More; then the hostname, learnt if still unknown; then the
    hostname-prefixed needles in the order Config, ConfigVlan, ConfigIf,
    ConfigIfRange, AdminMain, UserMain.  The result is the state, whether the
    line is removed from the output, and the hostname afterwards. *)

Section ClassifySpec.
Import PyStr Regex.

Variable prompt_needle : _States -> string.

Definition classify_hostname_spec (hn : string) (l : string)
  : option _States * bool :=
  if startswith l (hn +:+ prompt_needle CONFIG) then (Some CONFIG, true)
  else if startswith l (hn +:+ prompt_needle CONFIG_VLAN) then (Some CONFIG_VLAN, true)
  else if startswith l (hn +:+ prompt_needle CONFIG_IF) then (Some CONFIG_IF, true)
  else if startswith l (hn +:+ prompt_needle CONFIG_IF_RANGE) then (Some CONFIG_IF_RANGE, true)
  else if startswith l (hn +:+ prompt_needle ADMIN_MAIN) then (Some ADMIN_MAIN, true)
  else if startswith l (hn +:+ prompt_needle USER_MAIN) then (Some USER_MAIN, true)
  else (None, false).

Definition classify_spec (known : option string) (l : string)
  : option _States * bool * option string :=
  if startswith l (prompt_needle PRESS_ANY_KEY) then (Some PRESS_ANY_KEY, false, known)
  else if startswith l (prompt_needle LOGIN_USERNAME) then (Some LOGIN_USERNAME, false, known)
  else if startswith l (prompt_needle LOGIN_PASSWORD) then (Some LOGIN_PASSWORD, false, known)
  else if startswith l (prompt_needle MORE) then (Some MORE, true, known)
  else
    match known with
    | Some (String c hn) => (classify_hostname_spec (String c hn) l, known)
    | _ =>
        match hostname_search l with
        | None => (None, false, known)
        | Some hn => (classify_hostname_spec hn l, Some hn)
        end
    end.

End ClassifySpec.

(** The text [_filter] leaves of a line and the comment it moves out. *)
Definition line_text (l : string) : string :=
  match Regex.comment_search l with
  | Some (start, _) => PyStr.take_str start l
  | None => l
  end.

Definition line_comment (l : string) : option string :=
  snd <$> Regex.comment_search l.

(** The next block [readlines()] hands over. *)
Definition next_block (s : Sw) : list string :=
  match rx_lines (sock s) with
  | [] => []
  | b :: _ => b
  end.

(** ** Auxiliary notions for the statements *)

(** What the two reads of the echo check leave: the byte taken as the echo
    (a leading carriage return is skipped once) and the bytes still to come. *)
Definition pending_echo (bytes : list (option ascii))
  : option ascii * list (option ascii) :=
  match bytes with
  | [] => (None, [])
  | None :: rest => (None, rest)
  | Some c :: rest =>
      if bool_decide (c = PyStr.CR) then
        match rest with
        | [] => (None, [])
        | b :: rest' => (b, rest')
        end
      else (Some c, rest)
  end.

(** The session with the scripted echo bytes replaced. *)
Definition with_rx_bytes (bytes : list (option ascii)) (s : Sw) : Sw :=
  set_sock (fun k => mkSerial (timeout k) bytes (rx_lines k) (events k)) s.

(** The session after [flushInput()]. *)
Definition flushed (s : Sw) : Sw :=
  set_sock (fun k => mkSerial (timeout k) (rx_bytes k) (rx_lines k)
                       (events k ++ [FlushInput])) s.

(** A method never moves the session backwards along [R]. *)
Definition preserves (R : Sw -> Sw -> Prop) {A} (m : M A) : Prop :=
  forall s, R s (snd (m s)).

(** The echo counter does not decrease. *)
Definition bad_echo_le (s s' : Sw) : Prop := _bad_echo s <= _bad_echo s'.

(** The echo counter is untouched. *)
Definition bad_echo_eq (s s' : Sw) : Prop := _bad_echo s = _bad_echo s'.

(** The command history is untouched. *)
Definition history_eq (s s' : Sw) : Prop := history s = history s'.

(** The command history only grows. *)
Definition history_prefix (s s' : Sw) : Prop := history s `prefix_of` history s'.

(** The relations the receiving side respects: reading, writing and flushing
    the port, and the assignments to [state] and [hostname]. *)
Class Frame (R : Sw -> Sw -> Prop) : Prop := {
  frame_preorder :: PreOrder R;
  frame_write : forall c, preserves R (sock_write c);
  frame_flush : preserves R sock_flushInput;
  frame_timeout : forall t, preserves R (sock_set_timeout t);
  frame_read1 : preserves R sock_read1;
  frame_readlines : preserves R sock_readlines;
  frame_state : forall st s, R s (set_state st s);
  frame_hostname : forall h s, R s (set_hostname h s)
}.

(** The relations that also respect a counted echo mismatch: [_bad_echo] only
    ever gains one. *)
Class FrameEcho (R : Sw -> Sw -> Prop) : Prop :=
  frame_bad_echo : forall s, R s (set_bad_echo (_bad_echo s + 1) s).

(** The relations that also respect the recording of a command. *)
Class FrameHistory (R : Sw -> Sw -> Prop) : Prop :=
  frame_history : forall c s, R s (set_history (history s ++ [c]) s).

(** The scripted blocks are only ever consumed. *)
Definition blocks_le (s s' : Sw) : Prop :=
  (length (rx_lines (sock s')) <= length (rx_lines (sock s)))%nat.

(** A method raises nothing outside [E]. *)
Definition raises_only (E : exn -> Prop) {A} (m : M A) : Prop :=
  forall s e, fst (m s) = Raise e -> E e.

(** The tokens a port-range text is made of, as the specification names them:
    a single port, a pair of bounds, and anything else (a link aggregation
    range, a placeholder, a blank). *)
Inductive Token : Type :=
  | TSingle (n : N)
  | TPair (a b : N)
  | TOther (t : string).

(** The text of a token. *)
Definition render_token (t : Token) : string :=
  match t with
  | TSingle n => "gi" +:+ PyStr.str_of_int (Z.of_N n)
  | TPair a b =>
      "gi" +:+ PyStr.str_of_int (Z.of_N a) +:+ "-" +:+ PyStr.str_of_int (Z.of_N b)
  | TOther t => t
  end.

(** What the specification says a token contributes. *)
Definition token_ports (t : Token) : list Z :=
  match t with
  | TSingle n => [Z.of_N n]
  | TPair a b => range_incl (Z.of_N a) (Z.of_N b)
  | TOther _ => []
  end.

(** A token of the third kind holds no comma and does not begin with "gi". *)
Definition token_ok (t : Token) : Prop :=
  match t with
  | TOther x => PyStr.startswith x "gi" = false ∧ PyStr.contains "," x = false
  | _ => True
  end.

(** Every byte of the text passes [p]. *)
Fixpoint all_chars (p : ascii -> bool) (s : string) : bool :=
  match s with
  | EmptyString => true
  | String c s' => p c && all_chars p s'
  end.

Definition is_digit (c : ascii) : bool :=
  let n := nat_of_ascii c in Nat.leb 48 n && Nat.leb n 57.

(** ** The command script of the reconciliation

    What lines 38 to 84 of [update_vlan_conf] hand to [send_cmd], as a list:
    the pure counterpart of [apply_vlan_conf], which the theorems relate to
    the history of the session. *)

Section VlanScript.
Import PyStr.
Variable config : Config.






End VlanScript.


(** ** The VLAN table as rows

    What the row loop of [_parse_vlans] reads in one line (lines 105 to 111 of
    [sw_vlan.py]): the VID of the first column and the expanded ranges of the
    third and fourth columns; and what the rows say about a port. *)

Section VlanRows.
Import PyStr.

Definition row_fields (line : string) : result (Z * list Z * list Z) :=
  let row := strip <$> split "|" line in
  match row !! 0%nat with
  | None => Raise IndexError
  | Some row0 =>
      match int row0 with
      | None => Raise ValueError
      | Some vid =>
          match row !! 2%nat with
          | None => Raise IndexError
          | Some untagged_ =>
              match row !! 3%nat with
              | None => Raise IndexError
              | Some tagged_ =>
                  rbind (_str_to_if_range untagged_) (fun untagged_range =>
                  rbind (_str_to_if_range tagged_) (fun tagged_range =>
                  Ok (vid, untagged_range, tagged_range)))
              end
          end
      end
  end.

(** The VID of the first row that lists port [p] as untagged. *)
Definition first_untagged (rows : list (Z * list Z * list Z)) (p : Z) : option Z :=
  head (omap (fun '(vid, u, _) => if bool_decide (p ∈ u) then Some vid else None) rows).

(** The VIDs of the rows that list port [p] as tagged. *)
Definition all_tagged (rows : list (Z * list Z * list Z)) (p : Z) : gset Z :=
  list_to_set
    (omap (fun '(vid, _, t) => if bool_decide (p ∈ t) then Some vid else None) rows).

(** The ports a row names. *)
Definition row_ports (row : Z * list Z * list Z) : list Z :=
  let '(_, u, t) := row in u ++ t.

Definition row_vid (row : Z * list Z * list Z) : Z :=
  let '(vid, _, _) := row in vid.

(** What one row makes of the configuration of port [p]. *)
Definition apply_row (p : Z) (pc : PortConf) (row : Z * list Z * list Z) : PortConf :=
  let '(vid, u, t) := row in
  mkPortConf
    (match untagged pc with
     | Some v => Some v
     | None => if bool_decide (p ∈ u) then Some vid else None
     end)
    (if bool_decide (p ∈ t) then {[vid]} ∪ tagged pc else tagged pc).

End VlanRows.

(** A row whose ports are all keys of the port dictionary: [ports[if_]]
    raises [KeyError] on any other. *)
Definition checked_row (known : gset Z) (line : string)
  : result (Z * list Z * list Z) :=
  rbind (row_fields line) (fun row =>
    if bool_decide (Forall (fun p => p ∈ known) (row_ports row))
    then Ok row else Raise KeyError).

Fixpoint checked_rows (known : gset Z) (lines : list string)
  : result (list (Z * list Z * list Z)) :=
  match lines with
  | [] => Ok []
  | line :: rest =>
      rbind (checked_row known line) (fun row =>
      rbind (checked_rows known rest) (fun rows => Ok (row :: rows)))
  end.

(** The port numbers [PORT_MIN] to [PORT_MAX]. *)
Definition port_range (config : Config) : gset Z :=
  list_to_set (range_incl (PORT_MIN config) (PORT_MAX config)).
(** ** Construction and the [with] statement

    [__init__] builds the session on a port that is not open yet: the port
    gets [READ_TIMEOUT], the state and the hostname are unknown, the echo
    counter is zero.  What the port will deliver is the script. *)

Section SwObject.
Variable config : Config.
Variable prompt_needle : _States -> string.

Definition __init__ (bytes : list (option ascii)) (blocks : list (list string)) : Sw :=
  {| sock := {| timeout := READ_TIMEOUT config; rx_bytes := bytes;
                rx_lines := blocks; events := [] |};
     state := None; hostname := None; _bad_echo := 0; history := [] |}.

(** [__enter__()]: [open_()], then the object itself is handed to the
    block. *)
Definition __enter__ : M unit := open_ config prompt_needle.

(** [__exit__(type_, value, traceback)]: [close()]; the method returns
    [None], so an exception of the block is not swallowed. *)
Definition __exit__ : M unit := close.

(** [with Sw() as sw: body]: when [__enter__] raises, the block and
    [__exit__] are skipped; otherwise [__exit__] runs whatever the block
    did, and what the block returned or raised is the outcome. *)
Definition with_ {A} (body : M A) : M A :=
  fun s =>
    match __enter__ s with
    | (Raise e, s1) => (Raise e, s1)
    | (Ok _, s1) =>
        let '(r, s2) := body s1 in
        match __exit__ s2 with
        | (Ok _, s3) => (r, s3)
        | (Raise e, s3) => (Raise e, s3)
        end
    end.

End SwObject.

(** ** Further notions for the statements *)

(** The bytes written to the port so far, in order. *)
Definition written (s : Sw) : list ascii :=
  omap (fun e => match e with Write c => Some c | FlushInput => None end)
       (events (sock s)).

(** A block that leaves nothing once the comments and the empty lines are
    out: the read that returns it counts as timed out. *)
Definition blank (block : list string) : bool :=
  bool_decide (filter_None (fst (_filter_lines block [])) = []).

(** The session after [k] reads in a row have timed out inside
    [_recv_once_retry]: [k] blocks are gone and the timeout was doubled [k]
    times. *)
Definition after_timeouts (k : nat) (s : Sw) : Sw :=
  set_sock (fun p => mkSerial (timeout p * 2 ^ Z.of_nat k) (rx_bytes p)
                       (drop k (rx_lines p)) (events p)) s.

(** The session with the timeout of the port set to [t]. *)
Definition with_timeout (t : Z) (s : Sw) : Sw :=
  set_sock (fun p => mkSerial t (rx_bytes p) (rx_lines p) (events p)) s.

(** The session after the bytes of [str] were written. *)
Definition wrote (str : string) (s : Sw) : Sw :=
  set_sock (fun p => mkSerial (timeout p) (rx_bytes p) (rx_lines p)
                       (events p ++ (Write <$> list_ascii_of_string str))) s.

(** A hostname that is known stays what it is. *)
Definition hostname_kept (s s' : Sw) : Prop :=
  forall h, hostname s = Some h -> h <> "" -> hostname s' = Some h.

(** What reading leaves alone: the record of the port, the echo bytes still
    to come, the echo counter and the command history. *)
Definition reads_only (s s' : Sw) : Prop :=
  events (sock s') = events (sock s)
  /\ rx_bytes (sock s') = rx_bytes (sock s)
  /\ _bad_echo s' = _bad_echo s
  /\ history s' = history s.

(** What receiving leaves alone, and the only bytes it writes: spaces. *)
Definition writes_spaces (s s' : Sw) : Prop :=
  (exists n : nat, written s' = written s ++ replicate n " "%char)
  /\ rx_bytes (sock s') = rx_bytes (sock s)
  /\ _bad_echo s' = _bad_echo s
  /\ history s' = history s.

(** No comment of the switch is found in the line. *)
Definition no_comment (line : string) : Prop := Regex.comment_search line = None.

(** The commands the navigation to the admin prompt may send. *)
Definition navigation_scripts (config : Config) : list (list string) :=
  [ []; ["enable"]; ["end"];
    [USER config]; [USER config; PASSWORD config]; [PASSWORD config] ].

(** Lines 342 to 353 of [_login], entered in state [LOGIN_PASSWORD]: the
    password is sent and the comments of the answer decide. *)
Definition password_phase (config : Config) (prompt_needle : _States -> string)
    (s : Sw) : result bool * Sw :=
  match send_cmd config prompt_needle (PASSWORD config) (READ_TIMEOUT config) s with
  | (Raise e, s') => (Raise e, s')
  | (Ok (_, comments), s') =>
      (Ok (existsb (PyStr.contains "ACCEPTED") comments), s')
  end.

(** Lines 244 to 268 of [_goto_admin_main_prompt]: the move to the admin
    prompt from the state the session is known to be in. *)
Definition navigate_from_state (config : Config) (prompt_needle : _States -> string)
  : M pyval :=
  st ← gets state;
  if bool_decide (st = Some ADMIN_MAIN) then mret (PyBool true)
  else
    res ←
      (if bool_decide (st = Some MORE) then
         '(res, _) ← _send config prompt_needle (String PyStr.ETX EmptyString)
                        true false (READ_TIMEOUT config);
         mret (PyList res)
       else if bool_decide (st = Some USER_MAIN) then
         '(res, _) ← send_cmd config prompt_needle "enable" (READ_TIMEOUT config);
         mret (PyList res)
       else if bool_decide (st ∈ [Some CONFIG; Some CONFIG_VLAN;
                                  Some CONFIG_IF; Some CONFIG_IF_RANGE]) then
         '(res, _) ← send_cmd config prompt_needle "end" (READ_TIMEOUT config);
         mret (PyList res)
       else if bool_decide (st ∈ [Some LOGIN_USERNAME; Some LOGIN_PASSWORD]) then
         r ← _login config prompt_needle;
         mret (PyBool r)
       else mret PyNone);
    st ← gets state;
    if truthy res then mret (PyBool (bool_decide (st = Some ADMIN_MAIN)))
    else mret res.

(** The echo of a well-behaved switch for a command line: every byte back,
    the final line feed as carriage return and line feed; and the echo of a
    password: a star for every byte. *)
Fixpoint echo_bytes (cmd : string) : list (option ascii) :=
  match cmd with
  | EmptyString => [Some PyStr.CR; Some PyStr.LF]
  | String c cmd' => Some c :: echo_bytes cmd'
  end.

Fixpoint masked_echo_bytes (cmd : string) : list (option ascii) :=
  match cmd with
  | EmptyString => [Some PyStr.CR; Some PyStr.LF]
  | String _ cmd' => Some "*"%char :: masked_echo_bytes cmd'
  end.

(** * Properties *)

(** ** How a method moves the session

    A relation on sessions that every primitive step respects is respected by
    every method built from them: the lemmas below carry such a relation
    through [sw.py] and [sw_vlan.py], method by method. *)

(** A sequence that returns went through both of its parts. *)
Lemma bind_ok_inv {A B} (m : M A) (k : A → M B) (s s' : Sw) (b : B) :
  (m ≫= k) s = (Ok b, s') →
  ∃ a s1, m s = (Ok a, s1) ∧ k a s1 = (Ok b, s').
Proof.
  unfold mbind, M_bind, bind. destruct (m s) as [[a|e] s1]; [eauto | done].
Qed.

Section Frame.
Import PyStr.
Variable R : Sw → Sw → Prop.
Context `{!PreOrder R}.

Lemma preserves_ret {A} (a : A) : preserves R (mret a).
Proof. intros s. simpl. reflexivity. Qed.

Lemma preserves_raise {A} (e : exn) : preserves R (@raise A e).
Proof. intros s. simpl. reflexivity. Qed.

Lemma preserves_gets {A} (f : Sw → A) : preserves R (gets f).
Proof. intros s. simpl. reflexivity. Qed.

Lemma preserves_lift {A} (r : result A) : preserves R (lift r).
Proof. intros s. simpl. reflexivity. Qed.

Lemma preserves_modify (f : Sw → Sw) : (∀ s, R s (f s)) → preserves R (modify f).
Proof. intros H s. simpl. apply H. Qed.

Lemma preserves_bind {A B} (m : M A) (k : A → M B) :
  preserves R m → (∀ a, preserves R (k a)) → preserves R (m ≫= k).
Proof.
  intros Hm Hk s. unfold mbind, M_bind, bind.
  specialize (Hm s). destruct (m s) as [[a|e] s1]; simpl in *.
  - etransitivity; [exact Hm | apply Hk].
  - exact Hm.
Qed.

Lemma preserves_try {A} (m h : M A) (e : exn) :
  preserves R m → preserves R h → preserves R (try_except m e h).
Proof.
  intros Hm Hh s. unfold try_except.
  specialize (Hm s). destruct (m s) as [[a|e'] s1]; simpl in *; [done|].
  case_decide; simpl; [|done]. etransitivity; [exact Hm | apply Hh].
Qed.

Lemma preserves_for_each {A} (l : list A) (body : A → M unit) :
  (∀ x, preserves R (body x)) → preserves R (for_each l body).
Proof.
  intros Hb. induction l as [|x l IH]; simpl.
  - apply preserves_ret.
  - apply preserves_bind; [apply Hb | intros _; exact IH].
Qed.

End Frame.

(** One step of a frame proof: a primitive, a sequence, or a case split. *)
Ltac frame_step :=
  first
    [ apply preserves_ret
    | apply preserves_raise
    | apply preserves_gets
    | apply preserves_lift
    | apply frame_write
    | apply frame_flush
    | apply frame_timeout
    | apply frame_read1
    | apply frame_readlines
    | apply preserves_try
    | apply preserves_bind; [.. | intros ?]
    | match goal with
      | |- preserves _ (match ?x with _ => _ end) => destruct x
      | |- preserves _ (if ?b then _ else _) => destruct b
      end ];
  try (first [exact _ | assumption]).

(** Side conditions: instances and hypotheses at hand. *)
Ltac side := try (first [exact _ | assumption]).

(** A frame proof by steps, [tac] closing the calls to methods already done. *)
Ltac frame_with tac :=
  repeat (first
    [ tac
    | match goal with
      | |- Frame _ => exact _
      | |- FrameHistory _ => exact _
      | |- FrameEcho _ => exact _
      | |- PreOrder _ => exact _
      end
    | match goal with
      | |- preserves _ (let '(_, _) := ?x in _) => destruct x
      end
    | frame_step ]).

Section FrameSw.
Import PyStr.
Variable R : Sw → Sw → Prop.
Context `{!Frame R}.
Variable config : Config.
Variable prompt_needle : _States → string.

Lemma preserves_determine_hostname l : preserves R (_determine_hostname l).
Proof.
  unfold _determine_hostname. destruct (Regex.hostname_search l).
  - frame_step; [|frame_step]. apply preserves_modify. intros s'. apply frame_hostname.
  - frame_step.
Qed.

Lemma preserves_parse_prompt out : preserves R (_parse_prompt prompt_needle out).
Proof.
  unfold _parse_prompt.
  repeat (first [ apply preserves_determine_hostname | frame_step ]).
Qed.

Lemma preserves_set_state st : preserves R (modify (set_state st)).
Proof. apply preserves_modify. intros s. apply frame_state. Qed.

Lemma preserves_recv_once : preserves R (_recv_once prompt_needle).
Proof.
  unfold _recv_once.
  frame_with ltac:(first [ apply preserves_parse_prompt; by side
                         | apply preserves_set_state ]).
Qed.

Lemma preserves_recv_once_retry_loop n :
  preserves R (_recv_once_retry_loop prompt_needle n).
Proof.
  induction n as [|n IH]; simpl.
  - frame_step.
  - frame_with ltac:(first [ exact IH | apply preserves_recv_once ]).
Qed.

Lemma preserves_recv_once_retry : preserves R (_recv_once_retry config prompt_needle).
Proof. apply preserves_recv_once_retry_loop. Qed.

Lemma preserves_strip_more_magic out : preserves R (strip_more_magic out).
Proof. unfold strip_more_magic. frame_with fail. Qed.

Lemma preserves_recv_more fuel auto_more whole_out all_comments :
  preserves R (_recv_more config prompt_needle fuel auto_more whole_out all_comments).
Proof.
  revert whole_out all_comments.
  induction fuel as [|fuel IH]; intros whole_out all_comments; simpl.
  - frame_with fail.
  - frame_with ltac:(first [ apply IH | apply preserves_recv_once_retry
                           | apply preserves_strip_more_magic ]).
Qed.

Lemma preserves_recv auto_more tmo : preserves R (_recv config prompt_needle auto_more tmo).
Proof.
  unfold _recv.
  frame_with ltac:(first [ apply preserves_recv_more | apply preserves_recv_once_retry ]).
Qed.

Context `{!FrameEcho R}.

Lemma preserves_check_echo char : preserves R (check_echo config char).
Proof.
  unfold check_echo.
  frame_with ltac:(apply preserves_modify; intros ?; apply frame_bad_echo).
Qed.

Lemma preserves_send_chars str bypass : preserves R (_send_chars config str bypass).
Proof.
  induction str as [|c str IH]; simpl.
  - frame_step.
  - frame_with ltac:(first [ exact IH | apply preserves_check_echo ]).
Qed.

Lemma preserves_send str bypass auto_more tmo :
  preserves R (_send config prompt_needle str bypass auto_more tmo).
Proof.
  unfold _send.
  frame_with ltac:(first [ apply preserves_send_chars | apply preserves_recv ]).
Qed.

Context `{!FrameHistory R}.









End FrameSw.
(** ** Instances of the frame *)

Lemma frame_sock_blind (R : Sw → Sw → Prop) `{!PreOrder R} :
  (∀ f s, R s (set_sock f s)) →
  (∀ st s, R s (set_state st s)) →
  (∀ h s, R s (set_hostname h s)) →
  Frame R.
Proof.
  intros Hsock Hst Hh. split; try done.
  - intros c s. apply Hsock.
  - intros s. apply Hsock.
  - intros t s. apply Hsock.
  - intros s. unfold sock_read1. destruct (rx_bytes (sock s)); simpl;
      [reflexivity | apply Hsock].
  - intros s. unfold sock_readlines. destruct (rx_lines (sock s)); simpl;
      [reflexivity | apply Hsock].
Qed.

#[global] Instance bad_echo_le_preorder : PreOrder bad_echo_le.
Proof. split; [intros s | intros a b c]; unfold bad_echo_le; lia. Qed.

#[global] Instance bad_echo_eq_preorder : PreOrder bad_echo_eq.
Proof. split; [done | intros a b c; unfold bad_echo_eq; congruence]. Qed.

#[global] Instance history_eq_preorder : PreOrder history_eq.
Proof. split; [done | intros a b c; unfold history_eq; congruence]. Qed.

#[global] Instance history_prefix_preorder : PreOrder history_prefix.
Proof.
  split; [intros s; unfold history_prefix; done |].
  intros a b c; unfold history_prefix. apply transitivity.
Qed.

#[global] Instance blocks_le_preorder : PreOrder blocks_le.
Proof. split; [intros s | intros a b c]; unfold blocks_le; lia. Qed.

#[global] Instance bad_echo_le_frame : Frame bad_echo_le.
Proof.
  apply frame_sock_blind; try exact _; intros; unfold bad_echo_le; simpl; lia.
Qed.

#[global] Instance bad_echo_le_frame_echo : FrameEcho bad_echo_le.
Proof. intros s. unfold bad_echo_le. simpl. lia. Qed.

#[global] Instance bad_echo_le_frame_history : FrameHistory bad_echo_le.
Proof. intros c s. unfold bad_echo_le. simpl. lia. Qed.

#[global] Instance bad_echo_eq_frame : Frame bad_echo_eq.
Proof. apply frame_sock_blind; try exact _; intros; reflexivity. Qed.

#[global] Instance history_eq_frame_echo : FrameEcho history_eq.
Proof. intros s. reflexivity. Qed.

#[global] Instance history_prefix_frame_echo : FrameEcho history_prefix.
Proof. intros s. unfold history_prefix. done. Qed.

#[global] Instance blocks_le_frame_echo : FrameEcho blocks_le.
Proof. intros s. unfold blocks_le. simpl. lia. Qed.

#[global] Instance history_eq_frame : Frame history_eq.
Proof. apply frame_sock_blind; try exact _; intros; reflexivity. Qed.

#[global] Instance history_prefix_frame : Frame history_prefix.
Proof.
  apply frame_sock_blind; try exact _; intros; unfold history_prefix; done.
Qed.

#[global] Instance history_prefix_frame_history : FrameHistory history_prefix.
Proof. intros c s. unfold history_prefix. simpl. by apply prefix_app_r. Qed.

#[global] Instance blocks_le_frame : Frame blocks_le.
Proof.
  split;
    [ exact _ | intros c s | intros s | intros t s | intros s | intros s
    | intros st s | intros h s ];
    unfold blocks_le, sock_read1, sock_readlines; simpl; try lia.
  - destruct (rx_bytes (sock s)); simpl; lia.
  - destruct (rx_lines (sock s)) eqn:E; simpl; [rewrite E|]; simpl; lia.
Qed.

#[global] Instance blocks_le_frame_history : FrameHistory blocks_le.
Proof. intros c s. unfold blocks_le. simpl. lia. Qed.
(** ** What a method can raise *)

Section Raises.
Variable E : exn → Prop.

Lemma raises_ret {A} (a : A) : raises_only E (mret a).
Proof. intros s e. simpl. done. Qed.

Lemma raises_gets {A} (f : Sw → A) : raises_only E (gets f).
Proof. intros s e. simpl. done. Qed.

Lemma raises_modify (f : Sw → Sw) : raises_only E (modify f).
Proof. intros s e. simpl. done. Qed.

Lemma raises_raise {A} (e : exn) : E e → raises_only E (@raise A e).
Proof. intros He s e'. simpl. by intros [= <-]. Qed.

Lemma raises_lift {A} (r : result A) :
  (∀ e, r = Raise e → E e) → raises_only E (lift r).
Proof. intros H s e. simpl. apply H. Qed.

Lemma raises_bind {A B} (m : M A) (k : A → M B) :
  raises_only E m → (∀ a, raises_only E (k a)) → raises_only E (m ≫= k).
Proof.
  intros Hm Hk s e. unfold mbind, M_bind, bind.
  specialize (Hm s). destruct (m s) as [[a|e'] s1]; simpl in *.
  - apply Hk.
  - intros [= <-]. by apply Hm.
Qed.

Lemma raises_try {A} (m h : M A) (e : exn) :
  raises_only (λ e', e' = e ∨ E e') m → raises_only E h →
  raises_only E (try_except m e h).
Proof.
  intros Hm Hh s e'. unfold try_except.
  specialize (Hm s). destruct (m s) as [[a|e''] s1]; simpl in *; [done|].
  case_decide as Heq; simpl.
  - apply Hh.
  - intros [= <-]. destruct (Hm e'' eq_refl) as [?|?]; [done|done].
Qed.

Lemma raises_for_each {A} (l : list A) (body : A → M unit) :
  (∀ x, raises_only E (body x)) → raises_only E (for_each l body).
Proof.
  intros Hb. induction l as [|x l IH]; simpl.
  - apply raises_ret.
  - apply raises_bind; [apply Hb | intros _; exact IH].
Qed.

Lemma raises_sock_read1 : raises_only E sock_read1.
Proof. intros s e. unfold sock_read1. by destruct (rx_bytes (sock s)). Qed.

Lemma raises_sock_readlines : raises_only E sock_readlines.
Proof. intros s e. unfold sock_readlines. by destruct (rx_lines (sock s)). Qed.

Lemma raises_weaken {A} (E' : exn → Prop) (m : M A) :
  (∀ e, E' e → E e) → raises_only E' m → raises_only E m.
Proof. intros H Hm s e He. apply H. by apply (Hm s). Qed.

End Raises.

(** One step of a proof about what is raised, and the proof by steps. *)
Ltac raises_step :=
  first
    [ apply raises_ret
    | apply raises_gets
    | apply raises_modify
    | apply raises_sock_read1
    | apply raises_sock_readlines
    | apply raises_raise; solve [auto]
    | apply raises_bind; [| intros ?]
    | match goal with
      | |- raises_only _ (let '(_, _) := ?x in _) => destruct x
      | |- raises_only _ (match ?x with _ => _ end) => destruct x
      | |- raises_only _ (if ?b then _ else _) => destruct b
      end ].

Ltac raises_with tac := repeat (first [ tac | raises_step ]).

Section RaisesSw.
Import PyStr.
Variable config : Config.
Variable prompt_needle : _States → string.
Variable E : exn → Prop.
Hypothesis E_timeout : E SerialTimeoutException.
Hypothesis E_index : E IndexError.
Hypothesis E_type : E TypeError.

Lemma raises_parse_prompt out : raises_only E (_parse_prompt prompt_needle out).
Proof.
  unfold _parse_prompt, _determine_hostname, sock_write. raises_with fail.
Qed.

Lemma raises_recv_once : raises_only E (_recv_once prompt_needle).
Proof. unfold _recv_once. raises_with ltac:(apply raises_parse_prompt). Qed.

Lemma raises_recv_once_retry_loop n :
  raises_only E (_recv_once_retry_loop prompt_needle n).
Proof.
  induction n as [|n IH]; simpl; [raises_step|].
  apply raises_try.
  - eapply raises_weaken; [|apply raises_recv_once]. auto.
  - unfold sock_set_timeout. raises_with ltac:(exact IH).
Qed.

Lemma raises_strip_more_magic out : raises_only E (strip_more_magic out).
Proof. unfold strip_more_magic. raises_with fail. Qed.

Lemma strip_more_magic_state out s r s' :
  strip_more_magic out s = (r, s') → s' = s.
Proof.
  unfold strip_more_magic, raise, mret, M_ret, ret.
  repeat case_match; congruence.
Qed.

(** A page that is read takes one scripted block. *)
Lemma recv_once_consumes s r s' :
  _recv_once prompt_needle s = (Ok r, s') →
  (length (rx_lines (sock s')) < length (rx_lines (sock s)))%nat.
Proof.
  unfold _recv_once, mbind, M_bind. unfold bind at 1. unfold sock_readlines.
  destruct (rx_lines (sock s)) as [|b rest] eqn:Hrx; simpl.
  - by intros [= ?].
  - destruct (_filter_lines b []) as [ls coms].
    destruct (bool_decide (filter_None ls = [])); [by intros [= ?]|].
    intros Hk.
    assert (Hp : preserves blocks_le
              (_parse_prompt prompt_needle (filter_None ls) ≫= λ '(st, out'),
                 modify (set_state st) ≫= λ _ : (), mret (out', coms))).
    { frame_with ltac:(first [ apply preserves_parse_prompt
                             | apply preserves_modify; intros ?; apply frame_state ]). }
    match type of Hk with _ ?s1 = _ => specialize (Hp s1) end.
    unfold mbind, M_bind in Hp. rewrite Hk in Hp.
    unfold blocks_le in Hp. simpl in Hp. lia.
Qed.

Lemma recv_once_retry_loop_consumes n s r s' :
  _recv_once_retry_loop prompt_needle n s = (Ok r, s') →
  (length (rx_lines (sock s')) < length (rx_lines (sock s)))%nat.
Proof.
  revert s. induction n as [|n IH]; intros s; simpl; [by intros [= ?]|].
  unfold try_except.
  pose proof (preserves_recv_once blocks_le prompt_needle s) as Hle.
  destruct (_recv_once prompt_needle s) as [[r0|e] s1] eqn:Hone.
  - intros [= -> ->]. by eapply recv_once_consumes.
  - case_decide; [|by intros [= ?]].
    unfold mbind, M_bind, bind, gets, sock_set_timeout, modify. simpl.
    intros Hloop. apply IH in Hloop. unfold blocks_le in Hle. simpl in *. lia.
Qed.

(** The fuel [_recv] gives its loop is enough: the loop is never cut. *)
Lemma recv_more_raises fuel auto_more whole_out all_comments s e :
  (length (rx_lines (sock s)) < fuel)%nat →
  fst (_recv_more config prompt_needle fuel auto_more whole_out all_comments s) = Raise e →
  E e.
Proof.
  revert s whole_out all_comments.
  induction fuel as [|fuel IH]; intros s whole_out all_comments Hlen; [lia|].
  simpl. unfold mbind, M_bind, bind, gets.
  destruct (auto_more && bool_decide (state s = Some MORE)); [|by intros [= ?]].
  unfold sock_write, modify. simpl.
  destruct (_recv_once_retry config prompt_needle _) as [[[out comments]|e'] s1] eqn:Hretry.
  - apply recv_once_retry_loop_consumes in Hretry. simpl in Hretry.
    destruct (strip_more_magic out s1) as [[out'|e'] s2] eqn:Hstrip.
    + apply strip_more_magic_state in Hstrip as ->. apply IH. lia.
    + simpl. intros [= <-].
      by apply (raises_strip_more_magic out s1); rewrite Hstrip.
  - simpl. intros [= <-].
    match type of Hretry with _ ?s0 = _ =>
      apply (raises_recv_once_retry_loop (Z.to_nat (READ_RETRIES config)) s0) end.
    unfold _recv_once_retry in Hretry. by rewrite Hretry.
Qed.

Lemma raises_recv auto_more tmo : raises_only E (_recv config prompt_needle auto_more tmo).
Proof.
  intros s e. unfold _recv, mbind, M_bind, bind, sock_set_timeout, modify, gets.
  cbn -[_recv_more].
  destruct (_recv_once_retry config prompt_needle _) as [[[whole_out all_comments]|e'] s1] eqn:Hretry.
  - cbn -[_recv_more]. apply recv_more_raises. simpl. lia.
  - cbn -[_recv_more]. intros [= <-].
    match type of Hretry with _ ?s0 = _ =>
      apply (raises_recv_once_retry_loop (Z.to_nat (READ_RETRIES config)) s0) end.
    unfold _recv_once_retry in Hretry. by rewrite Hretry.
Qed.

Hypothesis E_budget : E SwitchBadEchoBudgetExceededError.

Lemma raises_check_echo char : raises_only E (check_echo config char).
Proof. unfold check_echo, sock_flushInput. raises_with fail. Qed.

Lemma raises_send_chars str bypass : raises_only E (_send_chars config str bypass).
Proof.
  induction str as [|c str IH]; simpl; [raises_step|].
  unfold sock_write. raises_with ltac:(first [ exact IH | apply raises_check_echo ]).
Qed.

Lemma raises_send str bypass auto_more tmo :
  raises_only E (_send config prompt_needle str bypass auto_more tmo).
Proof.
  unfold _send.
  raises_with ltac:(first [ apply raises_send_chars | apply raises_recv ]).
Qed.

Lemma raises_send_cmd cmd tmo : raises_only E (send_cmd config prompt_needle cmd tmo).
Proof. unfold send_cmd. raises_with ltac:(apply raises_send). Qed.

Lemma raises_send_cmd_ cmd : raises_only E (send_cmd_ config prompt_needle cmd).
Proof. unfold send_cmd_. raises_with ltac:(apply raises_send_cmd). Qed.

Hypothesis E_assert : E AssertionError.

Lemma raises_login : raises_only E (_login config prompt_needle).
Proof. unfold _login. raises_with ltac:(apply raises_send_cmd). Qed.

Lemma raises_goto_admin_main_prompt :
  raises_only E (_goto_admin_main_prompt config prompt_needle).
Proof.
  unfold _goto_admin_main_prompt, sock_flushInput.
  raises_with ltac:(first [ apply raises_send_cmd | apply raises_send
                          | apply raises_login ]).
Qed.

End RaisesSw.
(** ** The echo check *)

Section EchoCheck.
Import PyStr.
Variable config : Config.
Variable prompt_needle : _States → string.

Lemma expected_echo_cases (st : option _States) (echo : option ascii) (char : ascii) :
  expected_echo st echo char =
    if decide (st = Some LOGIN_PASSWORD ∧ echo ≠ Some char) then "*"%char else char.
Proof.
  unfold expected_echo.
  repeat (case_bool_decide; simpl); case_decide; naive_solver.
Qed.

Lemma echo_accepted_iff (st : option _States) (echo : option ascii) (char : ascii) :
  echo = Some (expected_echo st echo char)
  ↔ echo = Some char ∨ (st = Some LOGIN_PASSWORD ∧ echo = Some "*"%char).
Proof.
  rewrite expected_echo_cases. case_decide as H; [naive_solver|].
  split; [naive_solver|]. intros [?|[-> ->]]; [done|].
  destruct (decide (Some "*"%char = Some char)) as [?|Hne]; [done|].
  exfalso. apply H. done.
Qed.

Lemma check_echo_spec (s : Sw) (char : ascii) :
  check_echo config char s =
    let '(e, rest) := pending_echo (rx_bytes (sock s)) in
    let s1 := with_rx_bytes rest s in
    if bool_decide (e = Some (expected_echo (state s) e char)) then (Ok tt, s1)
    else
      let s2 := set_bad_echo (_bad_echo s + 1) s1 in
      match e with
      | None => (Raise TypeError, s2)
      | Some _ =>
          (if bool_decide (_bad_echo s + 1 > BAD_ECHO_BUDGET config)
           then Raise SwitchBadEchoBudgetExceededError else Ok tt,
           flushed s2)
      end.
Proof.
  destruct s as [[tmo bytes lines evs] st hn bad hist].
  unfold check_echo, pending_echo, mbind, M_bind, bind, sock_read1,
    mret, M_ret, ret, gets, modify, raise, sock_flushInput, modify,
    with_rx_bytes, flushed, set_bad_echo, set_sock; simpl.
  destruct bytes as [|[c|] [|b rest]]; simpl;
    repeat (case_bool_decide; simpl); simplify_eq; try done;
    destruct b; simpl; repeat (case_bool_decide; simpl); simplify_eq; done.
Qed.

(** An accepted echo leaves the counter alone; a refused one counts. *)
Lemma check_echo_counter (s : Sw) (char : ascii) :
  let e := fst (pending_echo (rx_bytes (sock s))) in
  _bad_echo (snd (check_echo config char s)) =
    if bool_decide (e = Some (expected_echo (state s) e char))
    then _bad_echo s else _bad_echo s + 1.
Proof.
  rewrite check_echo_spec. destruct (pending_echo _) as [e rest]. simpl.
  case_bool_decide; [done|]. by destruct e.
Qed.




End EchoCheck.
(** ** Prompt classification *)

Section Prompt.
Import PyStr Regex.
Variable prompt_needle : _States → string.

Lemma set_hostname_same (s : Sw) : set_hostname (hostname s) s = s.
Proof. by destruct s. Qed.

(** [_parse_prompt] on a block that ends with the line [l]. *)
Lemma parse_prompt_spec (pre : list string) (l : string) (s : Sw) :
  _parse_prompt prompt_needle (pre ++ [l]) s =
    let '(st, removed, hn) := classify_spec prompt_needle (hostname s) l in
    (Ok (st, if removed then pre else pre ++ [l]), set_hostname hn s).
Proof.
  unfold _parse_prompt, classify_spec.
  rewrite last_snoc, removelast_last. unfold fixed_states. simpl.
  repeat (destruct (startswith l (prompt_needle _));
          [by rewrite set_hostname_same|]).
  unfold mbind, M_bind, bind, gets, mret, M_ret, ret, raise. cbn beta iota.
  destruct s as [k st0 [[|c hn]|] bad hist]; unfold _determine_hostname; simpl;
    try destruct (hostname_search l) as [h|]; simpl; try done;
    unfold classify_hostname_spec, hostname_states, set_hostname; simpl;
    repeat (destruct (startswith l _); [done|]); done.
Qed.

(** A block with a line in it is always classified: [_parse_prompt] returns. *)
Lemma parse_prompt_returns (out : list string) (s : Sw) :
  out ≠ [] →
  ∃ st out' hn, _parse_prompt prompt_needle out s = (Ok (st, out'), set_hostname hn s).
Proof.
  intros Hne. destruct (exists_last Hne) as (pre & l & ->).
  rewrite parse_prompt_spec.
  destruct (classify_spec prompt_needle (hostname s) l) as [[st removed] hn].
  eauto.
Qed.

End Prompt.
(** ** Receiving a block *)

Section Recv.
Import PyStr Regex.
Variable config : Config.
Variable prompt_needle : _States → string.

Lemma filter_spec (line : string) (comments : list string) :
  _filter line comments
  = (line_text line, comments ++ option_list (line_comment line)).
Proof.
  unfold _filter, line_text, line_comment.
  destruct (comment_search line) as [[start group]|]; simpl; [done|].
  by rewrite app_nil_r.
Qed.

Lemma filter_lines_spec (ls : list string) (coms : list string) :
  _filter_lines ls coms
  = (line_text ∘ rstrip_crlf <$> ls, coms ++ omap (line_comment ∘ rstrip_crlf) ls).
Proof.
  revert coms. induction ls as [|l ls IH]; intros coms; simpl.
  - by rewrite app_nil_r.
  - rewrite filter_spec, IH. simpl.
    destruct (line_comment (rstrip_crlf l)); simpl; [|by rewrite app_nil_r].
    by rewrite <- app_assoc.
Qed.

Lemma omap_compose_fmap {A B C} (f : B → option C) (g : A → B) (l : list A) :
  omap (f ∘ g) l = omap f (g <$> l).
Proof.
  induction l as [|x l IH]; [done|].
  cbn. destruct (f (g x)); by f_equal.
Qed.

Lemma sock_readlines_next_block (s : Sw) :
  fst (sock_readlines s) = Ok (next_block s).
Proof. unfold sock_readlines, next_block. by destruct (rx_lines (sock s)). Qed.

(** [_recv_once] in one equation: the block is filtered, an empty rest is a
    timeout, otherwise the prompt is classified. *)
Lemma recv_once_spec (s : Sw) :
  let raw := rstrip_crlf <$> next_block s in
  let primary := filter_None (line_text <$> raw) in
  let coms := omap line_comment raw in
  match fst (_recv_once prompt_needle s) with
  | Ok (out, c) => c = coms ∧ primary ≠ [] ∧ (out = primary ∨ out = removelast primary)
  | Raise e => e = SerialTimeoutException ∧ primary = []
  end.
Proof.
  intros raw primary coms. unfold _recv_once, mbind, M_bind. unfold bind at 1.
  pose proof (sock_readlines_next_block s) as Hb.
  destruct (sock_readlines s) as [[b|e] s1]; simpl in Hb; [|done].
  injection Hb as ->. rewrite filter_lines_spec. simpl.
  replace (filter_None ((line_text ∘ rstrip_crlf) <$> next_block s)) with primary
    by (unfold primary, raw; by rewrite <- list_fmap_compose).
  replace (omap (line_comment ∘ rstrip_crlf) (next_block s)) with coms
    by (unfold coms, raw; by rewrite omap_compose_fmap).
  case_bool_decide as Hp; simpl; [done|].
  destruct (exists_last Hp) as (pre & l & Hpl).
  unfold bind. rewrite Hpl, parse_prompt_spec.
  destruct (classify_spec prompt_needle (hostname s1) l) as [[st removed] hn].
  simpl. split; [done|]. split; [by rewrite <- Hpl|].
  rewrite removelast_last. destruct removed; auto.
Qed.


End Recv.
(** ** Port ranges *)

Section Ranges.
Import PyStr.

Lemma digits_string_of_uint (d : Decimal.uint) :
  all_chars is_digit (NilEmpty.string_of_uint d) = true.
Proof. induction d; simpl; done. Qed.

Lemma str_of_int_of_N (n : N) :
  str_of_int (Z.of_N n) = NilEmpty.string_of_uint (N.to_uint n)
  ∧ N.to_uint n ≠ Decimal.Nil.
Proof.
  destruct n as [|p]; simpl; [done|].
  unfold str_of_int. simpl. unfold NilZero.string_of_uint.
  pose proof (Unsigned.to_uint_nonnil p) as Hnn.
  by destruct (Pos.to_uint p).
Qed.

Lemma str_of_int_digits (n : N) :
  all_chars is_digit (str_of_int (Z.of_N n)) = true
  ∧ str_of_int (Z.of_N n) ≠ "".
Proof.
  destruct (str_of_int_of_N n) as [-> Hnn]. split.
  - apply digits_string_of_uint.
  - by destruct (N.to_uint n).
Qed.

Lemma all_chars_weaken (p q : ascii → bool) (s : string) :
  (∀ c, p c = true → q c = true) → all_chars p s = true → all_chars q s = true.
Proof.
  intros H. induction s as [|c s IH]; simpl; [done|].
  intros [Hc Hs]%andb_prop. by rewrite (H c Hc), IH.
Qed.

Lemma rstrip_by_id (p : ascii → bool) (s : string) :
  all_chars (λ c, negb (p c)) s = true → rstrip_by p s = s.
Proof.
  induction s as [|c s IH]; simpl; [done|].
  intros [Hc Hs]%andb_prop. rewrite (IH Hs).
  destruct s; [|done]. by destruct (p c).
Qed.

Lemma lstrip_by_id (p : ascii → bool) (s : string) :
  all_chars (λ c, negb (p c)) s = true → lstrip_by p s = s.
Proof.
  destruct s as [|c s]; simpl; [done|].
  intros [Hc Hs]%andb_prop. by destruct (p c).
Qed.

Lemma is_digit_cases (c : ascii) :
  is_digit c = true →
  is_space c = false ∧ c ≠ "+"%char ∧ c ≠ "-"%char ∧ c ≠ ","%char.
Proof.
  destruct c as [[] [] [] [] [] [] [] []]; vm_compute; intros H;
    try discriminate H; repeat split; discriminate.
Qed.

Lemma int_unsigned (c : ascii) (s : string) :
  c ≠ "+"%char → c ≠ "-"%char →
  strip (String c s) = String c s →
  int (String c s) = Z.of_uint <$> NilZero.uint_of_string (String c s).
Proof.
  intros Hplus Hminus Hstrip. unfold int. rewrite Hstrip.
  destruct c as [[] [] [] [] [] [] [] []]; done.
Qed.

(** [int] reads back what [str] printed, for a natural number. *)
Lemma int_str_of_int (n : N) : int (str_of_int (Z.of_N n)) = Some (Z.of_N n).
Proof.
  destruct (str_of_int_digits n) as [Hd Hne].
  destruct (str_of_int_of_N n) as [Hs Hnn].
  assert (NilZero.uint_of_string (str_of_int (Z.of_N n)) = Some (N.to_uint n)) as Hu.
  { rewrite Hs. unfold NilZero.uint_of_string.
    destruct (NilEmpty.string_of_uint (N.to_uint n)) eqn:E.
    - by rewrite <- Hs in E.
    - rewrite <- E. apply NilEmpty.usu. }
  assert (Z.of_uint (N.to_uint n) = Z.of_N n) as Hz.
  { unfold Z.of_uint. f_equal. apply DecimalN.Unsigned.of_to. }
  assert (strip (str_of_int (Z.of_N n)) = str_of_int (Z.of_N n)) as Hstrip.
  { unfold strip. rewrite lstrip_by_id, rstrip_by_id;
      try (eapply all_chars_weaken; [|exact Hd]; intros c Hc;
           by destruct (is_digit_cases c Hc) as [-> _]).
    done. }
  destruct (str_of_int (Z.of_N n)) as [|c s] eqn:E; [done|].
  simpl in Hd. apply andb_prop in Hd as [Hc _].
  destruct (is_digit_cases c Hc) as (_ & Hplus & Hminus & _).
  rewrite int_unsigned by done. rewrite Hu. simpl. by rewrite Hz.
Qed.

Lemma all_chars_app (p : ascii → bool) (a b : string) :
  all_chars p (a +:+ b) = all_chars p a && all_chars p b.
Proof. induction a as [|c a IH]; simpl; [done|]. by rewrite IH, andb_assoc. Qed.

Lemma split_no_sep (sep : ascii) (s : string) :
  all_chars (λ c, negb (Ascii.eqb c sep)) s = true → split sep s = [s].
Proof.
  induction s as [|c s IH]; simpl; [done|].
  intros [Hc Hs]%andb_prop. apply negb_true_iff in Hc. rewrite Hc.
  by rewrite (IH Hs).
Qed.

Lemma split_app_sep (sep : ascii) (s rest : string) :
  all_chars (λ c, negb (Ascii.eqb c sep)) s = true →
  split sep (s +:+ String sep rest) = s :: split sep rest.
Proof.
  induction s as [|c s IH]; simpl.
  - intros _. by rewrite Ascii.eqb_refl.
  - intros [Hc Hs]%andb_prop. apply negb_true_iff in Hc. rewrite Hc.
    by rewrite (IH Hs).
Qed.

Lemma contains_comma (x : string) :
  contains "," x = false →
  all_chars (λ c, negb (Ascii.eqb c ",")) x = true.
Proof.
  induction x as [|c x IH]; simpl; [done|].
  intros [Hp Hx]%orb_false_elim. rewrite (IH Hx), andb_true_r.
  destruct (Ascii.eqb_spec c ",") as [->|]; [|done].
  simpl in Hp. by destruct x.
Qed.

Lemma digits_no_char (sep : ascii) (n : N) :
  is_digit sep = false →
  all_chars (λ c, negb (Ascii.eqb c sep)) (str_of_int (Z.of_N n)) = true.
Proof.
  intros Hsep. destruct (str_of_int_digits n) as [Hd _].
  eapply all_chars_weaken; [|exact Hd]. intros c Hc.
  destruct (Ascii.eqb_spec c sep) as [->|]; [congruence | done].
Qed.

Lemma render_token_no_comma (t : Token) :
  token_ok t →
  all_chars (λ c, negb (Ascii.eqb c ",")) (render_token t) = true.
Proof.
  destruct t as [n|a b|x]; simpl.
  - intros _. by apply digits_no_char.
  - intros _. rewrite !all_chars_app. simpl.
    by rewrite !digits_no_char.
  - intros [_ Hc]. by apply contains_comma.
Qed.

Lemma split_join_tokens (toks : list Token) :
  Forall token_ok toks → toks ≠ [] →
  split "," (join "," (render_token <$> toks)) = render_token <$> toks.
Proof.
  induction toks as [|t toks IH]; [done|].
  intros Hok _. apply Forall_cons in Hok as [Ht Hok].
  destruct toks as [|t' toks].
  - simpl. by apply split_no_sep, render_token_no_comma.
  - change (join "," (render_token <$> t :: t' :: toks))
      with (render_token t +:+ String "," (join "," (render_token <$> t' :: toks))).
    rewrite split_app_sep by by apply render_token_no_comma.
    by rewrite IH.
Qed.

Lemma filter_cons_if {A} (f : A → bool) (x : A) (l : list A) :
  List.filter f (x :: l) = if f x then x :: List.filter f l else List.filter f l.
Proof. reflexivity. Qed.

Lemma startswith_gi (x : string) : startswith ("gi" +:+ x) "gi" = true.
Proof. unfold startswith. simpl. by destruct x. Qed.

Lemma drop_gi (x : string) : drop_str (String.length "gi") ("gi" +:+ x) = x.
Proof. reflexivity. Qed.

Lemma expand_all_cons (r : list string) (rest : list (list string)) :
  expand_all (r :: rest)
  = rbind (expand_bounds r) (λ l, rbind (expand_all rest) (λ ls, Ok (l ++ ls))).
Proof. reflexivity. Qed.

Lemma range_incl_single (a : Z) : range_incl a a = [a].
Proof. unfold range_incl. by replace (a + 1 - a) with 1 by lia. Qed.

(** What one token gives once filtered, cut and expanded. *)
Lemma expand_token (t : Token) (rest : list string) :
  token_ok t →
  expand_all
    ((λ r, split "-" (drop_str (String.length "gi") r))
       <$> List.filter (λ r, startswith r "gi") (render_token t :: rest))
  = rbind
      (expand_all
         ((λ r, split "-" (drop_str (String.length "gi") r))
            <$> List.filter (λ r, startswith r "gi") rest))
      (λ ls, Ok (token_ports t ++ ls)).
Proof.
  rewrite filter_cons_if.
  destruct t as [n|a b|x]; unfold render_token, token_ports, token_ok.
  - intros _. rewrite startswith_gi, fmap_cons, drop_gi, expand_all_cons.
    rewrite split_no_sep by by apply digits_no_char.
    unfold expand_bounds. cbn [head last]. rewrite int_str_of_int.
    by rewrite range_incl_single.
  - intros _. rewrite startswith_gi, fmap_cons, drop_gi, expand_all_cons.
    change ("-" +:+ str_of_int (Z.of_N b)) with (String "-" (str_of_int (Z.of_N b))).
    rewrite split_app_sep by by apply digits_no_char.
    rewrite split_no_sep by by apply digits_no_char.
    unfold expand_bounds. cbn [head last]. by rewrite !int_str_of_int.
  - intros [Hgi _]. rewrite Hgi. by destruct (expand_all _).
Qed.

Lemma expand_tokens (toks : list Token) :
  Forall token_ok toks →
  expand_all
    ((λ r, split "-" (drop_str (String.length "gi") r))
       <$> List.filter (λ r, startswith r "gi") (render_token <$> toks))
  = Ok (concat (token_ports <$> toks)).
Proof.
  induction toks as [|t toks IH]; [done|].
  intros [Ht Hok]%Forall_cons. rewrite fmap_cons, expand_token by done.
  by rewrite (IH Hok).
Qed.

End Ranges.
(** ** The reconciliation *)

Section Emits.
Import PyStr.
Variable config : Config.
Variable prompt_needle : _States → string.




Lemma send_cmd_history (cmd : string) (tmo : Z) (s : Sw) :
  history (snd (send_cmd config prompt_needle cmd tmo s)) = history s ++ [cmd].
Proof.
  unfold send_cmd, mbind, M_bind, bind, modify. cbn beta iota.
  symmetry.
  apply (preserves_send history_eq config prompt_needle
           (cmd +:+ String LF "") false true tmo
           (set_history (history s ++ [cmd]) s)).
Qed.






End Emits.
(** ** The order of the script *)

Section Order.
Import PyStr.
Variable config : Config.








Lemma set_diff_same (vlans : gset Z) : _set_diff vlans vlans = (∅, ∅).
Proof. unfold _set_diff. f_equal; set_solver. Qed.

Lemma dict_diff_agree (ports_old ports_new : gmap Z PortConf) :
  (∀ p, p ∈ dom ports_new → p ∈ dom ports_old → ports_old !! p = ports_new !! p) →
  _dict_diff ports_old ports_new = ∅.
Proof.
  intros H. unfold _dict_diff. apply set_eq. intros p.
  rewrite elem_of_filter, elem_of_intersection. set_solver.
Qed.


End Order.
(** ** No method is cut by the fuel *)

Section RaisesVlan.
Import PyStr.
Variable config : Config.
Variable prompt_needle : _States → string.
Variable E : exn → Prop.
Hypothesis E_timeout : E SerialTimeoutException.
Hypothesis E_index : E IndexError.
Hypothesis E_type : E TypeError.
Hypothesis E_budget : E SwitchBadEchoBudgetExceededError.
Hypothesis E_assert : E AssertionError.
Hypothesis E_key : E KeyError.
Hypothesis E_value : E ValueError.

Lemma rbind_raises {A B} (r : result A) (k : A → result B) (e : exn) :
  (∀ e', r = Raise e' → E e') →
  (∀ a e', k a = Raise e' → E e') →
  rbind r k = Raise e → E e.
Proof. intros Hr Hk. destruct r as [a|e']; simpl; [apply Hk | intros [= <-]; by apply Hr]. Qed.

Lemma expand_bounds_raises r e : expand_bounds r = Raise e → E e.
Proof. unfold expand_bounds. repeat case_match; intros [= <-]; done. Qed.

Lemma expand_all_raises range_ e : expand_all range_ = Raise e → E e.
Proof.
  revert e. induction range_ as [|r rest IH]; intros e; simpl; [done|].
  apply rbind_raises; [apply expand_bounds_raises|]. intros l e'.
  apply rbind_raises; [apply IH | done].
Qed.

Lemma str_to_if_range_raises str e : _str_to_if_range str = Raise e → E e.
Proof. apply expand_all_raises. Qed.

Lemma set_untagged_raises ifs vid ports e : set_untagged ifs vid ports = Raise e → E e.
Proof.
  revert ports e. induction ifs as [|i rest IH]; intros ports e; simpl; [done|].
  repeat case_match; try apply IH. by intros [= <-].
Qed.

Lemma add_tagged_raises ifs vid ports e : add_tagged ifs vid ports = Raise e → E e.
Proof.
  revert ports e. induction ifs as [|i rest IH]; intros ports e; simpl; [done|].
  repeat case_match; try apply IH. by intros [= <-].
Qed.

Lemma parse_row_raises line acc e : parse_row line acc = Raise e → E e.
Proof.
  unfold parse_row. destruct acc as [vlans ports].
  repeat case_match; try (by intros [= <-]).
  apply rbind_raises; [apply str_to_if_range_raises | intros ? ?].
  apply rbind_raises; [apply str_to_if_range_raises | intros ? ?].
  apply rbind_raises; [apply set_untagged_raises | intros ? ?].
  apply rbind_raises; [apply add_tagged_raises | done].
Qed.

Lemma parse_rows_raises lines acc e : parse_rows lines acc = Raise e → E e.
Proof.
  revert acc e. induction lines as [|l rest IH]; intros acc e; simpl; [done|].
  apply rbind_raises; [apply parse_row_raises | intros a e'; apply IH].
Qed.

Lemma raises_parse_vlans : raises_only E (_parse_vlans config prompt_needle).
Proof.
  unfold _parse_vlans.
  raises_with ltac:(first [ apply raises_send_cmd; assumption
                          | apply raises_lift; apply parse_rows_raises ]).
Qed.

Lemma raises_configure_port ports_old ports_new port_id :
  raises_only E (configure_port config prompt_needle ports_old ports_new port_id).
Proof.
  unfold configure_port.
  raises_with ltac:(apply raises_send_cmd_; assumption).
Qed.

Lemma raises_apply_vlan_conf va vr pc ports_old ports_new :
  raises_only E (apply_vlan_conf config prompt_needle va vr pc ports_old ports_new).
Proof.
  unfold apply_vlan_conf.
  raises_with ltac:(first [ apply raises_send_cmd_; assumption
                          | apply raises_configure_port
                          | apply raises_for_each; intros ? ]).
Qed.

Lemma raises_update_vlan_conf vlans_new ports_new :
  raises_only E (update_vlan_conf config prompt_needle vlans_new ports_new).
Proof.
  unfold update_vlan_conf.
  raises_with ltac:(first [ apply raises_parse_vlans
                          | apply raises_goto_admin_main_prompt; assumption
                          | apply raises_apply_vlan_conf ]).
Qed.

End RaisesVlan.

(** The loop of [_recv] is bounded by the script: no method of the session
    ends on the fuel marker. *)
Lemma session_terminates (config : Config) (prompt_needle : _States → string) :
  (∀ auto_more tmo,
     raises_only (λ e, e ≠ NonTermination) (_recv config prompt_needle auto_more tmo))
  ∧ (∀ cmd tmo,
       raises_only (λ e, e ≠ NonTermination) (send_cmd config prompt_needle cmd tmo))
  ∧ raises_only (λ e, e ≠ NonTermination) (_login config prompt_needle)
  ∧ raises_only (λ e, e ≠ NonTermination) (_goto_admin_main_prompt config prompt_needle)
  ∧ (∀ vlans_new ports_new,
       raises_only (λ e, e ≠ NonTermination)
         (update_vlan_conf config prompt_needle vlans_new ports_new)).
Proof.
  repeat split; intros.
  - by apply raises_recv.
  - by apply raises_send_cmd.
  - by apply raises_login.
  - by apply raises_goto_admin_main_prompt.
  - by apply raises_update_vlan_conf.
Qed.
(** ** Prompt classification (section 4.1) *)

(** C3. [_parse_prompt] looks at the last line of the block only, and on that
    line it is the procedure of the specification: the fixed needles in the
    order PressAnyKey, LoginUsername, LoginPassword, More (a More line is
    removed); then, the hostname being unknown, its extraction, whose failure
    gives Unknown with nothing removed; then the hostname-prefixed needles in
    the order Config, ConfigVlan, ConfigIf, ConfigIfRange, AdminMain,
    UserMain, a match removing the prompt line; no match gives Unknown.  The
    lines before the last one play no part: they come back as they are. *)
Theorem prompt_classification (prompt_needle : _States → string)
    (pre : list string) (l : string) (s : Sw) :
  _parse_prompt prompt_needle (pre ++ [l]) s =
    let '(st, removed, hn) := classify_spec prompt_needle (hostname s) l in
    (Ok (st, if removed then pre else pre ++ [l]), set_hostname hn s).
Proof. apply parse_prompt_spec. Qed.

(** ** Comments and empty reads (section 4.3) *)


(** ** The login handshake (section 4.5) *)

(** C5, as the code has it.  When the username was sent, the answer does not
    carry the invalid-username marker and the state that results is not
    LoginPassword, [_login] returns [False] to its caller, the session being
    left as the command left it: a recoverable failure.  The assertion failure
    is what [_login] raises when it is entered in a state that is neither
    LoginUsername nor LoginPassword. *)
Theorem login_unexpected_state_returns_false
    (config : Config) (prompt_needle : _States → string) :
  (∀ (s s1 : Sw) (out coms : list string),
     state s = Some LOGIN_USERNAME →
     send_cmd config prompt_needle (USER config) (READ_TIMEOUT config) s
       = (Ok (out, coms), s1) →
     existsb (PyStr.contains "Incorrect User Name") out = false →
     state s1 ≠ Some LOGIN_PASSWORD →
     _login config prompt_needle s = (Ok false, s1))
  ∧ (∀ s : Sw,
       state s ≠ Some LOGIN_USERNAME →
       state s ≠ Some LOGIN_PASSWORD →
       _login config prompt_needle s = (Raise AssertionError, s)).
Proof.
  split.
  - intros s s1 out coms Hst Hsend Hmark Hnot.
    unfold _login, mbind, M_bind, bind, gets, mret, M_ret, ret. cbn beta iota.
    rewrite Hst. rewrite bool_decide_eq_true_2 by done. cbn beta iota.
    rewrite Hsend. cbn beta iota. rewrite Hmark.
    by rewrite bool_decide_eq_false_2 by done.
  - intros s H1 H2.
    unfold _login, mbind, M_bind, bind, gets, mret, M_ret, ret, raise. cbn beta iota.
    rewrite bool_decide_eq_false_2 by done. cbn beta iota.
    by rewrite bool_decide_eq_false_2 by done.
Qed.

(** The switch shows its username prompt again after the username: the state
    stays LoginUsername and [_login] answers [False]. *)
Lemma login_unexpected_state_returns_false_witness :
  let s := Sample.session (Some LOGIN_USERNAME) (Sample.echo_of "admin")
             [["Username: "]] in
  let r := send_cmd Sample.cfg Sample.needle "admin" 1 s in
  state s = Some LOGIN_USERNAME
  ∧ fst r = Ok (["Username: "], [])
  ∧ state (snd r) ≠ Some LOGIN_PASSWORD
  ∧ _login Sample.cfg Sample.needle s = (Ok false, snd r).
Proof.
  intros s r.
  assert (send_cmd Sample.cfg Sample.needle (USER Sample.cfg)
            (READ_TIMEOUT Sample.cfg) s = (Ok (["Username: "], []), snd r)) as Hsend
    by (vm_compute; reflexivity).
  assert (state (snd r) ≠ Some LOGIN_PASSWORD) as Hst by (vm_compute; discriminate).
  split; [reflexivity|]. split; [vm_compute; reflexivity|]. split; [exact Hst|].
  exact (proj1 (login_unexpected_state_returns_false Sample.cfg Sample.needle)
           s (snd r) ["Username: "] [] eq_refl Hsend eq_refl Hst).
Defined.

(** C5 as the specification states it fails: in that very situation the
    result is the value [False], not an assertion failure. *)
Lemma login_unexpected_state_not_fatal :
  let s := Sample.session (Some LOGIN_USERNAME) (Sample.echo_of "admin")
             [["Username: "]] in
  let r := send_cmd Sample.cfg Sample.needle "admin" 1 s in
  state s = Some LOGIN_USERNAME
  ∧ (∃ out coms, fst r = Ok (out, coms)
       ∧ existsb (PyStr.contains "Incorrect User Name") out = false)
  ∧ state (snd r) ≠ Some LOGIN_PASSWORD
  ∧ fst (_login Sample.cfg Sample.needle s) = Ok false
  ∧ fst (_login Sample.cfg Sample.needle s) ≠ Raise AssertionError.
Proof.
  intros s r. split; [reflexivity|]. split.
  { exists ["Username: "], []. split; vm_compute; reflexivity. }
  split; [vm_compute; discriminate|].
  split; [vm_compute; reflexivity | vm_compute; discriminate].
Qed.

(** ** Pagination artifacts (section 4.3) *)

(** C10. In the paging loop of [_recv] the second line of a continuation page
    is read as soon as the first one is the backspace, without a look at the
    length of the page: a page whose output is the backspace line alone makes
    the subscript fail.  The failing branch is reached: a page that holds the
    backspace line and the pager prompt is such a page. *)
Theorem more_magic_second_line_unguarded
    (config : Config) (prompt_needle : _States → string) :
  (∀ s : Sw, strip_more_magic [_MORE_MAGIC_0] s = (Raise IndexError, s))
  ∧ [_MORE_MAGIC_0] !! 1%nat = None
  ∧ (∀ (s s1 : Sw) (fuel : nat) (whole_out all_comments comments : list string),
       state s = Some MORE →
       _recv_once_retry config prompt_needle (snd (sock_write " " s))
         = (Ok ([_MORE_MAGIC_0], comments), s1) →
       _recv_more config prompt_needle (S fuel) true whole_out all_comments s
         = (Raise IndexError, s1))
  ∧ (let s := Sample.session (Some ADMIN_MAIN) []
                [["VLAN table"; "--More--"]; [_MORE_MAGIC_0; "--More--"]] in
     fst (_recv Sample.cfg Sample.needle true 1 s) = Raise IndexError).
Proof.
  split; [done|]. split; [done|]. split; [|vm_compute; reflexivity].
  intros s s1 fuel whole_out all_comments comments Hst Hretry.
  simpl. unfold mbind, M_bind, bind, gets. cbn beta iota.
  rewrite Hst. rewrite bool_decide_eq_true_2 by done. cbn beta iota.
  unfold sock_write, modify in *. cbn beta iota in *. simpl in Hretry.
  by rewrite Hretry.
Qed.

(** The pager answers the space with a page made of the backspace line and
    its own prompt. *)
Lemma more_magic_second_line_unguarded_witness :
  let s := Sample.session (Some MORE) [] [[_MORE_MAGIC_0; "--More--"]] in
  state s = Some MORE
  ∧ fst (_recv_once_retry Sample.cfg Sample.needle (snd (sock_write " " s)))
    = Ok ([_MORE_MAGIC_0], [])
  ∧ fst (_recv_more Sample.cfg Sample.needle 2 true [] [] s) = Raise IndexError.
Proof.
  intros s.
  set (r := _recv_once_retry Sample.cfg Sample.needle (snd (sock_write " " s))).
  assert (r = (Ok ([_MORE_MAGIC_0], []), snd r)) as Hr by (vm_compute; reflexivity).
  split; [reflexivity|]. split; [vm_compute; reflexivity|].
  rewrite (proj1 (proj2 (proj2 (more_magic_second_line_unguarded
             Sample.cfg Sample.needle))) s (snd r) 1%nat [] [] [] eq_refl Hr).
  reflexivity.
Defined.
(** ** Echo verification (section 4.2) *)

(** C6. While a command is sent with the echo checked, the echo expected for a
    sent byte is that byte, except in state LoginPassword when the byte that
    came back differs from it: then, and only then, a star is expected.  So
    an echo is accepted (the counter stays as it was) exactly when it is the
    sent byte, or a star in state LoginPassword; in every other state only the
    sent byte is accepted. *)
Theorem password_echo_masking (config : Config) (s : Sw) (char : ascii) :
  let echo := fst (pending_echo (rx_bytes (sock s))) in
  let s' := snd (check_echo config char s) in
  expected_echo (state s) echo char
    = (if decide (state s = Some LOGIN_PASSWORD ∧ echo ≠ Some char)
       then "*"%char else char)
  ∧ (_bad_echo s' = _bad_echo s
     ↔ echo = Some char ∨ (state s = Some LOGIN_PASSWORD ∧ echo = Some "*"%char))
  ∧ (state s ≠ Some LOGIN_PASSWORD →
     (_bad_echo s' = _bad_echo s ↔ echo = Some char)).
Proof.
  intros echo s'. split; [apply expected_echo_cases|].
  assert (_bad_echo s' = _bad_echo s
          ↔ echo = Some (expected_echo (state s) echo char)) as Hacc.
  { unfold s'. rewrite check_echo_counter. fold echo.
    case_bool_decide; [done|]. split; [lia | done]. }
  rewrite Hacc, echo_accepted_iff. split; [done|]. naive_solver.
Qed.

(** In state LoginPassword a star is accepted for the byte "a"; in state
    UserMain it is counted as a bad echo. *)
Lemma password_echo_masking_witness :
  let masked := Sample.session (Some LOGIN_PASSWORD) [Some "*"%char] [] in
  let plain := Sample.session (Some USER_MAIN) [Some "*"%char] [] in
  _bad_echo (snd (check_echo Sample.cfg "a" masked)) = _bad_echo masked
  ∧ state plain ≠ Some LOGIN_PASSWORD
  ∧ _bad_echo (snd (check_echo Sample.cfg "a" plain)) ≠ _bad_echo plain.
Proof.
  intros masked plain.
  destruct (password_echo_masking Sample.cfg masked "a") as (_ & Hm & _).
  destruct (password_echo_masking Sample.cfg plain "a") as (_ & _ & Hp).
  split; [apply Hm; right; split; reflexivity|].
  split; [discriminate|].
  intros Heq. apply Hp in Heq; [discriminate Heq | discriminate].
Defined.


(** ** Navigation to the admin prompt (section 4.4) *)

(** A true result of [_goto_admin_main_prompt] does mean that the session is
    in state AdminMain. *)
Lemma goto_admin_true_result_sound (config : Config)
    (prompt_needle : _States → string) (s s' : Sw) (v : pyval) :
  _goto_admin_main_prompt config prompt_needle s = (Ok v, s') →
  truthy v = true →
  state s' = Some ADMIN_MAIN.
Proof.
  intros H Htr.
  unfold _goto_admin_main_prompt in H.
  apply bind_ok_inv in H as ([] & s0 & _ & H).
  apply bind_ok_inv in H as (st & s0' & _ & H).
  apply bind_ok_inv in H as ([] & s1 & _ & H).
  apply bind_ok_inv in H as (st1 & s1' & [= <- <-] & H).
  destruct (bool_decide (state s1 = Some ADMIN_MAIN)) eqn:Hadm.
  - injection H as <- <-. by apply bool_decide_eq_true_1 in Hadm.
  - apply bind_ok_inv in H as (res & s2 & _ & H).
    apply bind_ok_inv in H as (st2 & s2' & [= <- <-] & H).
    destruct (truthy res) eqn:Hres.
    + injection H as <- <-. simpl in Htr. by apply bool_decide_eq_true_1 in Htr.
    + injection H as <- <-. congruence.
Qed.

(** C2, evaluated on the code.  The converse of the lemma above fails: from
    UserMain, the switch echoing [enable] and answering with its admin prompt
    alone, the session reaches AdminMain and the result is the empty output
    list of [send_cmd], which is false.  The same holds from More, Config and
    ConfigVlan; from LoginUsername the result is [True].  In all five runs the
    session does reach AdminMain. *)
Theorem goto_admin_main_prompt_result :
  (let s := Sample.session (Some USER_MAIN) (Sample.echo_of "enable") [["sw# "]] in
   let r := _goto_admin_main_prompt Sample.cfg Sample.needle s in
   fst r = Ok (PyList []) ∧ truthy (PyList []) = false
   ∧ state (snd r) = Some ADMIN_MAIN)
  ∧ (let run := λ s, let r := _goto_admin_main_prompt Sample.cfg Sample.needle s in
                     (fst r, state (snd r)) in
     run (Sample.session (Some MORE) [] [["sw# "]])
       = (Ok (PyList []), Some ADMIN_MAIN)
     ∧ run (Sample.session (Some CONFIG) (Sample.echo_of "end") [["sw# "]])
       = (Ok (PyList []), Some ADMIN_MAIN)
     ∧ run (Sample.session (Some CONFIG_VLAN) (Sample.echo_of "end") [["sw# "]])
       = (Ok (PyList []), Some ADMIN_MAIN)
     ∧ run (Sample.session (Some LOGIN_USERNAME)
              (Sample.echo_of "admin" ++ Sample.echo_of "*****")
              [ ["Password: "];
                ["*Jan 13 2000 11:25:20: %System-5: New console connection for user admin, source async  ACCEPTED";
                 "sw# "] ])
       = (Ok (PyBool true), Some ADMIN_MAIN)).
Proof. split; vm_compute; done. Qed.
(** ** Port-range expansion (section 4.6) *)

(** C8. For a port-range text made of comma-separated tokens,
    [_str_to_if_range] returns, in the order of the tokens, exactly what the
    tokens that begin with "gi" contribute: the number [N] for "giN", the
    inclusive interval from [A] to [B] for "giA-B"; a token that does not
    begin with "gi" contributes nothing.  The text of the specification's
    example expands to 4, 6, 8, 9, 10, 16, 17, 18. *)
Theorem str_to_if_range_expansion (toks : list Token) :
  Forall token_ok toks →
  _str_to_if_range (PyStr.join "," (render_token <$> toks))
    = Ok (concat (token_ports <$> toks))
  ∧ _str_to_if_range "gi4,gi6,gi8-10,gi16-18,lag2"
    = Ok [4; 6; 8; 9; 10; 16; 17; 18].
Proof.
  intros Hok. split; [|vm_compute; reflexivity].
  unfold _str_to_if_range.
  destruct (decide (toks = [])) as [->|Hne]; [vm_compute; reflexivity|].
  rewrite split_join_tokens by done. by apply expand_tokens.
Qed.

(** The example of the specification, token by token. *)
Lemma str_to_if_range_expansion_witness :
  let toks := [TSingle 4; TSingle 6; TPair 8 10; TPair 16 18; TOther "lag2"] in
  Forall token_ok toks
  ∧ PyStr.join "," (render_token <$> toks) = "gi4,gi6,gi8-10,gi16-18,lag2"
  ∧ concat (token_ports <$> toks) = [4; 6; 8; 9; 10; 16; 17; 18]
  ∧ _str_to_if_range (PyStr.join "," (render_token <$> toks))
    = Ok (concat (token_ports <$> toks)).
Proof.
  intros toks.
  assert (Forall token_ok toks) as Hok.
  { repeat (apply Forall_cons; split; [simpl; try split; reflexivity|]).
    apply Forall_nil_2. }
  split; [exact Hok|]. split; [vm_compute; reflexivity|].
  split; [vm_compute; reflexivity|].
  exact (proj1 (str_to_if_range_expansion toks Hok)).
Defined.
(** ** Reconciliation (section 4.7) *)



(** C1, as the code has it.  When the wanted VLAN set is the one just parsed
    and the wanted ports agree with the parsed ones wherever both are
    defined, both VLAN differences and the set of changed ports are empty and
    [update_vlan_conf] returns in the very state the query left: after the
    one command [show vlan static] that reads the current configuration,
    nothing is written, no command is sent and no navigation is done. *)
Theorem update_vlan_conf_noop (config : Config) (prompt_needle : _States → string)
    (vlans_new : gset Z) (ports_new : gmap Z PortConf)
    (s s1 : Sw) (vlans_old : gset Z) (ports_old : gmap Z PortConf) :
  _parse_vlans config prompt_needle s = (Ok (vlans_old, ports_old), s1) →
  vlans_new = vlans_old →
  (∀ p, p ∈ dom ports_new → p ∈ dom ports_old → ports_old !! p = ports_new !! p) →
  _set_diff vlans_old vlans_new = (∅, ∅)
  ∧ _dict_diff ports_old ports_new = ∅
  ∧ update_vlan_conf config prompt_needle vlans_new ports_new s = (Ok tt, s1)
  ∧ history s1 = history s ++ ["show vlan static"].
Proof.
  intros Hparse -> Hports.
  pose proof (set_diff_same vlans_old) as Hsd.
  pose proof (dict_diff_agree ports_old ports_new Hports) as Hdd.
  split; [exact Hsd|]. split; [exact Hdd|]. split.
  - unfold update_vlan_conf, mbind, M_bind, bind.
    rewrite Hparse. cbn beta iota. rewrite Hsd, Hdd. done.
  - unfold _parse_vlans, mbind, M_bind, bind in Hparse.
    pose proof (send_cmd_history config prompt_needle "show vlan static"
                  (READ_TIMEOUT config) s) as Hh.
    destruct (send_cmd config prompt_needle "show vlan static"
                (READ_TIMEOUT config) s) as [[[out c]|e] s0]; [|done].
    unfold lift in Hparse. by injection Hparse as _ <-.
Qed.

(** The wanted configuration is the one the table shows. *)
Lemma update_vlan_conf_noop_witness :
  let s := Sample.query_session in
  let p := _parse_vlans Sample.cfg Sample.needle s in
  fst p = Ok (Sample.current_vlans, Sample.current_ports)
  ∧ update_vlan_conf Sample.cfg Sample.needle
      Sample.current_vlans Sample.current_ports s = (Ok tt, snd p)
  ∧ history (snd p) = ["show vlan static"].
Proof.
  intros s p.
  assert (p = (Ok (Sample.current_vlans, Sample.current_ports), snd p)) as Hp
    by (vm_compute; reflexivity).
  destruct (update_vlan_conf_noop Sample.cfg Sample.needle
              Sample.current_vlans Sample.current_ports s (snd p)
              Sample.current_vlans Sample.current_ports Hp eq_refl
              (λ _ _ _, eq_refl))
    as (_ & _ & Hu & Hh).
  split; [by rewrite Hp|]. split; [exact Hu|]. exact Hh.
Defined.

(** C1 as the specification states it fails: with the wanted configuration
    equal to the current one, [update_vlan_conf] still writes to the switch
    and sends one command, the query of the VLAN table. *)
Lemma update_vlan_conf_writes_the_query :
  let s := Sample.query_session in
  let r := update_vlan_conf Sample.cfg Sample.needle
             Sample.current_vlans Sample.current_ports s in
  fst (_parse_vlans Sample.cfg Sample.needle s)
    = Ok (Sample.current_vlans, Sample.current_ports)
  ∧ fst r = Ok tt
  ∧ history s = [] ∧ history (snd r) = ["show vlan static"]
  ∧ events (sock s) = []
  ∧ events (sock (snd r))
    = Write <$> list_ascii_of_string ("show vlan static" +:+ String PyStr.LF "")
  ∧ length (events (sock (snd r))) = 17%nat.
Proof.
  intros s r. repeat split; vm_compute; reflexivity.
Qed.
(** ** Relations kept by the methods, from what their steps keep *)

Ltac keeps_step :=
  first
    [ apply preserves_ret
    | apply preserves_raise
    | apply preserves_gets
    | apply preserves_lift
    | apply preserves_try
    | apply preserves_bind; [.. | intros ?]
    | match goal with
      | |- preserves _ (let '(_, _) := ?x in _) => destruct x
      | |- preserves _ (match ?x with _ => _ end) => destruct x
      | |- preserves _ (if ?b then _ else _) => destruct b
      end ];
  try (first [exact _ | assumption]).

Ltac keeps_with tac :=
  repeat (first
    [ tac
    | match goal with |- PreOrder _ => exact _ end
    | keeps_step ]).

Section Keeps.
Import PyStr.
Variable R : Sw → Sw → Prop.
Context `{!PreOrder R}.
Variable config : Config.
Variable prompt_needle : _States → string.

Hypothesis R_timeout : ∀ t, preserves R (sock_set_timeout t).
Hypothesis R_readlines : preserves R sock_readlines.
Hypothesis R_state : ∀ st s, R s (set_state st s).
Hypothesis R_prompt : ∀ out, preserves R (_parse_prompt prompt_needle out).

Lemma recv_once_keeps : preserves R (_recv_once prompt_needle).
Proof.
  unfold _recv_once.
  keeps_with ltac:(first [ apply R_readlines | apply R_prompt
                         | apply preserves_modify; apply R_state ]).
Qed.

Lemma recv_once_retry_loop_keeps n : preserves R (_recv_once_retry_loop prompt_needle n).
Proof.
  induction n as [|n IH]; simpl.
  - keeps_step.
  - keeps_with ltac:(first [ exact IH | apply recv_once_keeps | apply R_timeout ]).
Qed.

Lemma recv_once_retry_keeps : preserves R (_recv_once_retry config prompt_needle).
Proof. apply recv_once_retry_loop_keeps. Qed.

Hypothesis R_space : preserves R (sock_write " ").

Lemma strip_more_magic_keeps out : preserves R (strip_more_magic out).
Proof. unfold strip_more_magic. keeps_with fail. Qed.

Lemma recv_more_keeps fuel auto_more whole_out all_comments :
  preserves R (_recv_more config prompt_needle fuel auto_more whole_out all_comments).
Proof.
  revert whole_out all_comments.
  induction fuel as [|fuel IH]; intros whole_out all_comments; simpl.
  - keeps_with fail.
  - keeps_with ltac:(first [ apply IH | apply recv_once_retry_keeps
                           | apply strip_more_magic_keeps | apply R_space ]).
Qed.

Lemma recv_keeps auto_more tmo : preserves R (_recv config prompt_needle auto_more tmo).
Proof.
  unfold _recv.
  keeps_with ltac:(first [ apply recv_more_keeps | apply recv_once_retry_keeps
                         | apply R_timeout ]).
Qed.

Hypothesis R_write : ∀ c, preserves R (sock_write c).
Hypothesis R_echo : ∀ c, preserves R (check_echo config c).

Lemma send_chars_keeps str bypass : preserves R (_send_chars config str bypass).
Proof.
  induction str as [|c str IH]; simpl.
  - keeps_step.
  - keeps_with ltac:(first [ exact IH | apply R_echo | apply R_write ]).
Qed.

Lemma send_keeps str bypass auto_more tmo :
  preserves R (_send config prompt_needle str bypass auto_more tmo).
Proof.
  unfold _send.
  keeps_with ltac:(first [ apply send_chars_keeps | apply recv_keeps ]).
Qed.

Hypothesis R_history : ∀ c s, R s (set_history (history s ++ [c]) s).

Lemma send_cmd_keeps cmd tmo : preserves R (send_cmd config prompt_needle cmd tmo).
Proof.
  unfold send_cmd.
  keeps_with ltac:(first [ apply send_keeps
                         | apply preserves_modify; intros ?; apply R_history ]).
Qed.

Lemma login_keeps : preserves R (_login config prompt_needle).
Proof. unfold _login. keeps_with ltac:(apply send_cmd_keeps). Qed.

Hypothesis R_flush : preserves R sock_flushInput.

Lemma goto_admin_main_prompt_keeps :
  preserves R (_goto_admin_main_prompt config prompt_needle).
Proof.
  unfold _goto_admin_main_prompt.
  keeps_with ltac:(first [ apply send_cmd_keeps | apply send_keeps
                         | apply login_keeps | apply R_flush ]).
Qed.

Lemma send_cmd__keeps cmd : preserves R (send_cmd_ config prompt_needle cmd).
Proof. unfold send_cmd_. keeps_with ltac:(apply send_cmd_keeps). Qed.

Lemma parse_vlans_keeps : preserves R (_parse_vlans config prompt_needle).
Proof. unfold _parse_vlans. keeps_with ltac:(apply send_cmd_keeps). Qed.

Lemma configure_port_keeps ports_old ports_new port_id :
  preserves R (configure_port config prompt_needle ports_old ports_new port_id).
Proof. unfold configure_port. keeps_with ltac:(apply send_cmd__keeps). Qed.

Lemma apply_vlan_conf_keeps va vr pc ports_old ports_new :
  preserves R (apply_vlan_conf config prompt_needle va vr pc ports_old ports_new).
Proof.
  unfold apply_vlan_conf.
  keeps_with ltac:(first [ apply send_cmd__keeps
                         | apply configure_port_keeps
                         | apply preserves_for_each; [exact _ | intros ?] ]).
Qed.

Lemma update_vlan_conf_keeps vlans_new ports_new :
  preserves R (update_vlan_conf config prompt_needle vlans_new ports_new).
Proof.
  unfold update_vlan_conf.
  keeps_with ltac:(first [ apply parse_vlans_keeps
                         | apply goto_admin_main_prompt_keeps
                         | apply apply_vlan_conf_keeps ]).
Qed.

End Keeps.
(** ** What the receiving side touches *)

#[global] Instance hostname_kept_preorder : PreOrder hostname_kept.
Proof.
  split; [by intros s h ? ?|].
  intros a b c Hab Hbc h Ha Hne. apply Hbc; [|done]. by apply Hab.
Qed.

#[global] Instance reads_only_preorder : PreOrder reads_only.
Proof.
  split; [done|].
  intros a b c (H1 & H2 & H3 & H4) (H5 & H6 & H7 & H8).
  unfold reads_only. by rewrite H5, H6, H7, H8.
Qed.

#[global] Instance writes_spaces_preorder : PreOrder writes_spaces.
Proof.
  split.
  - intros s. split; [|done]. exists 0%nat. simpl. by rewrite app_nil_r.
  - intros a b c ([n Hn] & H2 & H3 & H4) ([m Hm] & H6 & H7 & H8).
    split; [|by rewrite H6, H7, H8].
    exists (n + m)%nat. by rewrite Hm, Hn, replicate_add, app_assoc.
Qed.

Section Footprint.
Import PyStr.
Variable config : Config.
Variable prompt_needle : _States → string.

Lemma parse_prompt_empty (s : Sw) :
  _parse_prompt prompt_needle [] s = (Raise IndexError, s).
Proof. done. Qed.

(** [_parse_prompt] changes the hostname at most. *)
Lemma parse_prompt_keeps (R : Sw → Sw → Prop) `{!PreOrder R} (out : list string) :
  (∀ h s, R s (set_hostname h s)) → preserves R (_parse_prompt prompt_needle out).
Proof.
  intros Hh s. destruct out as [|l out].
  - rewrite parse_prompt_empty. simpl. reflexivity.
  - destruct (parse_prompt_returns prompt_needle (l :: out) s) as (st & out' & hn & ->);
      [done|].
    simpl. apply Hh.
Qed.

Lemma parse_prompt_hostname_kept (out : list string) :
  preserves hostname_kept (_parse_prompt prompt_needle out).
Proof.
  intros s h Hh Hne. destruct out as [|l0 out]; [done|].
  destruct (exists_last (l:=l0 :: out)) as (pre & l & ->); [done|].
  rewrite parse_prompt_spec. rewrite Hh. unfold classify_spec.
  destruct h as [|c h]; [done|].
  repeat (destruct (startswith l (prompt_needle _)); [done|]).
  by destruct (classify_hostname_spec _ _ _).
Qed.

Lemma written_app (s : Sw) (evs : list Event) (f : Serial → Serial) :
  events (f (sock s)) = events (sock s) ++ evs →
  written (set_sock f s) =
    written s ++ omap (λ e, match e with Write c => Some c | FlushInput => None end) evs.
Proof. intros H. unfold written. simpl. by rewrite H, omap_app. Qed.

Lemma reads_only_recv_once_retry :
  preserves reads_only (_recv_once_retry config prompt_needle).
Proof.
  apply recv_once_retry_keeps; try exact _; try done.
  - intros s. unfold sock_readlines. by destruct (rx_lines (sock s)).
  - intros out. apply parse_prompt_keeps; [exact _|]. intros h s. by repeat split.
Qed.

Lemma writes_spaces_quiet (s s' : Sw) :
  written s' = written s → rx_bytes (sock s') = rx_bytes (sock s) →
  _bad_echo s' = _bad_echo s → history s' = history s →
  writes_spaces s s'.
Proof.
  intros H1 H2 H3 H4. split; [|done]. exists 0%nat. simpl. by rewrite app_nil_r.
Qed.

Lemma writes_spaces_recv auto_more tmo :
  preserves writes_spaces (_recv config prompt_needle auto_more tmo).
Proof.
  apply recv_keeps; try exact _.
  - intros t s. by apply writes_spaces_quiet.
  - intros s. unfold sock_readlines.
    destruct (rx_lines (sock s)); by apply writes_spaces_quiet.
  - intros st s. by apply writes_spaces_quiet.
  - intros out. apply parse_prompt_keeps; [exact _|]. intros h s.
    by apply writes_spaces_quiet.
  - intros s. split; [|done]. exists 1%nat. simpl.
    unfold written. simpl. by rewrite omap_app.
Qed.

(** What the echo check leaves alone. *)
Lemma check_echo_footprint (char : ascii) (s : Sw) :
  let s' := snd (check_echo config char s) in
  state s' = state s ∧ hostname s' = hostname s ∧ history s' = history s
  ∧ written s' = written s
  ∧ rx_lines (sock s') = rx_lines (sock s)
  ∧ timeout (sock s') = timeout (sock s).
Proof.
  rewrite check_echo_spec. destruct (pending_echo _) as [e rest]. simpl.
  case_bool_decide; simpl; [done|].
  destruct e; simpl; [|done].
  repeat split; try done. unfold written. simpl. rewrite omap_app. simpl.
  by rewrite app_nil_r.
Qed.

Lemma hostname_kept_check_echo (char : ascii) :
  preserves hostname_kept (check_echo config char).
Proof.
  intros s h Hh _. destruct (check_echo_footprint char s) as (_ & -> & _). done.
Qed.

Lemma hostname_kept_all :
  (∀ auto_more tmo, preserves hostname_kept (_recv config prompt_needle auto_more tmo))
  ∧ (∀ cmd tmo, preserves hostname_kept (send_cmd config prompt_needle cmd tmo))
  ∧ preserves hostname_kept (_login config prompt_needle)
  ∧ preserves hostname_kept (_goto_admin_main_prompt config prompt_needle)
  ∧ (∀ vlans_new ports_new,
       preserves hostname_kept (update_vlan_conf config prompt_needle vlans_new ports_new)).
Proof.
  assert (∀ t, preserves hostname_kept (sock_set_timeout t)) as H1 by (by intros t s h ? ?).
  assert (preserves hostname_kept sock_readlines) as H2.
  { intros s h ? ?. unfold sock_readlines. by destruct (rx_lines (sock s)). }
  assert (∀ st s, hostname_kept s (set_state st s)) as H3 by (by intros st s h ? ?).
  pose proof parse_prompt_hostname_kept as H4.
  assert (∀ c, preserves hostname_kept (sock_write c)) as H5 by (by intros c s h ? ?).
  pose proof hostname_kept_check_echo as H6.
  assert (∀ c s, hostname_kept s (set_history (history s ++ [c]) s)) as H7
    by (by intros c s h ? ?).
  assert (preserves hostname_kept sock_flushInput) as H8 by (by intros s h ? ?).
  split; [|split; [|split; [|split]]]; intros.
  - apply recv_keeps; auto; exact _.
  - apply send_cmd_keeps; auto; exact _.
  - apply login_keeps; auto; exact _.
  - apply goto_admin_main_prompt_keeps; auto; exact _.
  - apply update_vlan_conf_keeps; auto; exact _.
Qed.

End Footprint.
(** ** Retries and timeouts *)

Section Retry.
Import PyStr.
Variable config : Config.
Variable prompt_needle : _States → string.

Lemma after_timeouts_0 (s : Sw) : after_timeouts 0 s = s.
Proof.
  destruct s as [[t b l ev] st hn bad hist]. unfold after_timeouts, set_sock. simpl.
  by rewrite Z.mul_1_r.
Qed.

Lemma after_timeouts_S (k : nat) (s : Sw) :
  after_timeouts k (after_timeouts 1 s) = after_timeouts (S k) s.
Proof.
  destruct s as [[t b l ev] st hn bad hist]. unfold after_timeouts, set_sock. simpl.
  f_equal. f_equal.
  - rewrite <- Z.mul_assoc. f_equal.
    change (Z.pow_pos 2 1) with (2 ^ 1). rewrite <- Z.pow_add_r by lia. f_equal. lia.
  - by rewrite drop_drop.
Qed.

Lemma blank_next_block (k : nat) (s : Sw) :
  Forall (λ b, blank b = true) (take (S k) (rx_lines (sock s))) →
  blank (next_block s) = true
  ∧ Forall (λ b, blank b = true) (take k (rx_lines (sock (after_timeouts 1 s)))).
Proof.
  unfold next_block. simpl. destruct (rx_lines (sock s)) as [|b rest]; simpl.
  - intros _. split; [done|]. by rewrite take_nil.
  - intros [Hb Hrest]%Forall_cons. split; [done|]. by rewrite ?drop_0.
Qed.

(** A read that leaves nothing: the block is gone and the timeout raised. *)
Lemma recv_once_blank (s : Sw) :
  blank (next_block s) = true →
  _recv_once prompt_needle s
    = (Raise SerialTimeoutException,
       set_sock (λ p, mkSerial (timeout p) (rx_bytes p) (drop 1 (rx_lines p)) (events p)) s).
Proof.
  destruct s as [[t b l ev] st hn bad hist].
  unfold next_block, blank, _recv_once, mbind, M_bind, bind, sock_readlines. simpl.
  destruct l as [|blk rest]; simpl; [done|].
  destruct (_filter_lines blk []) as [ls coms]. simpl. intros ->. by rewrite ?drop_0.
Qed.

(** A read that leaves something returns. *)
Lemma recv_once_not_blank (s : Sw) :
  blank (next_block s) = false →
  ∃ r s', _recv_once prompt_needle s = (Ok r, s').
Proof.
  unfold next_block, blank, _recv_once, mbind, M_bind. unfold bind at 1.
  unfold sock_readlines.
  destruct (rx_lines (sock s)) as [|blk rest]; simpl; [done|].
  destruct (_filter_lines blk []) as [ls coms]. simpl. intros Hb. rewrite Hb.
  apply bool_decide_eq_false_1 in Hb. unfold bind.
  match goal with |- context [_parse_prompt _ _ ?s0] =>
    destruct (parse_prompt_returns prompt_needle (filter_None ls) s0 Hb)
      as (st & out' & hn & Hp) end.
  rewrite Hp. simpl. eauto.
Qed.

Lemma retry_loop_step_blank (n : nat) (s : Sw) :
  blank (next_block s) = true →
  _recv_once_retry_loop prompt_needle (S n) s
    = _recv_once_retry_loop prompt_needle n (after_timeouts 1 s).
Proof.
  intros Hb. cbn [_recv_once_retry_loop]. unfold try_except.
  rewrite (recv_once_blank s Hb). rewrite decide_True by done.
  unfold mbind, M_bind, bind, gets, sock_set_timeout, modify. simpl.
  f_equal.
Qed.

Lemma retry_loop_step_not_blank (n : nat) (s : Sw) :
  blank (next_block s) = false →
  _recv_once_retry_loop prompt_needle (S n) s = _recv_once prompt_needle s.
Proof.
  intros Hb. cbn [_recv_once_retry_loop]. unfold try_except.
  destruct (recv_once_not_blank s Hb) as (r & s' & ->). done.
Qed.

Lemma retry_loop_skip (k n : nat) (s : Sw) :
  Forall (λ b, blank b = true) (take k (rx_lines (sock s))) →
  _recv_once_retry_loop prompt_needle (k + n) s
    = _recv_once_retry_loop prompt_needle n (after_timeouts k s).
Proof.
  revert s. induction k as [|k IH]; intros s Hk.
  - by rewrite after_timeouts_0.
  - apply blank_next_block in Hk as [Hb Hrest].
    change (S k + n)%nat with (S (k + n)).
    rewrite (retry_loop_step_blank _ _ Hb), (IH _ Hrest). by rewrite after_timeouts_S.
Qed.

(** The two ways [_recv_once_retry_loop] ends. *)
Lemma retry_loop_cases (n : nat) (s : Sw) :
  (∃ k, (k < n)%nat
        ∧ Forall (λ b, blank b = true) (take k (rx_lines (sock s)))
        ∧ blank (next_block (after_timeouts k s)) = false
        ∧ _recv_once_retry_loop prompt_needle n s
          = _recv_once prompt_needle (after_timeouts k s))
  ∨ (Forall (λ b, blank b = true) (take n (rx_lines (sock s)))
     ∧ _recv_once_retry_loop prompt_needle n s
       = (Raise SerialTimeoutException, after_timeouts n s)).
Proof.
  revert s. induction n as [|n IH]; intros s.
  - right. split; [by rewrite take_0|]. by rewrite after_timeouts_0.
  - destruct (blank (next_block s)) eqn:Hb.
    + rewrite (retry_loop_step_blank _ _ Hb).
      assert (Forall (λ b, blank b = true) (take 1 (rx_lines (sock s)))) as H1.
      { revert Hb. unfold next_block. destruct (rx_lines (sock s)); simpl; [done|].
        rewrite ?take_0. by repeat constructor. }
      assert (∀ k, Forall (λ b, blank b = true)
                     (take k (rx_lines (sock (after_timeouts 1 s)))) →
                   Forall (λ b, blank b = true) (take (S k) (rx_lines (sock s)))) as Hext.
      { intros k Hk. simpl in Hk. destruct (rx_lines (sock s)) as [|b rest] eqn:E; [done|].
        simpl in *. rewrite ?drop_0 in Hk. rewrite ?take_0 in H1.
        apply Forall_cons. split; [|done]. by apply Forall_cons in H1 as [? _]. }
      destruct (IH (after_timeouts 1 s)) as [(k & Hlt & Hk & Hnb & Heq)|[Hall Heq]].
      * left. exists (S k). rewrite after_timeouts_S in Hnb, Heq.
        split; [lia|]. split; [by apply Hext|]. done.
      * right. rewrite after_timeouts_S in Heq. split; [by apply Hext | done].
    + left. exists 0%nat. rewrite after_timeouts_0.
      split; [lia|]. split; [by rewrite take_0|]. split; [done|].
      by apply retry_loop_step_not_blank.
Qed.

(** The only way [_recv_once_retry] fails: every attempt timed out. *)
Lemma recv_once_retry_fails (s : Sw) (e : exn) :
  fst (_recv_once_retry config prompt_needle s) = Raise e →
  e = SerialTimeoutException
  ∧ snd (_recv_once_retry config prompt_needle s)
    = after_timeouts (Z.to_nat (READ_RETRIES config)) s
  ∧ Forall (λ b, blank b = true)
           (take (Z.to_nat (READ_RETRIES config)) (rx_lines (sock s))).
Proof.
  unfold _recv_once_retry. intros He.
  destruct (retry_loop_cases (Z.to_nat (READ_RETRIES config)) s)
    as [(j & Hlt & Hj & Hnb & Heq)|[Hall Heq]].
  - rewrite Heq in He. destruct (recv_once_not_blank _ Hnb) as (r & s' & Hr).
    by rewrite Hr in He.
  - rewrite Heq in He |- *. simpl in *. by injection He as <-.
Qed.

(** [_recv] without the pager logic is one retried read between two
    assignments of the timeout. *)
Lemma recv_single_page_eq (tmo : Z) (s : Sw) :
  _recv config prompt_needle false tmo s =
    match _recv_once_retry config prompt_needle (with_timeout tmo s) with
    | (Ok r, s1) => (Ok r, with_timeout (READ_TIMEOUT config) s1)
    | (Raise e, s1) => (Raise e, s1)
    end.
Proof.
  unfold _recv, mbind, M_bind, bind, sock_set_timeout, modify, gets.
  cbn -[_recv_more _recv_once_retry].
  change (set_sock _ s) with (with_timeout tmo s).
  destruct (_recv_once_retry config prompt_needle (with_timeout tmo s))
    as [[[whole_out all_comments]|e] s1]; [|done].
  done.
Qed.


End Retry.
(** ** Sending *)

Section Sending.
Import PyStr.
Variable config : Config.
Variable prompt_needle : _States → string.

Lemma wrote_empty (s : Sw) : wrote "" s = s.
Proof.
  destruct s as [[t b l ev] st hn bad hist]. unfold wrote, set_sock. simpl.
  by rewrite app_nil_r.
Qed.

Lemma wrote_cons (c : ascii) (str : string) (s : Sw) :
  wrote str (snd (sock_write c s)) = wrote (String c str) s.
Proof.
  destruct s as [[t b l ev] st hn bad hist]. unfold wrote, set_sock. simpl.
  by rewrite <- app_assoc.
Qed.

Lemma send_chars_bypass (str : string) (s : Sw) :
  _send_chars config str true s = (Ok tt, wrote str s).
Proof.
  revert s. induction str as [|c str IH]; intros s.
  - by rewrite wrote_empty.
  - cbn [_send_chars]. unfold mbind, M_bind, bind. cbn [sock_write modify].
    rewrite <- wrote_cons. apply IH.
Qed.

Lemma omap_write (l : list ascii) :
  omap (λ e, match e with Write c => Some c | FlushInput => None end) (Write <$> l) = l.
Proof. induction l as [|c l IH]; [done|]. cbn. by f_equal. Qed.

Lemma written_wrote (str : string) (s : Sw) :
  written (wrote str s) = written s ++ list_ascii_of_string str.
Proof. unfold written, wrote. cbn [sock set_sock events]. by rewrite omap_app, omap_write. Qed.

(** The bytes the checked loop of [_send] writes: the string, or the part of
    it before the failure. *)
Lemma send_chars_written (str : string) (s : Sw) :
  let r := _send_chars config str false s in
  ∃ k, written (snd r) = written s ++ k
       ∧ k `prefix_of` list_ascii_of_string str
       ∧ (fst r = Ok tt → k = list_ascii_of_string str).
Proof.
  revert s. induction str as [|c str IH]; intros s.
  - exists []. simpl. rewrite app_nil_r. done.
  - cbn [_send_chars]. unfold mbind, M_bind, bind. cbn [sock_write modify].
    set (s0 := set_sock _ s).
    assert (written s0 = written s ++ [c]) as Hw0.
    { unfold written, s0. simpl. by rewrite omap_app. }
    pose proof (check_echo_footprint config c s0) as (_ & _ & _ & Hw1 & _).
    destruct (check_echo config c s0) as [[[]|e] s1]; cbn [fst snd] in *.
    + destruct (IH s1) as (k & Hk & Hp & Hok).
      exists (c :: k). rewrite Hk, Hw1, Hw0, <- app_assoc. split; [done|].
      split; [by apply prefix_cons|]. intros H. by rewrite Hok.
    + exists [c]. rewrite Hw1, Hw0. split; [done|]. split; [|done].
      apply prefix_cons, prefix_nil.
Qed.

(** The pager loop ends only out of state [MORE]. *)
Lemma recv_more_state (fuel : nat) (whole_out all_comments : list string)
    (s s' : Sw) (r : list string * list string) :
  _recv_more config prompt_needle fuel true whole_out all_comments s = (Ok r, s') →
  state s' ≠ Some MORE.
Proof.
  revert whole_out all_comments s.
  induction fuel as [|fuel IH]; intros whole_out all_comments s;
    cbn [_recv_more]; unfold mbind, M_bind, bind, gets; cbn beta iota;
    case_bool_decide as Hst; cbn [andb].
  - done.
  - by intros [= _ <-].
  - unfold sock_write, modify. cbn beta iota.
    destruct (_recv_once_retry config prompt_needle _) as [[[out comments]|e] s1];
      [|done].
    destruct (strip_more_magic out s1) as [[out'|e] s2]; [|done].
    apply IH.
  - by intros [= _ <-].
Qed.

Lemma recv_state (tmo : Z) (s s' : Sw) (r : list string * list string) :
  _recv config prompt_needle true tmo s = (Ok r, s') → state s' ≠ Some MORE.
Proof.
  unfold _recv. intros H.
  apply bind_ok_inv in H as ([] & s0 & _ & H).
  apply bind_ok_inv in H as ([wo ac] & s1 & _ & H).
  apply bind_ok_inv in H as ([] & s2 & _ & H).
  apply bind_ok_inv in H as (fuel & s3 & _ & H).
  by eapply recv_more_state.
Qed.

Lemma send_cmd_inv (cmd : string) (tmo : Z) (s s' : Sw) (r : list string * list string) :
  send_cmd config prompt_needle cmd tmo s = (Ok r, s') →
  ∃ s1, _send_chars config (cmd +:+ String LF "") false
          (set_history (history s ++ [cmd]) s) = (Ok tt, s1)
        ∧ _recv config prompt_needle true tmo s1 = (Ok r, s').
Proof.
  unfold send_cmd, _send. intros H.
  apply bind_ok_inv in H as ([] & s0 & [= <-] & H).
  apply bind_ok_inv in H as ([] & s1 & Hc & H). eauto.
Qed.

End Sending.
(** ** The pager loop and the echo of a command *)

Section Pager.
Import PyStr.
Variable config : Config.
Variable prompt_needle : _States → string.

Lemma strip_more_magic_raises (out : list string) (s : Sw) (e : exn) :
  fst (strip_more_magic out s) = Raise e → e = IndexError.
Proof.
  unfold strip_more_magic.
  destruct (out !! 0%nat) as [l0|]; [|by intros [= <-]].
  destruct (String.eqb l0 _MORE_MAGIC_0); [|done].
  destruct (out !! 1%nat) as [l1|]; [|by intros [= <-]].
  by destruct (startswith l1 _MORE_MAGIC_1).
Qed.

(** Every further page costs one space and at least one block. *)
Lemma recv_more_pages (fuel : nat) (auto_more : bool)
    (whole_out all_comments : list string) (s : Sw) :
  let r := _recv_more config prompt_needle fuel auto_more whole_out all_comments s in
  (∀ x, fst r = Ok x →
     ∃ n : nat, written (snd r) = written s ++ replicate n " "%char
                ∧ (n + length (rx_lines (sock (snd r))) ≤ length (rx_lines (sock s)))%nat)
  ∧ (∀ e, fst r = Raise e →
       e = SerialTimeoutException ∨ e = IndexError ∨ e = NonTermination).
Proof.
  revert whole_out all_comments s.
  induction fuel as [|fuel IH]; intros whole_out all_comments s;
    cbn [_recv_more]; unfold mbind, M_bind, bind, gets; cbn beta iota;
    destruct (auto_more && bool_decide (state s = Some MORE)).
  - split; [done|]. intros e [= <-]. auto.
  - split; [|done]. intros x _. exists 0%nat. simpl. by rewrite app_nil_r.
  - unfold sock_write, modify. cbn beta iota.
    set (s0 := set_sock _ s).
    assert (written s0 = written s ++ [" "%char]) as Hw0.
    { unfold written, s0. simpl. by rewrite omap_app. }
    assert (rx_lines (sock s0) = rx_lines (sock s)) as Hl0 by done.
    pose proof (reads_only_recv_once_retry config prompt_needle s0) as (Hev & _).
    pose proof (recv_once_retry_fails config prompt_needle s0) as Hfail.
    destruct (_recv_once_retry config prompt_needle s0) as [[[out comments]|e] s1] eqn:Hr;
      cbn [fst snd] in *.
    + apply recv_once_retry_loop_consumes in Hr. rewrite Hl0 in Hr.
      pose proof (strip_more_magic_state out s1) as Hst.
      pose proof (strip_more_magic_raises out s1) as Hse.
      destruct (strip_more_magic out s1) as [[out'|e] s2]; cbn [fst snd] in *.
      * rewrite (Hst _ _ eq_refl).
        destruct (IH (whole_out ++ out') (all_comments ++ comments) s1) as [Hok Hraise].
        split; [|exact Hraise].
        intros x Hx. destruct (Hok x Hx) as (n & Hn & Hlen).
        exists (S n). split; [|lia].
        assert (written s1 = written s0) as Hw1 by (unfold written; by rewrite Hev).
        by rewrite Hn, Hw1, Hw0, <- app_assoc.
      * split; [done|]. intros e' [= <-]. right. left. by apply Hse.
    + split; [done|]. intros e' [= <-]. left. by destruct (Hfail e eq_refl).
  - split; [|done]. intros x _. exists 0%nat. simpl. by rewrite app_nil_r.
Qed.

Lemma recv_pages (auto_more : bool) (tmo : Z) (s : Sw) :
  let r := _recv config prompt_needle auto_more tmo s in
  (∀ x, fst r = Ok x →
     ∃ n : nat, written (snd r) = written s ++ replicate n " "%char
                ∧ (n + 1 + length (rx_lines (sock (snd r)))
                   ≤ length (rx_lines (sock s)))%nat)
  ∧ (∀ e, fst r = Raise e → e = SerialTimeoutException ∨ e = IndexError).
Proof.
  unfold _recv, mbind, M_bind, bind, sock_set_timeout, modify, gets.
  cbn -[_recv_more _recv_once_retry].
  change (set_sock _ s) with (with_timeout tmo s).
  pose proof (reads_only_recv_once_retry config prompt_needle (with_timeout tmo s))
    as (Hev & _).
  pose proof (recv_once_retry_fails config prompt_needle (with_timeout tmo s)) as Hfail.
  destruct (_recv_once_retry config prompt_needle (with_timeout tmo s))
    as [[[whole_out all_comments]|e] s1] eqn:Hr; cbn -[_recv_more] in *.
  - apply recv_once_retry_loop_consumes in Hr. simpl in Hr.
    match goal with |- context [_recv_more _ _ ?f _ _ _ ?s2] =>
      pose proof (recv_more_pages f auto_more whole_out all_comments s2) as [Hok Hraise];
      pose proof (recv_more_raises config prompt_needle (λ e, e ≠ NonTermination)
                    ltac:(done) ltac:(done) ltac:(done)
                    f auto_more whole_out all_comments s2) as Hfuel
    end.
    split.
    + intros x Hx. destruct (Hok x Hx) as (n & Hn & Hlen). exists n.
      split; [|cbn [rx_lines sock set_sock] in Hlen; lia].
      rewrite Hn. unfold written. simpl. by rewrite Hev.
    + intros e He. destruct (Hraise e He) as [?|[?| ->]]; auto.
      exfalso. apply (Hfuel NonTermination); [simpl; lia | exact He | done].
  - split; [done|]. intros e' [= <-]. left. by destruct (Hfail e eq_refl).
Qed.

(** The echo check on the byte it expects. *)
Lemma check_echo_accepts (c e : ascii) (rest : list (option ascii)) (s : Sw) :
  rx_bytes (sock s) = Some e :: rest → e ≠ CR →
  e = c ∨ (e = "*"%char ∧ state s = Some LOGIN_PASSWORD) →
  check_echo config c s = (Ok tt, with_rx_bytes rest s).
Proof.
  intros Hrx Hcr Hok. rewrite check_echo_spec, Hrx. unfold pending_echo.
  rewrite bool_decide_eq_false_2 by done.
  rewrite bool_decide_eq_true_2; [done|].
  apply echo_accepted_iff. destruct Hok as [->|[-> ?]]; auto.
Qed.

Lemma check_echo_accepts_line_feed (rest : list (option ascii)) (s : Sw) :
  rx_bytes (sock s) = Some CR :: Some LF :: rest →
  check_echo config LF s = (Ok tt, with_rx_bytes rest s).
Proof.
  intros Hrx. rewrite check_echo_spec, Hrx. unfold pending_echo.
  rewrite bool_decide_eq_true_2 by done.
  rewrite bool_decide_eq_true_2; [done|].
  apply echo_accepted_iff. by left.
Qed.

Lemma wrote_step (c : ascii) (str : string) (x rest : list (option ascii)) (s : Sw) :
  with_rx_bytes rest (wrote str (with_rx_bytes x (snd (sock_write c s))))
  = with_rx_bytes rest (wrote (String c str) s).
Proof.
  destruct s as [[t b l ev] st hn bad hist].
  unfold with_rx_bytes, wrote, set_sock. simpl. by rewrite <- app_assoc.
Qed.

Lemma send_chars_good_echo (cmd : string) (echo rest : list (option ascii)) (s : Sw) :
  (echo = echo_bytes cmd ∧ all_chars (λ c, negb (Ascii.eqb c CR)) cmd = true)
  ∨ (echo = masked_echo_bytes cmd ∧ state s = Some LOGIN_PASSWORD) →
  rx_bytes (sock s) = echo ++ rest →
  _send_chars config (cmd +:+ String LF "") false s
    = (Ok tt, with_rx_bytes rest (wrote (cmd +:+ String LF "") s)).
Proof.
  revert echo s. induction cmd as [|c cmd IH]; intros echo s Hecho Hrx.
  - assert (echo = [Some CR; Some LF]) as -> by (by destruct Hecho as [[-> _]|[-> _]]).
    change ("" +:+ String LF "") with (String LF "").
    cbn [_send_chars]. unfold mbind, M_bind, bind. cbn [sock_write modify].
    by rewrite (check_echo_accepts_line_feed rest) by exact Hrx.
  - change (String c cmd +:+ String LF "") with (String c (cmd +:+ String LF "")).
    cbn [_send_chars]. unfold mbind, M_bind, bind. cbn [sock_write modify].
    destruct Hecho as [[-> Hcr]|[-> Hst]].
    + cbn [all_chars] in Hcr. apply andb_prop in Hcr as [Hc Hcmd].
      apply negb_true_iff, Ascii.eqb_neq in Hc.
      rewrite (check_echo_accepts c c (echo_bytes cmd ++ rest)); [|exact Hrx|done|by left].
      rewrite (IH (echo_bytes cmd)); [|by left|done].
      f_equal. apply wrote_step.
    + rewrite (check_echo_accepts c "*" (masked_echo_bytes cmd ++ rest));
        [|exact Hrx|done|by right].
      rewrite (IH (masked_echo_bytes cmd)); [|by right|done].
      f_equal. apply wrote_step.
Qed.

End Pager.
(** ** Comments *)

Section Comments.
Import PyStr Regex.

Lemma take_drop_str (n : nat) (s : string) : take_str n s +:+ drop_str n s = s.
Proof.
  revert s. induction n as [|n IH]; intros s; [done|].
  destruct s as [|c s]; [done|].
  change (String c (take_str n s +:+ drop_str n s) = String c s).
  f_equal. apply IH.
Qed.

Lemma startswith_app (s t x : string) :
  startswith s x = true → startswith (s +:+ t) x = true.
Proof.
  unfold startswith. revert s. induction x as [|a x IH]; intros s.
  - intros _. by destruct (s +:+ t).
  - destruct s as [|b s]; [done|].
    change (String b s +:+ t) with (String b (s +:+ t)). simpl.
    destruct (ascii_dec a b); [apply IH | done].
Qed.

Lemma startswith_length (s x : string) :
  startswith s x = true → (String.length x ≤ String.length s)%nat.
Proof.
  unfold startswith. revert s. induction x as [|a x IH]; intros s; [simpl; lia|].
  destruct s as [|b s]; simpl; [done|].
  destruct (ascii_dec a b); [|done]. intros H%IH. lia.
Qed.

Lemma drop_str_app (n : nat) (s t : string) :
  (n ≤ String.length s)%nat → drop_str n (s +:+ t) = drop_str n s +:+ t.
Proof.
  revert s. induction n as [|n IH]; intros s; [done|].
  destruct s as [|c s]; simpl; [lia|]. intros H. apply IH. lia.
Qed.

Lemma colon_space_app (s t : string) :
  colon_space s = true → colon_space (s +:+ t) = true.
Proof.
  induction s as [|c s IH]; [done|].
  change (String c s +:+ t) with (String c (s +:+ t)). cbn [colon_space].
  intros [[H1 H2]%andb_prop|[H1 H2]%andb_prop]%orb_prop.
  - by rewrite H1, (startswith_app _ t _ H2).
  - by rewrite H1, (IH H2), orb_true_r.
Qed.

Lemma comment_tail_app (s t : string) :
  comment_tail s = true → comment_tail (s +:+ t) = true.
Proof.
  induction s as [|c s IH]; [done|].
  change (String c s +:+ t) with (String c (s +:+ t)). cbn [comment_tail].
  intros [[[H1 H2]%andb_prop H3]%andb_prop|[H1 H2]%andb_prop]%orb_prop.
  - rewrite H1, (startswith_app _ t _ H2).
    rewrite drop_str_app by apply (startswith_length _ _ H2).
    by rewrite (colon_space_app _ t H3).
  - by rewrite H1, (IH H2), orb_true_r.
Qed.

Lemma until_lf_id (s : string) :
  all_chars (λ c, negb (Ascii.eqb c LF)) s = true → until_lf s = s.
Proof.
  induction s as [|c s IH]; simpl; [done|].
  intros [Hc Hs]%andb_prop. apply negb_true_iff in Hc. by rewrite Hc, IH.
Qed.

Lemma startswith_star (x : string) : startswith (String "*" x) "*" = true.
Proof. unfold startswith. simpl. by destruct x. Qed.

(** The match starts with the star. *)
Lemma comment_search_star (l : string) (i : nat) (m : string) :
  comment_search l = Some (i, m) → startswith m "*" = true.
Proof.
  revert i m. induction l as [|c l IH]; intros i m; simpl; [done|].
  destruct (Ascii.eqb c "*" && comment_tail l) eqn:Hc.
  - intros [= <- <-]. apply andb_prop in Hc as [->%Ascii.eqb_eq _].
    apply startswith_star.
  - destruct (comment_search l) as [[j m']|]; [|done]. intros [= <- <-]. by eapply IH.
Qed.

(** On a line without a line feed the match runs to the end of the line. *)
Lemma comment_search_split (l : string) (i : nat) (m : string) :
  all_chars (λ c, negb (Ascii.eqb c LF)) l = true →
  comment_search l = Some (i, m) → l = take_str i l +:+ m.
Proof.
  revert i m. induction l as [|c l IH]; intros i m; simpl; [done|].
  intros [Hc Hl]%andb_prop.
  destruct (Ascii.eqb c "*" && comment_tail l).
  - intros [= <- <-]. simpl. by rewrite until_lf_id.
  - destruct (comment_search l) as [[j m']|] eqn:Hs; [|done]. intros [= <- <-].
    change (String c l = String c (take_str j l +:+ m')). f_equal. by apply IH.
Qed.

(** Nothing before the leftmost match is a match. *)
Lemma comment_search_take (l : string) (i : nat) (m : string) :
  comment_search l = Some (i, m) → comment_search (take_str i l) = None.
Proof.
  revert i m. induction l as [|c l IH]; intros i m; simpl; [done|].
  destruct (Ascii.eqb c "*" && comment_tail l) eqn:Hc.
  - by intros [= <- <-].
  - destruct (comment_search l) as [[j m']|] eqn:Hs; [|done]. intros [= <- <-].
    simpl. rewrite (IH j m' eq_refl).
    destruct (Ascii.eqb c "*" && comment_tail (take_str j l)) eqn:Hc'; [|done].
    apply andb_prop in Hc' as [H1 H2].
    apply (comment_tail_app _ (drop_str j l)) in H2. rewrite take_drop_str in H2.
    by rewrite H1, H2 in Hc.
Qed.

(** A line without a match has none in any of its ends. *)
Lemma comment_search_drop (n : nat) (l : string) :
  comment_search l = None → comment_search (drop_str n l) = None.
Proof.
  revert l. induction n as [|n IH]; intros l; [done|].
  destruct l as [|c l]; simpl; [done|].
  destruct (Ascii.eqb c "*" && comment_tail l); [done|].
  destruct (comment_search l) as [[j m']|] eqn:Hs; [done|]. intros _. by apply IH.
Qed.

Lemma line_text_no_comment (l : string) : no_comment (line_text l).
Proof.
  unfold no_comment, line_text.
  destruct (comment_search l) as [[i m]|] eqn:Hs; [|done].
  by eapply comment_search_take.
Qed.

Lemma line_comment_star (l c : string) :
  line_comment l = Some c → startswith c "*" = true.
Proof.
  unfold line_comment. destruct (comment_search l) as [[i m]|] eqn:Hs; [|done].
  intros [= <-]. by eapply comment_search_star.
Qed.

Lemma Forall_List_filter {A} (P : A → Prop) (f : A → bool) (l : list A) :
  Forall P l → Forall P (List.filter f l).
Proof.
  induction 1 as [|x l Hx Hl IH]; simpl; [done|].
  destruct (f x); [by constructor | done].
Qed.

Lemma Forall_removelast {A} (P : A → Prop) (l : list A) :
  Forall P l → Forall P (removelast l).
Proof.
  induction 1 as [|x l Hx Hl IH]; simpl; [done|].
  destruct l; [done | by constructor].
Qed.

Variable config : Config.
Variable prompt_needle : _States → string.

Lemma recv_once_no_comment (s s' : Sw) (out coms : list string) :
  _recv_once prompt_needle s = (Ok (out, coms), s') →
  Forall no_comment out ∧ Forall (λ c, startswith c "*" = true) coms.
Proof.
  intros H. pose proof (recv_once_spec prompt_needle s) as Hs.
  rewrite H in Hs. simpl in Hs. destruct Hs as (-> & _ & Hout).
  split.
  - assert (Forall no_comment
              (filter_None (line_text <$> (rstrip_crlf <$> next_block s)))) as Hp.
    { apply Forall_List_filter, Forall_fmap, Forall_forall.
      intros l _. apply line_text_no_comment. }
    destruct Hout as [-> | ->]; [done | by apply Forall_removelast].
  - apply Forall_forall. intros c (l & _ & Hl)%list_elem_of_omap.
    by eapply line_comment_star.
Qed.

Lemma recv_once_retry_no_comment (s s' : Sw) (out coms : list string) :
  _recv_once_retry config prompt_needle s = (Ok (out, coms), s') →
  Forall no_comment out ∧ Forall (λ c, startswith c "*" = true) coms.
Proof.
  unfold _recv_once_retry. intros H.
  destruct (retry_loop_cases prompt_needle (Z.to_nat (READ_RETRIES config)) s)
    as [(k & _ & _ & _ & Heq)|[_ Heq]]; rewrite Heq in H; [|done].
  by eapply recv_once_no_comment.
Qed.

Lemma strip_more_magic_no_comment (out out' : list string) (s s' : Sw) :
  strip_more_magic out s = (Ok out', s') →
  Forall no_comment out → Forall no_comment out'.
Proof.
  unfold strip_more_magic.
  destruct (out !! 0%nat) as [l0|]; [|done].
  destruct (String.eqb l0 _MORE_MAGIC_0); [|by intros [= <- _]].
  destruct (out !! 1%nat) as [l1|] eqn:H1; [|done].
  destruct (startswith l1 _MORE_MAGIC_1); [|by intros [= <- _]].
  intros [= <- _] Hout. constructor.
  - apply (comment_search_drop (String.length _MORE_MAGIC_1) l1).
    rewrite Forall_lookup in Hout. by apply (Hout _ _ H1).
  - by apply Forall_drop.
Qed.

Lemma recv_more_no_comment (fuel : nat) (auto_more : bool)
    (whole_out all_comments out coms : list string) (s s' : Sw) :
  _recv_more config prompt_needle fuel auto_more whole_out all_comments s
    = (Ok (out, coms), s') →
  Forall no_comment whole_out → Forall (λ c, startswith c "*" = true) all_comments →
  Forall no_comment out ∧ Forall (λ c, startswith c "*" = true) coms.
Proof.
  revert whole_out all_comments s.
  induction fuel as [|fuel IH]; intros whole_out all_comments s;
    cbn [_recv_more]; unfold mbind, M_bind, bind, gets; cbn beta iota;
    destruct (auto_more && bool_decide (state s = Some MORE)).
  - done.
  - by intros [= <- <- _].
  - unfold sock_write, modify. cbn beta iota.
    destruct (_recv_once_retry config prompt_needle _) as [[[o c]|e] s1] eqn:Hr; [|done].
    apply recv_once_retry_no_comment in Hr as [Ho Hc].
    destruct (strip_more_magic o s1) as [[o'|e] s2] eqn:Hm; [|done].
    pose proof (strip_more_magic_no_comment _ _ _ _ Hm Ho) as Ho'.
    intros H Hw Ha. eapply IH; [exact H | |]; by apply Forall_app.
  - by intros [= <- <- _].
Qed.

Lemma recv_no_comment (auto_more : bool) (tmo : Z) (s s' : Sw) (out coms : list string) :
  _recv config prompt_needle auto_more tmo s = (Ok (out, coms), s') →
  Forall no_comment out ∧ Forall (λ c, startswith c "*" = true) coms.
Proof.
  unfold _recv. intros H.
  apply bind_ok_inv in H as ([] & s0 & _ & H).
  apply bind_ok_inv in H as ([wo ac] & s1 & Hr & H).
  apply bind_ok_inv in H as ([] & s2 & _ & H).
  apply bind_ok_inv in H as (fuel & s3 & _ & H).
  apply recv_once_retry_no_comment in Hr as [Ho Hc].
  by eapply recv_more_no_comment.
Qed.

End Comments.
(** ** Login and navigation *)

Section Login.
Import PyStr.
Variable config : Config.
Variable prompt_needle : _States → string.

Lemma login_password_state (s : Sw) :
  state s = Some LOGIN_PASSWORD →
  _login config prompt_needle s = password_phase config prompt_needle s.
Proof.
  intros Hst. unfold _login, password_phase, mbind, M_bind, bind, gets, mret, M_ret, ret.
  cbn beta iota. rewrite Hst. cbn [bool_decide decide_rel]. 
  rewrite bool_decide_eq_false_2 by done. cbn beta iota.
  rewrite bool_decide_eq_true_2 by done.
  destruct (send_cmd config prompt_needle (PASSWORD config) (READ_TIMEOUT config) s)
    as [[[out comments]|e] s']; [|done].
  destruct (existsb (contains "ACCEPTED") comments); [done|].
  by destruct (existsb (contains "REJECTED") comments).
Qed.

Lemma login_username_state (s : Sw) :
  state s = Some LOGIN_USERNAME →
  _login config prompt_needle s =
    match send_cmd config prompt_needle (USER config) (READ_TIMEOUT config) s with
    | (Raise e, s1) => (Raise e, s1)
    | (Ok (out, _), s1) =>
        if existsb (contains "Incorrect User Name") out then (Ok false, s1)
        else if bool_decide (state s1 = Some LOGIN_PASSWORD)
             then password_phase config prompt_needle s1
             else (Ok false, s1)
    end.
Proof.
  intros Hst.
  unfold _login, password_phase, mbind, M_bind, bind, gets, mret, M_ret, ret.
  cbn beta iota. rewrite Hst. rewrite bool_decide_eq_true_2 by done. cbn beta iota.
  destruct (send_cmd config prompt_needle (USER config) (READ_TIMEOUT config) s)
    as [[[out c]|e] s1]; [|done].
  destruct (existsb (contains "Incorrect User Name") out); [done|].
  case_bool_decide as Hp; cbn [negb]; cbn beta iota; [|done].
  rewrite bool_decide_eq_true_2 by done.
  destruct (send_cmd config prompt_needle (PASSWORD config) (READ_TIMEOUT config) s1)
    as [[[out' comments]|e] s']; [|done].
  destruct (existsb (contains "ACCEPTED") comments); [done|].
  by destruct (existsb (contains "REJECTED") comments).
Qed.

Lemma login_other_state (s : Sw) :
  state s ≠ Some LOGIN_USERNAME → state s ≠ Some LOGIN_PASSWORD →
  _login config prompt_needle s = (Raise AssertionError, s).
Proof.
  intros H1 H2.
  unfold _login, mbind, M_bind, bind, gets, mret, M_ret, ret, raise. cbn beta iota.
  rewrite bool_decide_eq_false_2 by done. cbn beta iota.
  by rewrite bool_decide_eq_false_2 by done.
Qed.

End Login.
Section Navigation.
Import PyStr.
Variable config : Config.
Variable prompt_needle : _States → string.

Lemma password_phase_history (s : Sw) :
  history (snd (password_phase config prompt_needle s)) = history s ++ [PASSWORD config]
  ∧ fst (password_phase config prompt_needle s) ≠ Raise AssertionError.
Proof.
  unfold password_phase.
  pose proof (send_cmd_history config prompt_needle (PASSWORD config)
                (READ_TIMEOUT config) s) as Hh.
  pose proof (raises_send_cmd config prompt_needle (λ e, e ≠ AssertionError)
                ltac:(done) ltac:(done) ltac:(done) ltac:(done)
                (PASSWORD config) (READ_TIMEOUT config) s) as Hr.
  destruct (send_cmd config prompt_needle (PASSWORD config) (READ_TIMEOUT config) s)
    as [[[out comments]|e] s']; simpl in *; [done|].
  split; [done|]. intros [= ->]. by apply (Hr AssertionError).
Qed.

(** What [_login] sends, and that it asserts only outside the login states. *)
Lemma login_history (s : Sw) :
  (∃ k, history (snd (_login config prompt_needle s)) = history s ++ k
        ∧ k ∈ [ []; [USER config]; [USER config; PASSWORD config]; [PASSWORD config] ])
  ∧ (state s = Some LOGIN_USERNAME ∨ state s = Some LOGIN_PASSWORD →
     fst (_login config prompt_needle s) ≠ Raise AssertionError).
Proof.
  destruct (decide (state s = Some LOGIN_USERNAME)) as [Hu|Hu].
  - rewrite (login_username_state config prompt_needle s Hu).
    pose proof (send_cmd_history config prompt_needle (USER config)
                  (READ_TIMEOUT config) s) as Hh.
    pose proof (raises_send_cmd config prompt_needle (λ e, e ≠ AssertionError)
                  ltac:(done) ltac:(done) ltac:(done) ltac:(done)
                  (USER config) (READ_TIMEOUT config) s) as Hr.
    destruct (send_cmd config prompt_needle (USER config) (READ_TIMEOUT config) s)
      as [[[out c]|e] s1]; simpl in *.
    + destruct (existsb (contains "Incorrect User Name") out).
      { split; [|done]. exists [USER config]. split; [done|]. set_solver. }
      case_bool_decide.
      * destruct (password_phase_history s1) as [Hp Hna].
        split; [|done]. exists [USER config; PASSWORD config].
        rewrite Hp, Hh, <- app_assoc. split; [done|]. set_solver.
      * split; [|done]. exists [USER config]. split; [done|]. set_solver.
    + split; [|intros _ [= ->]; by apply (Hr AssertionError)].
      exists [USER config]. split; [done|]. set_solver.
  - destruct (decide (state s = Some LOGIN_PASSWORD)) as [Hp|Hp].
    + rewrite (login_password_state config prompt_needle s Hp).
      destruct (password_phase_history s) as [Hh Hna].
      split; [|done]. exists [PASSWORD config]. split; [done|]. set_solver.
    + rewrite (login_other_state config prompt_needle s Hu Hp).
      split; [|by intros [?|?]]. exists []. simpl. rewrite app_nil_r.
      split; [done|]. set_solver.
Qed.

Lemma goto_admin_main_prompt_eq :
  _goto_admin_main_prompt config prompt_needle =
    (sock_flushInput ;;
     st ← gets state;
     (if bool_decide (st = None) || bool_decide (st = Some PRESS_ANY_KEY)
      then _send config prompt_needle (String LF EmptyString) true false
             (READ_TIMEOUT config) ;; mret tt
      else mret tt) ;;
     navigate_from_state config prompt_needle).
Proof. reflexivity. Qed.

Lemma history_eq_send str bypass auto_more tmo (s : Sw) :
  history (snd (_send config prompt_needle str bypass auto_more tmo s)) = history s.
Proof.
  symmetry. apply (preserves_send history_eq config prompt_needle str bypass auto_more tmo s).
Qed.

(** The move from a known state: what it sends and what it cannot raise. *)
Lemma navigate_from_state_history (s : Sw) :
  let r := navigate_from_state config prompt_needle s in
  (∃ k, history (snd r) = history s ++ k ∧ k ∈ navigation_scripts config)
  ∧ fst r ≠ Raise AssertionError.
Proof.
  assert (∀ k, k ∈ [ []; [USER config]; [USER config; PASSWORD config]; [PASSWORD config] ]
               → k ∈ navigation_scripts config) as Hnav.
  { intros k. unfold navigation_scripts. set_solver. }
  unfold navigate_from_state, mbind, M_bind, bind, gets, mret, M_ret, ret.
  cbn beta iota.
  case_bool_decide as Hadm.
  { split; [|done]. exists []. simpl. rewrite app_nil_r. split; [done|].
    unfold navigation_scripts. set_solver. }
  case_bool_decide as Hmore.
  { pose proof (history_eq_send (String ETX "") true false (READ_TIMEOUT config) s) as Hh.
    pose proof (raises_send config prompt_needle (λ e, e ≠ AssertionError)
                  ltac:(done) ltac:(done) ltac:(done) ltac:(done)
                  (String ETX "") true false (READ_TIMEOUT config) s) as Hr.
    destruct (_send config prompt_needle (String ETX "") true false _ s)
      as [[[res c]|e] s1]; simpl in *.
    - split; [|by destruct (negb _)]. exists []. rewrite app_nil_r.
      split; [by destruct (negb _)|]. unfold navigation_scripts. set_solver.
    - split; [|intros [= ->]; by apply (Hr AssertionError)].
      exists []. rewrite app_nil_r. split; [done|]. unfold navigation_scripts. set_solver. }
  case_bool_decide as Huser.
  { pose proof (send_cmd_history config prompt_needle "enable" (READ_TIMEOUT config) s) as Hh.
    pose proof (raises_send_cmd config prompt_needle (λ e, e ≠ AssertionError)
                  ltac:(done) ltac:(done) ltac:(done) ltac:(done)
                  "enable" (READ_TIMEOUT config) s) as Hr.
    destruct (send_cmd config prompt_needle "enable" _ s) as [[[res c]|e] s1]; simpl in *.
    - split; [|by destruct (negb _)]. exists ["enable"].
      split; [by destruct (negb _)|]. unfold navigation_scripts. set_solver.
    - split; [|intros [= ->]; by apply (Hr AssertionError)].
      exists ["enable"]. split; [done|]. unfold navigation_scripts. set_solver. }
  case_bool_decide as Hconf.
  { pose proof (send_cmd_history config prompt_needle "end" (READ_TIMEOUT config) s) as Hh.
    pose proof (raises_send_cmd config prompt_needle (λ e, e ≠ AssertionError)
                  ltac:(done) ltac:(done) ltac:(done) ltac:(done)
                  "end" (READ_TIMEOUT config) s) as Hr.
    destruct (send_cmd config prompt_needle "end" _ s) as [[[res c]|e] s1]; simpl in *.
    - split; [|by destruct (negb _)]. exists ["end"].
      split; [by destruct (negb _)|]. unfold navigation_scripts. set_solver.
    - split; [|intros [= ->]; by apply (Hr AssertionError)].
      exists ["end"]. split; [done|]. unfold navigation_scripts. set_solver. }
  case_bool_decide as Hlogin.
  { destruct (login_history s) as [(k & Hk & Hin) Hna].
    assert (fst (_login config prompt_needle s) ≠ Raise AssertionError) as Hna'.
    { apply Hna. set_solver. }
    destruct (_login config prompt_needle s) as [[b|e] s1]; simpl in *.
    - split; [|by destruct b]. exists k. split; [by destruct b | by apply Hnav].
    - split; [|intros [= ->]; done]. exists k. split; [done | by apply Hnav]. }
  simpl. split; [|done]. exists []. rewrite app_nil_r. split; [done|].
  unfold navigation_scripts. set_solver.
Qed.

End Navigation.

Section NavigationHistory.
Variable config : Config.
Variable prompt_needle : _States → string.

(** The whole navigation: what it sends and what it cannot raise. *)
Lemma goto_admin_main_prompt_history (s : Sw) :
  let r := _goto_admin_main_prompt config prompt_needle s in
  (∃ k, history (snd r) = history s ++ k ∧ k ∈ navigation_scripts config)
  ∧ fst r ≠ Raise AssertionError.
Proof.
  intros r. unfold r. rewrite goto_admin_main_prompt_eq.
  unfold mbind, M_bind, bind, gets, sock_flushInput, modify. cbn beta iota.
  change (set_sock _ s) with (flushed s).
  destruct (bool_decide (state (flushed s) = None)
            || bool_decide (state (flushed s) = Some PRESS_ANY_KEY)).
  - pose proof (history_eq_send config prompt_needle (String PyStr.LF "") true false
                  (READ_TIMEOUT config) (flushed s)) as Hh.
    pose proof (raises_send config prompt_needle (λ e, e ≠ AssertionError)
                  ltac:(done) ltac:(done) ltac:(done) ltac:(done)
                  (String PyStr.LF "") true false (READ_TIMEOUT config) (flushed s)) as Hr.
    destruct (_send config prompt_needle (String PyStr.LF "") true false _ (flushed s))
      as [[x|e] s1]; cbn [fst snd] in *.
    + cbn beta iota.
      destruct (navigate_from_state_history config prompt_needle s1) as [Hk Hna].
      simpl in Hh. by rewrite Hh in Hk.
    + split; [|intros [= ->]; by apply (Hr AssertionError)].
      exists []. rewrite app_nil_r. split; [done|].
      unfold navigation_scripts. set_solver.
  - cbn beta iota. apply (navigate_from_state_history config prompt_needle (flushed s)).
Qed.

End NavigationHistory.
(** ** The hostname *)

Section Hostname.
Import PyStr Regex.

Lemma hostname_at_app (h tail : string) :
  h ≠ "" → all_chars (λ c, negb (Ascii.eqb c "(")) h = true →
  hostname_at tail = None → prompt_tail tail = true →
  hostname_at (h +:+ tail) = Some h.
Proof.
  induction h as [|c h IH]; [done|]. intros _ Hall Ht Hp.
  cbn [all_chars] in Hall. apply andb_prop in Hall as [Hc Hh].
  apply negb_true_iff in Hc.
  change (String c h +:+ tail) with (String c (h +:+ tail)). cbn [hostname_at].
  rewrite Hc. destruct h as [|c' h'].
  - change ("" +:+ tail) with tail. by rewrite Ht, Hp.
  - by rewrite IH.
Qed.

Lemma hostname_search_at (l h : string) :
  hostname_at l = Some h → hostname_search l = Some h.
Proof. destruct l as [|c l]; [done|]. cbn [hostname_search]. by intros ->. Qed.

Lemma prompt_tail_context (ctx : string) :
  all_chars (λ c, negb (Ascii.eqb c LF)) ctx = true →
  prompt_tail (ctx +:+ ")# ") = true.
Proof.
  induction ctx as [|c ctx IH]; [done|]. intros Hall.
  cbn [all_chars] in Hall. apply andb_prop in Hall as [Hc Hctx].
  change (String c ctx +:+ ")# ") with (String c (ctx +:+ ")# ")). cbn [prompt_tail].
  by rewrite Hc, (IH Hctx), orb_true_r.
Qed.

Lemma hostname_at_shape (l h : string) :
  hostname_at l = Some h →
  h ≠ "" ∧ all_chars (λ c, negb (Ascii.eqb c "(")) h = true.
Proof.
  revert h. induction l as [|c l IH]; intros h; [done|]. cbn [hostname_at].
  destruct (Ascii.eqb c "(") eqn:Hc; [done|].
  destruct (hostname_at l) as [h'|].
  - intros [= <-]. destruct (IH h' eq_refl) as [_ Hall].
    split; [done|]. cbn [all_chars]. by rewrite Hc, Hall.
  - destruct (prompt_tail l); [|done]. intros [= <-]. split; [done|].
    cbn [all_chars]. by rewrite Hc.
Qed.

Lemma hostname_search_shape (l h : string) :
  hostname_search l = Some h →
  h ≠ "" ∧ all_chars (λ c, negb (Ascii.eqb c "(")) h = true.
Proof.
  induction l as [|c l IH]; [done|]. cbn [hostname_search].
  destruct (hostname_at (String c l)) as [h'|] eqn:Hat.
  - intros [= <-]. by eapply hostname_at_shape.
  - exact IH.
Qed.

Lemma contains_cons (sub : string) (c : ascii) (s : string) :
  contains sub s = true → contains sub (String c s) = true.
Proof. intros H. cbn [contains]. by rewrite H, orb_true_r. Qed.

Lemma prompt_tail_marker (s : string) :
  prompt_tail s = true → contains "> " s = true ∨ contains "# " s = true.
Proof.
  induction s as [|c s IH]; [done|]. cbn [prompt_tail].
  intros [[Hc Hsp]%andb_prop|[_ Ht]%andb_prop]%orb_prop.
  - unfold startswith in Hsp.
    apply orb_prop in Hc as [->%Ascii.eqb_eq| ->%Ascii.eqb_eq]; [left|right];
      cbn [contains]; apply orb_true_intro; left; simpl; exact Hsp.
  - destruct (IH Ht); [left|right]; by apply contains_cons.
Qed.

Lemma hostname_at_marker (s h : string) :
  hostname_at s = Some h → contains "> " s = true ∨ contains "# " s = true.
Proof.
  revert h. induction s as [|c s IH]; intros h; [done|]. cbn [hostname_at].
  destruct (Ascii.eqb c "("); [done|].
  destruct (hostname_at s) as [h'|].
  - intros _. destruct (IH h' eq_refl); [left|right]; by apply contains_cons.
  - destruct (prompt_tail s) eqn:Hp; [|done]. intros _.
    destruct (prompt_tail_marker s Hp); [left|right]; by apply contains_cons.
Qed.

Lemma hostname_search_marker (s h : string) :
  hostname_search s = Some h → contains "> " s = true ∨ contains "# " s = true.
Proof.
  induction s as [|c s IH]; [done|]. cbn [hostname_search].
  destruct (hostname_at (String c s)) as [h'|] eqn:Hat.
  - intros _. by eapply hostname_at_marker.
  - intros H. destruct (IH H); [left|right]; by apply contains_cons.
Qed.

(** A line that does not begin with [h] begins with nothing longer. *)
Lemma startswith_longer (l h x : string) :
  startswith l h = false → startswith l (h +:+ x) = false.
Proof.
  unfold startswith. revert l. induction h as [|a h IH]; intros l.
  - by destruct l.
  - change (String a h +:+ x) with (String a (h +:+ x)).
    destruct l as [|b l]; [done|]. simpl.
    destruct (ascii_dec a b); [apply IH | done].
Qed.

Variable prompt_needle : _States → string.

Lemma classify_foreign_prompt (h l : string) :
  startswith l h = false →
  classify_hostname_spec prompt_needle h l = (None, false).
Proof.
  intros H. unfold classify_hostname_spec.
  by rewrite !(startswith_longer l h _ H).
Qed.

End Hostname.
(** ** Opening a session *)

Section Opening.
Import PyStr Regex.

Lemma rstrip_by_keep (p : ascii → bool) (s : string) (c : ascii) :
  p c = false → rstrip_by p (s +:+ String c "") = s +:+ String c "".
Proof.
  intros Hc. induction s as [|a s IH].
  - simpl. by rewrite Hc.
  - change (String a s +:+ String c "") with (String a (s +:+ String c "")).
    cbn [rstrip_by]. rewrite IH. by destruct s.
Qed.

Lemma string_app_assoc (a b c : string) : (a +:+ b) +:+ c = a +:+ (b +:+ c).
Proof.
  induction a as [|x a IH]; [done|].
  change (String x ((a +:+ b) +:+ c) = String x (a +:+ (b +:+ c))). by f_equal.
Qed.

Lemma comment_search_no_star (l : string) :
  all_chars (λ c, negb (Ascii.eqb c "*")) l = true → comment_search l = None.
Proof.
  induction l as [|c l IH]; [done|]. cbn [all_chars comment_search].
  intros [Hc Hl]%andb_prop. apply negb_true_iff in Hc. rewrite Hc. cbn [andb].
  by rewrite IH.
Qed.

Lemma startswith_refl (s : string) : startswith s s = true.
Proof.
  unfold startswith. induction s as [|c s IH]; [done|]. simpl.
  by destruct (ascii_dec c c).
Qed.

Lemma startswith_common (h a b : string) :
  startswith (h +:+ a) (h +:+ b) = startswith a b.
Proof.
  unfold startswith. induction h as [|c h IH]; [done|].
  change (String c h +:+ a) with (String c (h +:+ a)).
  change (String c h +:+ b) with (String c (h +:+ b)). simpl.
  by destruct (ascii_dec c c).
Qed.

Variable config : Config.
Variable prompt_needle : _States → string.

(** A block of one line that is all text. *)
Lemma recv_once_single_line (l : string) (blocks : list (list string)) (s : Sw) :
  rx_lines (sock s) = [l] :: blocks →
  rstrip_crlf l = l → comment_search l = None → l ≠ "" →
  _recv_once prompt_needle s =
    let s1 := set_sock (λ k, mkSerial (timeout k) (rx_bytes k) blocks (events k)) s in
    let '(st, removed, hn) := classify_spec prompt_needle (hostname s) l in
    (Ok (if removed then [] else [l], []), set_state st (set_hostname hn s1)).
Proof.
  intros Hrx Hstrip Hcom Hne.
  unfold _recv_once, mbind, M_bind. unfold bind at 1. unfold sock_readlines.
  rewrite Hrx. rewrite filter_lines_spec. cbn [fmap list_fmap omap list_omap compose app].
  unfold line_comment, line_text. rewrite Hstrip, Hcom. cbn [fmap option_fmap option_map].
  unfold filter_None. cbn [List.filter].
  destruct (String.eqb_spec l "") as [->|_]; [done|]. cbn [negb].
  rewrite bool_decide_eq_false_2 by done.
  unfold bind at 1. rewrite (parse_prompt_spec prompt_needle [] l).
  cbn [app hostname set_sock].
  destruct (classify_spec prompt_needle (hostname s) l) as [[st removed] hn].
  by destruct removed.
Qed.

End Opening.
(** ** The VLAN data structures *)

Section VlanData.
Import PyStr.
Variable config : Config.

Lemma fmap_fst_pair {A B} (b : B) (l : list A) :
  (fst ∘ (λ key, (key, b))) <$> l = l.
Proof. induction l as [|x l IH]; simpl; [done|]. by f_equal. Qed.

Lemma init_ports_lookup (p : Z) :
  snd (init_vlan_config_datastruct config) !! p =
    if bool_decide (PORT_MIN config ≤ p ≤ PORT_MAX config)
    then Some (mkPortConf None ∅) else None.
Proof.
  unfold init_vlan_config_datastruct, range_incl. cbn [snd].
  case_bool_decide as Hp.
  - apply elem_of_list_to_map_1.
    + rewrite <- list_fmap_compose, fmap_fst_pair. apply NoDup_seqZ.
    + apply list_elem_of_fmap. exists p. split; [done|]. apply elem_of_seqZ. lia.
  - apply not_elem_of_list_to_map_1.
    rewrite <- list_fmap_compose, fmap_fst_pair.
    intros Hq%elem_of_seqZ. lia.
Qed.

Lemma set_diff_spec (old new : gset Z) :
  _set_diff old new = (new ∖ old, old ∖ new).
Proof. unfold _set_diff. f_equal; set_solver. Qed.

Lemma dict_diff_elem (old new : gmap Z PortConf) (p : Z) :
  p ∈ _dict_diff old new
  ↔ ∃ a b, old !! p = Some a ∧ new !! p = Some b ∧ a ≠ b.
Proof.
  unfold _dict_diff. rewrite elem_of_filter, elem_of_intersection, !elem_of_dom.
  split.
  - intros (Hne & [b Hb] & [a Ha]). exists a, b. rewrite Ha, Hb in Hne.
    split; [done|]. split; [done|]. congruence.
  - intros (a & b & Ha & Hb & Hne). rewrite Ha, Hb. split; [congruence|]. eauto.
Qed.

End VlanData.
(** ** The row loop of [_parse_vlans] *)

Section ParseRows.
Import PyStr.

Lemma parse_row_fields (line : string) (vlans : gset Z) (ports : gmap Z PortConf) :
  parse_row line (vlans, ports) =
    rbind (row_fields line) (λ '(vid, u, t),
      rbind (set_untagged u vid ports) (λ ports1,
      rbind (add_tagged t vid ports1) (λ ports2,
      Ok ({[vid]} ∪ vlans, ports2)))).
Proof.
  unfold parse_row, row_fields.
  destruct ((strip <$> split "|" line) !! 0%nat) as [row0|]; [|done].
  destruct (int row0) as [vid|]; [|done].
  destruct ((strip <$> split "|" line) !! 2%nat) as [u_|]; [|done].
  destruct ((strip <$> split "|" line) !! 3%nat) as [t_|]; [|done].
  destruct (_str_to_if_range u_) as [u|e]; [|done].
  destruct (_str_to_if_range t_) as [t|e]; done.
Qed.

Lemma bool_decide_elem_of_cons_ne (q i : Z) (l : list Z) :
  q ≠ i → bool_decide (q ∈ i :: l) = bool_decide (q ∈ l).
Proof. intros Hne. apply bool_decide_ext. rewrite elem_of_cons. naive_solver. Qed.

Lemma set_untagged_spec (ifs : list Z) (vid : Z) (ports : gmap Z PortConf) :
  match set_untagged ifs vid ports with
  | Ok ports' =>
      Forall (λ p, is_Some (ports !! p)) ifs
      ∧ ∀ q, ports' !! q = (λ pc, apply_row q pc (vid, ifs, [])) <$> ports !! q
  | Raise e => e = KeyError ∧ ¬ Forall (λ p, is_Some (ports !! p)) ifs
  end.
Proof.
  revert ports. induction ifs as [|i rest IH]; intros ports; simpl.
  - split; [done|]. intros q. destruct (ports !! q) as [[u t]|]; simpl; [|done].
    by destruct u.
  - destruct (ports !! i) as [pc|] eqn:Hi.
    2:{ split; [done|]. intros [H _]%Forall_cons. rewrite Hi in H. by destruct H. }
    destruct (untagged pc) as [v|] eqn:Hu.
    + specialize (IH ports). destruct (set_untagged rest vid ports) as [ports'|e].
      * destruct IH as [HF Hq]. split; [by constructor|]. intros q. rewrite Hq.
        destruct (ports !! q) as [pcq|] eqn:Hpq; simpl; [|done]. f_equal.
        unfold apply_row. destruct (untagged pcq) eqn:E; [done|].
        rewrite bool_decide_elem_of_cons_ne; [done|]. intros ->. congruence.
      * destruct IH as [-> HF]. split; [done|]. by intros [_ ?]%Forall_cons.
    + specialize (IH (<[i:=mkPortConf (Some vid) (tagged pc)]> ports)).
      assert (Forall (λ p, is_Some (<[i:=mkPortConf (Some vid) (tagged pc)]> ports !! p)) rest
              ↔ Forall (λ p, is_Some (ports !! p)) rest) as HFF.
      { apply Forall_proper; [|done]. intros p. rewrite lookup_insert_is_Some.
        split; [intros [<-|[_ ?]]; eauto | intros ?].
        destruct (decide (i = p)); auto. }
      destruct (set_untagged rest vid _) as [ports'|e].
      * destruct IH as [HF Hq]. split; [constructor; [eauto | by apply HFF]|].
        intros q. rewrite Hq. destruct (decide (q = i)) as [->|Hne].
        -- rewrite lookup_insert_eq, Hi. simpl. f_equal. unfold apply_row. simpl.
           rewrite Hu. rewrite bool_decide_eq_true_2 by (apply elem_of_cons; by left). done.
        -- rewrite lookup_insert_ne by done.
           destruct (ports !! q) as [pcq|]; simpl; [|done]. f_equal.
           unfold apply_row. by rewrite bool_decide_elem_of_cons_ne.
      * destruct IH as [-> HF]. split; [done|]. intros [_ ?]%Forall_cons.
        by apply HF, HFF.
Qed.

Lemma add_tagged_spec (ifs : list Z) (vid : Z) (ports : gmap Z PortConf) :
  match add_tagged ifs vid ports with
  | Ok ports' =>
      Forall (λ p, is_Some (ports !! p)) ifs
      ∧ ∀ q, ports' !! q = (λ pc, apply_row q pc (vid, [], ifs)) <$> ports !! q
  | Raise e => e = KeyError ∧ ¬ Forall (λ p, is_Some (ports !! p)) ifs
  end.
Proof.
  revert ports. induction ifs as [|i rest IH]; intros ports; simpl.
  - split; [done|]. intros q. destruct (ports !! q) as [[u t]|]; simpl; [|done].
    by destruct u.
  - destruct (ports !! i) as [pc|] eqn:Hi.
    2:{ split; [done|]. intros [H _]%Forall_cons. rewrite Hi in H. by destruct H. }
    specialize (IH (<[i:=mkPortConf (untagged pc) ({[vid]} ∪ tagged pc)]> ports)).
    assert (Forall (λ p, is_Some (<[i:=mkPortConf (untagged pc) ({[vid]} ∪ tagged pc)]> ports !! p)) rest
            ↔ Forall (λ p, is_Some (ports !! p)) rest) as HFF.
    { apply Forall_proper; [|done]. intros p. rewrite lookup_insert_is_Some.
      split; [intros [<-|[_ ?]]; eauto | intros ?].
      destruct (decide (i = p)); auto. }
    destruct (add_tagged rest vid _) as [ports'|e].
    + destruct IH as [HF Hq]. split; [constructor; [eauto | by apply HFF]|].
      intros q. rewrite Hq. destruct (decide (q = i)) as [->|Hne].
      * rewrite lookup_insert_eq, Hi. simpl. f_equal. unfold apply_row. simpl.
        rewrite (bool_decide_eq_true_2 (i ∈ i :: rest)) by (apply elem_of_cons; by left).
        destruct (untagged pc); case_bool_decide; f_equal; set_solver.
      * rewrite lookup_insert_ne by done.
        destruct (ports !! q) as [pcq|]; simpl; [|done]. f_equal.
        unfold apply_row. by rewrite bool_decide_elem_of_cons_ne.
    + destruct IH as [-> HF]. split; [done|]. intros [_ ?]%Forall_cons.
      by apply HF, HFF.
Qed.

Lemma apply_row_split (q : Z) (pc : PortConf) (vid : Z) (u t : list Z) :
  apply_row q (apply_row q pc (vid, u, [])) (vid, [], t) = apply_row q pc (vid, u, t).
Proof. unfold apply_row. simpl. by destruct (untagged pc), (bool_decide (q ∈ u)). Qed.

Lemma dom_of_lookups {A} (m m' : gmap Z A) (f : Z → A → A) :
  (∀ q, m' !! q = f q <$> m !! q) → dom m' = dom m.
Proof.
  intros H. apply set_eq. intros q. rewrite !elem_of_dom, H.
  by rewrite fmap_is_Some.
Qed.

Lemma Forall_known (ports : gmap Z PortConf) (l : list Z) :
  Forall (λ p, is_Some (ports !! p)) l ↔ Forall (λ p, p ∈ dom ports) l.
Proof. apply Forall_proper; [|done]. intros p. by rewrite elem_of_dom. Qed.

(** One row: the fields are read, then both loops run over known ports. *)
Lemma parse_row_spec (line : string) (vlans : gset Z) (ports : gmap Z PortConf) :
  match parse_row line (vlans, ports), checked_row (dom ports) line with
  | Ok (vlans', ports'), Ok row =>
      vlans' = {[row_vid row]} ∪ vlans
      ∧ ∀ q, ports' !! q = (λ pc, apply_row q pc row) <$> ports !! q
  | Raise e, Raise e' => e = e'
  | _, _ => False
  end.
Proof.
  rewrite parse_row_fields. unfold checked_row.
  destruct (row_fields line) as [[[vid u] t]|e]; simpl; [|done].
  pose proof (set_untagged_spec u vid ports) as Hu.
  destruct (set_untagged u vid ports) as [ports1|e]; simpl.
  - destruct Hu as [HFu Hq1]. rewrite Forall_known in HFu.
    pose proof (add_tagged_spec t vid ports1) as Ht.
    assert (dom ports1 = dom ports) as Hdom by exact (dom_of_lookups _ _ _ Hq1).
    destruct (add_tagged t vid ports1) as [ports2|e]; simpl.
    + destruct Ht as [HFt Hq2]. rewrite Forall_known, Hdom in HFt.
      rewrite bool_decide_eq_true_2 by (by apply Forall_app).
      split; [done|]. intros q. rewrite Hq2, Hq1, <- option_fmap_compose.
      destruct (ports !! q) as [pc|]; [|done].
      cbn -[apply_row]. f_equal. apply apply_row_split.
    + destruct Ht as [-> HFt]. rewrite Forall_known, Hdom in HFt.
      rewrite bool_decide_eq_false_2; [done|]. by intros [_ ?]%Forall_app.
  - destruct Hu as [-> HFu]. rewrite Forall_known in HFu.
    rewrite bool_decide_eq_false_2; [done|]. by intros [? _]%Forall_app.
Qed.

(** The whole loop. *)
Lemma parse_rows_spec (lines : list string) (vlans : gset Z) (ports : gmap Z PortConf) :
  match parse_rows lines (vlans, ports), checked_rows (dom ports) lines with
  | Ok (vlans', ports'), Ok rows =>
      vlans' = list_to_set (row_vid <$> rows) ∪ vlans
      ∧ ∀ q, ports' !! q = (λ pc, foldl (apply_row q) pc rows) <$> ports !! q
  | Raise e, Raise e' => e = e'
  | _, _ => False
  end.
Proof.
  revert vlans ports. induction lines as [|line rest IH]; intros vlans ports.
  - simpl. split; [set_solver|]. intros q. by destruct (ports !! q).
  - cbn [parse_rows checked_rows].
    pose proof (parse_row_spec line vlans ports) as Hrow.
    destruct (parse_row line (vlans, ports)) as [[vlans1 ports1]|e];
      destruct (checked_row (dom ports) line) as [row|e']; cbn [rbind]; try done.
    destruct Hrow as [-> Hq1].
    assert (dom ports1 = dom ports) as Hdom by exact (dom_of_lookups _ _ _ Hq1).
    specialize (IH ({[row_vid row]} ∪ vlans) ports1). rewrite Hdom in IH.
    destruct (parse_rows rest _) as [[vlans2 ports2]|e];
      destruct (checked_rows (dom ports) rest) as [rows|e']; cbn [rbind]; try done.
    destruct IH as [-> Hq2]. split; [rewrite fmap_cons; set_solver|].
    intros q. rewrite Hq2, Hq1, <- option_fmap_compose.
    by destruct (ports !! q).
Qed.

Lemma foldl_apply_row (p : Z) (rows : list (Z * list Z * list Z)) (pc : PortConf) :
  foldl (apply_row p) pc rows =
    mkPortConf
      (match untagged pc with Some v => Some v | None => first_untagged rows p end)
      (all_tagged rows p ∪ tagged pc).
Proof.
  revert pc. induction rows as [|[[vid u] t] rows IH]; intros pc; simpl.
  - destruct pc as [[v|] tg]; simpl; f_equal; unfold all_tagged; simpl; set_solver.
  - rewrite IH. unfold first_untagged, all_tagged. simpl.
    destruct (untagged pc); simpl; repeat case_bool_decide; simpl; f_equal; set_solver.
Qed.

End ParseRows.
(** ** Reading the table, and what can go wrong *)

Section ParseTable.
Import PyStr.
Variable config : Config.
Variable prompt_needle : _States → string.

Lemma dom_init_ports : dom (snd (init_vlan_config_datastruct config)) = port_range config.
Proof.
  apply set_eq. intros p. rewrite elem_of_dom, init_ports_lookup.
  unfold port_range, range_incl. rewrite elem_of_list_to_set, elem_of_seqZ.
  case_bool_decide as Hp; split; intros H; first [done | lia | by destruct H].
Qed.

Lemma checked_rows_Forall2 (known : gset Z) (lines : list string)
    (rows : list (Z * list Z * list Z)) :
  checked_rows known lines = Ok rows
  ↔ Forall2 (λ line row, row_fields line = Ok row
                         ∧ Forall (λ p, p ∈ known) (row_ports row)) lines rows.
Proof.
  revert rows. induction lines as [|line rest IH]; intros rows; simpl.
  - split; [intros [= <-]; constructor | by intros ->%Forall2_nil_inv_l].
  - unfold checked_row. split.
    + destruct (row_fields line) as [row|e] eqn:Hf; simpl; [|done].
      case_bool_decide as Hk; simpl; [|done].
      destruct (checked_rows known rest) as [rows'|e] eqn:Hrest; simpl; [|done].
      intros [= <-]. constructor; [done|]. by apply IH.
    + intros (row & rows' & [Hf Hk] & Hrest & ->)%Forall2_cons_inv_l.
      rewrite Hf. simpl. rewrite bool_decide_eq_true_2 by done. simpl.
      apply IH in Hrest. by rewrite Hrest.
Qed.

Lemma split_nonempty (sep : ascii) (s : string) : split sep s ≠ [].
Proof.
  destruct s as [|c s]; simpl; [done|].
  destruct (Ascii.eqb c sep); [done|]. by destruct (split sep s).
Qed.

Lemma expand_bounds_value_error (r : list string) (e : exn) :
  r ≠ [] → expand_bounds r = Raise e → e = ValueError.
Proof.
  intros Hne. unfold expand_bounds.
  destruct r as [|r0 r']; [done|]. cbn [head].
  destruct (last (r0 :: r')) as [rl|] eqn:Hl.
  - destruct (int r0); [|by intros [= <-]]. destruct (int rl); [done | by intros [= <-]].
  - by apply last_None in Hl.
Qed.

Lemma expand_all_value_error (range_ : list (list string)) (e : exn) :
  Forall (λ r, r ≠ []) range_ → expand_all range_ = Raise e → e = ValueError.
Proof.
  induction range_ as [|r rest IH]; simpl; [done|].
  intros [Hr Hrest]%Forall_cons.
  destruct (expand_bounds r) as [l|e'] eqn:Hb; simpl.
  - destruct (expand_all rest) as [ls|e'] eqn:Ha; simpl; [done|].
    intros [= <-]. by apply IH.
  - intros [= <-]. by eapply expand_bounds_value_error.
Qed.

Lemma str_to_if_range_value_error (str : string) (e : exn) :
  _str_to_if_range str = Raise e → e = ValueError.
Proof.
  unfold _str_to_if_range. apply expand_all_value_error.
  apply Forall_fmap, Forall_forall. intros r _. apply split_nonempty.
Qed.

Lemma row_fields_errors (line : string) (e : exn) :
  row_fields line = Raise e → e = IndexError ∨ e = ValueError.
Proof.
  unfold row_fields.
  destruct (_ !! 0%nat) as [row0|]; [|intros [= <-]; auto].
  destruct (int row0) as [vid|]; [|intros [= <-]; auto].
  destruct (_ !! 2%nat) as [u_|]; [|intros [= <-]; auto].
  destruct (_ !! 3%nat) as [t_|]; [|intros [= <-]; auto].
  destruct (_str_to_if_range u_) as [u|e1] eqn:Hu; simpl.
  - destruct (_str_to_if_range t_) as [t|e2] eqn:Ht; simpl; [done|].
    intros [= <-]. right. by eapply str_to_if_range_value_error.
  - intros [= <-]. right. by eapply str_to_if_range_value_error.
Qed.

Lemma checked_row_key_error (known : gset Z) (line : string) :
  checked_row known line = Raise KeyError
  ↔ ∃ row, row_fields line = Ok row ∧ ¬ Forall (λ p, p ∈ known) (row_ports row).
Proof.
  unfold checked_row.
  destruct (row_fields line) as [row|e] eqn:Hf; simpl.
  - case_bool_decide as Hk; split.
    + done.
    + intros (row' & [= <-] & Hn). done.
    + intros _. eauto.
    + done.
  - split.
    + intros [= ->]. by destruct (row_fields_errors _ _ Hf).
    + by intros (row & ? & _).
Qed.

Lemma checked_rows_errors (known : gset Z) (lines : list string) (e : exn) :
  checked_rows known lines = Raise e →
  e = IndexError ∨ e = ValueError ∨ e = KeyError.
Proof.
  induction lines as [|line rest IH]; simpl; [done|].
  unfold checked_row.
  destruct (row_fields line) as [row|e'] eqn:Hf; simpl.
  - case_bool_decide; simpl; [|intros [= <-]; auto].
    destruct (checked_rows known rest) as [rows|e']; simpl; [done|].
    intros [= <-]. by apply IH.
  - intros [= <-]. destruct (row_fields_errors _ _ Hf); auto.
Qed.

(** [_parse_vlans] once the answer of the switch is there. *)
Lemma parse_vlans_after_query (s s1 : Sw) (out coms : list string) :
  send_cmd config prompt_needle "show vlan static" (READ_TIMEOUT config) s
    = (Ok (out, coms), s1) →
  _parse_vlans config prompt_needle s
    = (parse_rows (drop 2 out) (init_vlan_config_datastruct config), s1).
Proof.
  intros H. unfold _parse_vlans, mbind, M_bind, bind. by rewrite H.
Qed.

Lemma parse_vlans_query_inv (s s' : Sw) (r : gset Z * gmap Z PortConf) :
  _parse_vlans config prompt_needle s = (Ok r, s') →
  ∃ out coms,
    send_cmd config prompt_needle "show vlan static" (READ_TIMEOUT config) s
      = (Ok (out, coms), s')
    ∧ parse_rows (drop 2 out) (init_vlan_config_datastruct config) = Ok r.
Proof.
  unfold _parse_vlans. intros ([out coms] & s1 & Hs & Hl)%bind_ok_inv.
  unfold lift in Hl. injection Hl as Hl <-. eauto.
Qed.

Lemma parse_rows_init (lines : list string) :
  match parse_rows lines (init_vlan_config_datastruct config),
        checked_rows (port_range config) lines with
  | Ok (vlans, ports), Ok rows =>
      vlans = list_to_set (row_vid <$> rows)
      ∧ ∀ p, ports !! p =
          if bool_decide (PORT_MIN config ≤ p ≤ PORT_MAX config)
          then Some (mkPortConf (first_untagged rows p) (all_tagged rows p))
          else None
  | Raise e, Raise e' => e = e'
  | _, _ => False
  end.
Proof.
  pose proof (parse_rows_spec lines ∅ (snd (init_vlan_config_datastruct config))) as H.
  rewrite dom_init_ports in H.
  change (∅, snd (init_vlan_config_datastruct config))
    with (init_vlan_config_datastruct config) in H.
  destruct (parse_rows lines _) as [[vlans ports]|e];
    destruct (checked_rows (port_range config) lines) as [rows|e']; try done.
  destruct H as [-> Hq]. split; [set_solver|].
  intros p. rewrite Hq, init_ports_lookup. case_bool_decide; [|done].
  simpl. rewrite foldl_apply_row. simpl. f_equal. f_equal. set_solver.
Qed.

End ParseTable.
(** ** The port loop of [update_vlan_conf] *)

Section PortLoop.
Import PyStr.
Variable config : Config.
Variable prompt_needle : _States → string.

Lemma raises_for_each_in {A} (E : exn → Prop) (l : list A) (body : A → M unit) :
  (∀ x, x ∈ l → raises_only E (body x)) → raises_only E (for_each l body).
Proof.
  induction l as [|x l IH]; intros Hb; simpl.
  - apply raises_ret.
  - apply raises_bind.
    + apply Hb. apply elem_of_cons. by left.
    + intros _. apply IH. intros y Hy. apply Hb. apply elem_of_cons. by right.
Qed.

Lemma send_cmd__no_key_error (cmd : string) :
  raises_only (λ e, e ≠ KeyError) (send_cmd_ config prompt_needle cmd).
Proof. by apply raises_send_cmd_. Qed.

(** A port that both dictionaries know is configured without [KeyError]. *)
Lemma configure_port_no_key_error (ports_old ports_new : gmap Z PortConf) (p : Z) :
  is_Some (ports_old !! p) → is_Some (ports_new !! p) →
  raises_only (λ e, e ≠ KeyError)
    (configure_port config prompt_needle ports_old ports_new p).
Proof.
  intros [old Ho] [vids Hn]. unfold configure_port. rewrite Hn, Ho.
  raises_with ltac:(first [ apply send_cmd__no_key_error
                          | apply raises_raise; discriminate ]).
Qed.

Lemma apply_vlan_conf_no_key_error (va vr : gset Z) (ports_old ports_new : gmap Z PortConf) :
  raises_only (λ e, e ≠ KeyError)
    (apply_vlan_conf config prompt_needle va vr
       (_dict_diff ports_old ports_new) ports_old ports_new).
Proof.
  unfold apply_vlan_conf.
  apply raises_bind; [apply send_cmd__no_key_error | intros _].
  apply raises_bind;
    [apply raises_for_each; intros ?; apply send_cmd__no_key_error | intros _].
  apply raises_bind; [|intros _].
  { apply raises_for_each; intros ?.
    apply raises_bind; [|intros _]; apply send_cmd__no_key_error. }
  apply raises_bind; [|intros _; apply send_cmd__no_key_error].
  apply raises_for_each_in. intros p Hp.
  apply elem_of_elements in Hp. apply dict_diff_elem in Hp as (a & b & Ha & Hb & _).
  apply configure_port_no_key_error; by eexists.
Qed.

(** [update_vlan_conf] once the table is read. *)
Lemma update_vlan_conf_after_parse (vlans_new : gset Z) (ports_new : gmap Z PortConf)
    (s s1 : Sw) (vlans_old : gset Z) (ports_old : gmap Z PortConf) :
  _parse_vlans config prompt_needle s = (Ok (vlans_old, ports_old), s1) →
  update_vlan_conf config prompt_needle vlans_new ports_new s =
    let '(vlan_added, vlan_removed) := _set_diff vlans_old vlans_new in
    let ports_changed := _dict_diff ports_old ports_new in
    (if bool_decide (ports_changed = ∅) && bool_decide (vlan_added = ∅)
        && bool_decide (vlan_removed = ∅)
     then mret tt
     else
       _goto_admin_main_prompt config prompt_needle ;;
       apply_vlan_conf config prompt_needle vlan_added vlan_removed ports_changed
         ports_old ports_new) s1.
Proof.
  intros H. unfold update_vlan_conf, mbind, M_bind. unfold bind at 1. rewrite H.
  by destruct (_set_diff vlans_old vlans_new).
Qed.

End PortLoop.
(** ** Opening a session ([__init__], [__enter__], [__exit__], [open_]) *)

(** X1. A fresh session is opened on a switch that shows its admin prompt,
    a hostname followed by "# ".  The hostname is not empty and holds neither
    an opening parenthesis nor a star, at least one read is allowed, and the
    prompt is the needle of [ADMIN_MAIN] and of no state tested before it.
    Then [__enter__] flushes the input, writes one line feed, reads the
    prompt once and stops: the state is [ADMIN_MAIN], the hostname is
    learnt, no command was sent and no echo byte taken.  A [with] block runs
    its body in that session and [close] resets it afterwards, whatever the
    body returned or raised. *)
Theorem open_on_admin_prompt (config : Config) (prompt_needle : _States → string)
    (h : string) (bytes : list (option ascii)) (blocks : list (list string)) :
  0 < READ_RETRIES config →
  h ≠ "" →
  all_chars (λ c, negb (Ascii.eqb c "(")) h = true →
  all_chars (λ c, negb (Ascii.eqb c "*")) h = true →
  Forall (λ st, PyStr.startswith (h +:+ "# ") (prompt_needle st) = false) fixed_states →
  prompt_needle ADMIN_MAIN = "# " →
  Forall (λ st, PyStr.startswith "# " (prompt_needle st) = false)
         [CONFIG; CONFIG_VLAN; CONFIG_IF; CONFIG_IF_RANGE] →
  let fresh := __init__ config bytes ([h +:+ "# "] :: blocks) in
  let ready :=
    {| sock := {| timeout := READ_TIMEOUT config; rx_bytes := bytes;
                  rx_lines := blocks;
                  events := [FlushInput; Write PyStr.LF] |};
       state := Some ADMIN_MAIN; hostname := Some h;
       _bad_echo := 0; history := [] |} in
  __enter__ config prompt_needle fresh = (Ok tt, ready)
  ∧ ∀ (A : Type) (body : M A),
      with_ config prompt_needle body fresh
        = (fst (body ready), snd (close (snd (body ready)))).
Proof.
  intros Hretries Hne Hpar Hstar Hfixed Hadmin Hconf fresh ready.
  set (l := h +:+ "# ") in *.
  assert (PyStr.rstrip_crlf l = l) as Hstrip.
  { unfold l. change "# " with ("#" +:+ " "). rewrite <- string_app_assoc.
    by apply rstrip_by_keep. }
  assert (Regex.comment_search l = None) as Hcom.
  { apply comment_search_no_star. unfold l. by rewrite all_chars_app, Hstar. }
  assert (l ≠ "") as Hl by (unfold l; by destruct h).
  assert (classify_spec prompt_needle None l = (Some ADMIN_MAIN, true, Some h)) as Hclass.
  { unfold classify_spec. unfold fixed_states in Hfixed.
    apply Forall_cons in Hfixed as [-> Hfixed].
    apply Forall_cons in Hfixed as [-> Hfixed].
    apply Forall_cons in Hfixed as [-> Hfixed].
    apply Forall_cons in Hfixed as [-> _].
    unfold l at 1.
    rewrite (hostname_search_at _ _ (hostname_at_app h "# " Hne Hpar eq_refl eq_refl)).
    unfold classify_hostname_spec, l. rewrite !startswith_common.
    apply Forall_cons in Hconf as [-> Hconf].
    apply Forall_cons in Hconf as [-> Hconf].
    apply Forall_cons in Hconf as [-> Hconf].
    apply Forall_cons in Hconf as [-> _].
    by rewrite Hadmin. }
  assert (_goto_admin_main_prompt config prompt_needle fresh = (Ok (PyBool true), ready))
    as Hgoto.
  { rewrite goto_admin_main_prompt_eq.
    unfold mbind, M_bind. unfold bind at 1. unfold sock_flushInput, modify.
    unfold bind at 1. unfold gets at 1. cbn [state set_sock fresh __init__].
    rewrite bool_decide_eq_true_2 by done. cbn [orb].
    unfold bind at 1. unfold bind at 1.
    unfold _send, mbind, M_bind. unfold bind at 1. rewrite send_chars_bypass.
    rewrite recv_single_page_eq. unfold _recv_once_retry.
    destruct (Z.to_nat (READ_RETRIES config)) as [|n] eqn:Hn; [lia|].
    assert (recv_once_eq :
      _recv_once prompt_needle
        (with_timeout (READ_TIMEOUT config)
           (wrote (String PyStr.LF "")
              (set_sock (λ k, mkSerial (timeout k) (rx_bytes k) (rx_lines k)
                                (events k ++ [FlushInput])) fresh)))
      = (Ok ([], []), ready)).
    { erewrite recv_once_single_line; [|reflexivity|exact Hstrip|exact Hcom|exact Hl].
      cbn [hostname with_timeout wrote set_sock fresh __init__].
      rewrite Hclass. reflexivity. }
    rewrite retry_loop_step_not_blank.
    2:{ unfold blank, next_block. cbn [rx_lines sock with_timeout wrote set_sock fresh __init__].
        rewrite filter_lines_spec.
        cbn [fst fmap list_fmap compose]. unfold line_text. fold l.
        rewrite Hstrip, Hcom. unfold filter_None. cbn [List.filter].
        destruct (String.eqb_spec l "") as [?|_]; [done|]. by apply bool_decide_eq_false_2. }
    rewrite recv_once_eq.
    unfold mret, M_ret, ret. cbn beta iota.
    unfold navigate_from_state, mbind, M_bind, bind, gets. cbn beta iota.
    cbn [state with_timeout set_sock ready].
    rewrite bool_decide_eq_true_2 by done. reflexivity. }
  split.
  - unfold __enter__, open_, mbind, M_bind, bind. by rewrite Hgoto.
  - intros A body. unfold with_, __enter__, open_, mbind, M_bind, bind. rewrite Hgoto.
    cbn beta iota. unfold mret, M_ret, ret. by destruct (body ready).
Qed.

(** The sample switch at its admin prompt. *)
Lemma open_on_admin_prompt_witness :
  let fresh := __init__ Sample.cfg [] [["sw# "]] in
  let r := __enter__ Sample.cfg Sample.needle fresh in
  fst r = Ok tt
  ∧ state (snd r) = Some ADMIN_MAIN
  ∧ hostname (snd r) = Some "sw"
  ∧ events (sock (snd r)) = [FlushInput; Write PyStr.LF]
  ∧ history (snd r) = [].
Proof.
  intros fresh r.
  destruct (open_on_admin_prompt Sample.cfg Sample.needle "sw" [] [])
    as [Henter _].
  - reflexivity.
  - done.
  - reflexivity.
  - reflexivity.
  - repeat constructor.
  - reflexivity.
  - repeat constructor.
  - rewrite (Henter : r = _). repeat split.
Defined.
(** ** Retries and timeouts ([_recv_once_retry], [_recv]) *)

(** X2. [_recv_once_retry] makes at most [READ_RETRIES] reads.  Every read
    that leaves nothing once the comments and the empty lines are out counts
    as timed out: its block is gone and the timeout of the port is doubled.
    The first read that leaves something is the result, taken with the
    timeout the earlier failures left; when all [READ_RETRIES] reads fail,
    [SerialTimeoutException] is raised with the timeout multiplied by two to
    the power [READ_RETRIES], and this is the only way the method fails.
    With [READ_RETRIES] at zero or below nothing is read at all. *)
Theorem recv_once_retry_doubles_timeout (config : Config)
    (prompt_needle : _States → string) (s : Sw) (k : nat) :
  Forall (λ b, blank b = true) (take k (rx_lines (sock s))) →
  let n := Z.to_nat (READ_RETRIES config) in
  (k = n →
   _recv_once_retry config prompt_needle s
     = (Raise SerialTimeoutException, after_timeouts n s))
  ∧ ((k < n)%nat → blank (next_block (after_timeouts k s)) = false →
     _recv_once_retry config prompt_needle s
       = _recv_once prompt_needle (after_timeouts k s)
     ∧ ∃ r s', _recv_once prompt_needle (after_timeouts k s) = (Ok r, s'))
  ∧ (∀ e, fst (_recv_once_retry config prompt_needle s) = Raise e →
       e = SerialTimeoutException
       ∧ snd (_recv_once_retry config prompt_needle s) = after_timeouts n s
       ∧ Forall (λ b, blank b = true) (take n (rx_lines (sock s))))
  ∧ (READ_RETRIES config ≤ 0 →
     _recv_once_retry config prompt_needle s = (Raise SerialTimeoutException, s)).
Proof.
  intros Hk n. unfold _recv_once_retry. fold n.
  split; [|split; [|split]].
  - intros <-. rewrite <- (Nat.add_0_r k) at 1. by rewrite retry_loop_skip.
  - intros Hlt Hnb. replace n with (k + S (n - S k))%nat by lia.
    rewrite retry_loop_skip by done.
    rewrite retry_loop_step_not_blank by done.
    split; [done|]. by apply recv_once_not_blank.
  - apply recv_once_retry_fails.
  - intros Hle. replace n with 0%nat by lia. done.
Qed.

(** Three attempts are allowed; the port gives nothing, then an empty line,
    then the prompt: the third read is the result, made with the timeout
    doubled twice. *)
Lemma recv_once_retry_doubles_timeout_witness :
  let s := Sample.session None [] [[]; [String PyStr.CR (String PyStr.LF "")]; ["sw# "]] in
  let r := _recv_once_retry Sample.cfg Sample.needle s in
  Forall (λ b, blank b = true) (take 2 (rx_lines (sock s)))
  ∧ blank (next_block (after_timeouts 2 s)) = false
  ∧ r = _recv_once Sample.needle (after_timeouts 2 s)
  ∧ fst r = Ok ([], [])
  ∧ state (snd r) = Some ADMIN_MAIN
  ∧ timeout (sock s) = 1 ∧ timeout (sock (snd r)) = 4.
Proof.
  intros s r.
  assert (Forall (λ b, blank b = true) (take 2 (rx_lines (sock s)))) as Hk
    by (repeat constructor).
  assert (blank (next_block (after_timeouts 2 s)) = false) as Hnb by reflexivity.
  destruct (recv_once_retry_doubles_timeout Sample.cfg Sample.needle s 2 Hk)
    as (_ & H2 & _).
  destruct H2 as [Heq _]; [simpl; lia | exact Hnb |].
  split; [exact Hk|]. split; [exact Hnb|]. split; [exact Heq|].
  repeat split; vm_compute; reflexivity.
Defined.

(** X3. [_recv] with [auto_more] off makes one retried read and nothing
    else: nothing is written, no echo byte is taken, the echo counter and the
    command history stay.  When it returns, at least one block was consumed
    and the timeout of the port is back at [READ_TIMEOUT]: the timeout given
    by the caller served for this read only.  It can fail with
    [SerialTimeoutException] only, and then the timeout is left where the
    retries took it: the caller's timeout times two to the power
    [READ_RETRIES]. *)
Theorem recv_single_page (config : Config) (prompt_needle : _States → string)
    (tmo : Z) (s : Sw) :
  let r := _recv config prompt_needle false tmo s in
  reads_only s (snd r)
  ∧ (∀ x, fst r = Ok x →
       timeout (sock (snd r)) = READ_TIMEOUT config
       ∧ (length (rx_lines (sock (snd r))) < length (rx_lines (sock s)))%nat)
  ∧ (∀ e, fst r = Raise e →
       e = SerialTimeoutException
       ∧ snd r = after_timeouts (Z.to_nat (READ_RETRIES config)) (with_timeout tmo s)).
Proof.
  intros r. unfold r. rewrite recv_single_page_eq.
  pose proof (reads_only_recv_once_retry config prompt_needle (with_timeout tmo s)) as Hro.
  pose proof (recv_once_retry_fails config prompt_needle (with_timeout tmo s)) as Hfail.
  destruct (_recv_once_retry config prompt_needle (with_timeout tmo s))
    as [[x|e] s1] eqn:Hretry; simpl in *.
  - split; [exact Hro|]. split; [|intros; discriminate].
    intros _ _. split; [done|].
    apply recv_once_retry_loop_consumes in Hretry. exact Hretry.
  - split; [exact Hro|]. split; [intros; discriminate|].
    intros e' [= <-]. destruct (Hfail e eq_refl) as (-> & -> & _). done.
Qed.

(** A read that finds the prompt, made with a timeout of 7, and one on a
    port that stays silent for the three attempts. *)
Lemma recv_single_page_witness :
  let s := Sample.session None [] [["sw# "]] in
  let r := _recv Sample.cfg Sample.needle false 7 s in
  let silent := Sample.session None [] [] in
  let r' := _recv Sample.cfg Sample.needle false 7 silent in
  fst r = Ok ([], [])
  ∧ timeout (sock (snd r)) = 1
  ∧ events (sock (snd r)) = []
  ∧ fst r' = Raise SerialTimeoutException
  ∧ timeout (sock (snd r')) = 56.
Proof.
  intros s r silent r'.
  destruct (recv_single_page Sample.cfg Sample.needle 7 s) as ((Hev & _) & Hok & _).
  destruct (recv_single_page Sample.cfg Sample.needle 7 silent) as (_ & _ & Hfail).
  assert (fst r = Ok ([], [])) as Hr by (vm_compute; reflexivity).
  assert (fst r' = Raise SerialTimeoutException) as Hr' by (vm_compute; reflexivity).
  destruct (Hok _ Hr) as [Ht _]. destruct (Hfail _ Hr') as [_ Hs].
  split; [exact Hr|]. split; [exact Ht|]. split; [exact Hev|]. split; [exact Hr'|].
  unfold r'. rewrite Hs. reflexivity.
Defined.
(** ** The pager loop ([_recv]) *)

(** X4. The pager loop of [_recv] is bounded by what the port delivers.
    When [_recv] returns, it wrote one space for every page after the first
    and nothing else, and every page, the first included, took at least one
    block from the port.  It fails with [SerialTimeoutException] or, on a
    continuation page too short for the pagination artifacts, with
    [IndexError]; it never goes on reading for ever. *)
Theorem recv_pager_is_bounded (config : Config) (prompt_needle : _States → string)
    (auto_more : bool) (tmo : Z) (s : Sw) :
  let r := _recv config prompt_needle auto_more tmo s in
  (∀ x, fst r = Ok x →
     ∃ n : nat,
       written (snd r) = written s ++ replicate n " "%char
       ∧ (n + 1 + length (rx_lines (sock (snd r)))
          ≤ length (rx_lines (sock s)))%nat)
  ∧ (∀ e, fst r = Raise e → e = SerialTimeoutException ∨ e = IndexError)
  ∧ fst r ≠ Raise NonTermination.
Proof.
  intros r. destruct (recv_pages config prompt_needle auto_more tmo s) as [Hok Hraise].
  split; [exact Hok|]. split; [exact Hraise|].
  intros He. by destruct (Hraise _ He).
Qed.


(** An answer in two pages: one space is written, two blocks are read. *)
Lemma recv_pager_is_bounded_witness :
  let s := Sample.session (Some ADMIN_MAIN) []
             [ ["line 1"; "--More--"];
               [_MORE_MAGIC_0; _MORE_MAGIC_1 +:+ "line 2"; "sw# "] ] in
  let r := _recv Sample.cfg Sample.needle true 1 s in
  fst r = Ok (["line 1"; "line 2"], [])
  ∧ written (snd r) = [" "%char]
  ∧ ∃ n : nat,
      written (snd r) = written s ++ replicate n " "%char
      ∧ (n + 1 + length (rx_lines (sock (snd r))) ≤ 2)%nat.
Proof.
  intros s r.
  assert (fst r = Ok (["line 1"; "line 2"], [])) as Hr by (vm_compute; reflexivity).
  destruct (recv_pager_is_bounded Sample.cfg Sample.needle true 1 s) as (Hok & _).
  destruct (Hok _ Hr) as (n & Hn & Hlen).
  split; [exact Hr|]. split; [vm_compute; reflexivity|].
  exists n. split; [exact Hn | exact Hlen].
Defined.
(** ** Comments of the switch ([_filter], [_recv_once], [_recv]) *)

(** X5. [_filter] cuts a line in two at the leftmost comment: on a line
    without a line feed (as [readlines] and [rstrip] leave them), the text it
    returns followed by the comment it appends to the list is the line
    itself, and the comment begins with a star.  A line without a comment
    comes back unchanged and the list with it.  In both cases the text that
    comes back holds no comment: filtering it again changes nothing. *)
Theorem filter_splits_line (line : string) (comments : list string) :
  all_chars (λ c, negb (Ascii.eqb c PyStr.LF)) line = true →
  let text := fst (_filter line comments) in
  let comments' := snd (_filter line comments) in
  no_comment text
  ∧ _filter text comments' = (text, comments')
  ∧ ((no_comment line ∧ text = line ∧ comments' = comments)
     ∨ (∃ c, comments' = comments ++ [c]
             ∧ line = text +:+ c
             ∧ PyStr.startswith c "*" = true)).
Proof.
  intros Hlf text comments'.
  assert (no_comment text) as Hno.
  { unfold text. rewrite filter_spec. apply line_text_no_comment. }
  split; [exact Hno|]. split.
  - unfold _filter at 1. by rewrite Hno.
  - unfold text, comments', _filter, no_comment.
    destruct (Regex.comment_search line) as [[i m]|] eqn:Hs; simpl.
    + right. exists m. split; [done|]. split.
      * by apply comment_search_split.
      * by eapply comment_search_star.
    + by left.
Qed.

(** A prompt followed by a link notification. *)
Lemma filter_splits_line_witness :
  let line := "sw# *Jan 13 2000 11:25:20: %Port-5: Port gi6 link down" in
  all_chars (λ c, negb (Ascii.eqb c PyStr.LF)) line = true
  ∧ _filter line [] = ("sw# ", ["*Jan 13 2000 11:25:20: %Port-5: Port gi6 link down"])
  ∧ no_comment "sw# "
  ∧ _filter "sw# " [] = ("sw# ", []).
Proof.
  intros line.
  assert (all_chars (λ c, negb (Ascii.eqb c PyStr.LF)) line = true) as Hlf
    by reflexivity.
  destruct (filter_splits_line line [] Hlf) as (Hno & _ & _).
  split; [exact Hlf|]. split; [reflexivity|]. split; [exact Hno | reflexivity].
Defined.

(** X6. The output lines that [_send] (and so [send_cmd]) returns hold no
    comment of the switch, whatever the number of pages and of retried
    reads, and every string returned as a comment begins with a star. *)
Theorem send_output_without_comments (config : Config)
    (prompt_needle : _States → string) (string_ : string)
    (bypass_echo_check auto_more : bool) (tmo : Z)
    (s s' : Sw) (out coms : list string) :
  _send config prompt_needle string_ bypass_echo_check auto_more tmo s
    = (Ok (out, coms), s') →
  Forall no_comment out
  ∧ Forall (λ c, PyStr.startswith c "*" = true) coms.
Proof.
  unfold _send. intros ([] & s1 & _ & H)%bind_ok_inv.
  by eapply recv_no_comment.
Qed.

(** A command whose answer carries a notification in the middle of a line
    and one on a line of its own. *)
Lemma send_output_without_comments_witness :
  let s := Sample.session (Some ADMIN_MAIN) (Sample.echo_of "show")
             [ [ "line 1 *Jan 13 2000 11:25:20: %Port-5: Port gi6 link down";
                 "*Jan 13 2000 11:25:21: %Port-5: Port gi4 link up";
                 "line 2"; "sw# " ] ] in
  let r := _send Sample.cfg Sample.needle ("show" +:+ String PyStr.LF "")
             false true 1 s in
  fst r = Ok ( ["line 1 "; "line 2"],
               [ "*Jan 13 2000 11:25:20: %Port-5: Port gi6 link down";
                 "*Jan 13 2000 11:25:21: %Port-5: Port gi4 link up" ] )
  ∧ Forall no_comment ["line 1 "; "line 2"].
Proof.
  intros s r.
  assert (r = (Ok ( ["line 1 "; "line 2"],
                    [ "*Jan 13 2000 11:25:20: %Port-5: Port gi6 link down";
                      "*Jan 13 2000 11:25:21: %Port-5: Port gi4 link up" ] ), snd r))
    as Hr by (vm_compute; reflexivity).
  split; [by rewrite Hr|].
  exact (proj1 (send_output_without_comments Sample.cfg Sample.needle _ _ _ _ _ _ _ _ Hr)).
Defined.
(** ** Sending a command ([_send], [send_cmd]) *)

(** X7. When [send_cmd] returns, the pager has been followed to its end: the
    session is not in state [MORE]. *)
Theorem send_cmd_leaves_no_pager (config : Config) (prompt_needle : _States → string)
    (cmd : string) (tmo : Z) (s s' : Sw) (out coms : list string) :
  send_cmd config prompt_needle cmd tmo s = (Ok (out, coms), s') →
  state s' ≠ Some MORE.
Proof.
  intros (s1 & _ & Hrecv)%send_cmd_inv. by eapply recv_state.
Qed.

(** An answer in two pages: the space asks for the second page, the
    artifacts at its head are removed and the session ends at the admin
    prompt. *)
Lemma send_cmd_leaves_no_pager_witness :
  let s := Sample.session (Some ADMIN_MAIN) (Sample.echo_of "show")
             [ ["line 1"; "--More--"];
               [_MORE_MAGIC_0; _MORE_MAGIC_1 +:+ "line 2"; "sw# "] ] in
  let r := send_cmd Sample.cfg Sample.needle "show" 1 s in
  fst r = Ok (["line 1"; "line 2"], [])
  ∧ state (snd r) = Some ADMIN_MAIN
  ∧ state (snd r) ≠ Some MORE.
Proof.
  intros s r.
  assert (r = (Ok (["line 1"; "line 2"], []), snd r)) as Hr by (vm_compute; reflexivity).
  split; [by rewrite Hr|]. split; [vm_compute; reflexivity|].
  exact (send_cmd_leaves_no_pager Sample.cfg Sample.needle "show" 1 s (snd r)
           ["line 1"; "line 2"] [] Hr).
Defined.

(** X8. [_send] with the echo check bypassed writes the bytes of the string
    in order and then receives: no echo byte is taken from the port, the echo
    counter and the command history stay as they were, and the budget error
    cannot be raised. *)
Theorem send_without_echo_check (config : Config) (prompt_needle : _States → string)
    (string_ : string) (auto_more : bool) (tmo : Z) (s : Sw) :
  let r := _send config prompt_needle string_ true auto_more tmo s in
  r = _recv config prompt_needle auto_more tmo (wrote string_ s)
  ∧ rx_bytes (sock (snd r)) = rx_bytes (sock s)
  ∧ _bad_echo (snd r) = _bad_echo s
  ∧ history (snd r) = history s
  ∧ fst r ≠ Raise SwitchBadEchoBudgetExceededError.
Proof.
  intros r.
  assert (r = _recv config prompt_needle auto_more tmo (wrote string_ s)) as Hr.
  { unfold r, _send, mbind, M_bind, bind. by rewrite send_chars_bypass. }
  split; [exact Hr|]. rewrite Hr.
  destruct (writes_spaces_recv config prompt_needle auto_more tmo (wrote string_ s))
    as (_ & H1 & H2 & H3).
  split; [exact H1|]. split; [exact H2|]. split; [exact H3|].
  intros He.
  by apply (raises_recv config prompt_needle
              (λ e, e ≠ SwitchBadEchoBudgetExceededError)
              ltac:(done) ltac:(done) ltac:(done) auto_more tmo _ _ He).
Qed.

(** X9. What [send_cmd] writes to the port is the command followed by one
    line feed, byte by byte and in order, then nothing but one space for each
    further page of the answer.  When the sending is cut short by an echo
    failure, what was written is a prefix of the command line. *)
Theorem send_cmd_writes_the_command (config : Config) (prompt_needle : _States → string)
    (cmd : string) (tmo : Z) (s : Sw) :
  let r := send_cmd config prompt_needle cmd tmo s in
  let line := list_ascii_of_string (cmd +:+ String PyStr.LF "") in
  ∃ (k : list ascii) (n : nat),
    written (snd r) = written s ++ k ++ replicate n " "%char
    ∧ k `prefix_of` line
    ∧ (∀ a, fst r = Ok a → k = line)
    ∧ (k ≠ line → n = 0%nat).
Proof.
  intros r line. unfold r, send_cmd, _send, mbind, M_bind, bind, modify.
  cbn beta iota.
  set (s0 := set_history _ s).
  assert (written s0 = written s) as Hw0 by done.
  destruct (send_chars_written config (cmd +:+ String PyStr.LF "") s0)
    as (k & Hk & Hp & Hok).
  destruct (_send_chars config _ false s0) as [[[]|e] s1]; cbn [fst snd] in *.
  - destruct (writes_spaces_recv config prompt_needle true tmo s1) as ([n Hn] & _).
    exists k, n. rewrite Hn, Hk, Hw0, <- app_assoc.
    split; [done|]. split; [done|]. split; [intros; by apply Hok|].
    intros Hne. by destruct Hne; apply Hok.
  - exists k, 0%nat. rewrite Hk, Hw0. simpl. rewrite app_nil_r.
    split; [done|]. split; [done|]. split; [intros; discriminate | done].
Qed.

(** The command [show] answered in two pages: the line, then one space. *)
Lemma send_cmd_writes_the_command_witness :
  let s := Sample.session (Some ADMIN_MAIN) (Sample.echo_of "show")
             [ ["line 1"; "--More--"];
               [_MORE_MAGIC_0; _MORE_MAGIC_1 +:+ "line 2"; "sw# "] ] in
  let r := send_cmd Sample.cfg Sample.needle "show" 1 s in
  fst r = Ok (["line 1"; "line 2"], [])
  ∧ written (snd r) = list_ascii_of_string ("show" +:+ String PyStr.LF " ")
  ∧ ∃ (k : list ascii) (n : nat),
      written (snd r) = written s ++ k ++ replicate n " "%char
      ∧ k = list_ascii_of_string ("show" +:+ String PyStr.LF "").
Proof.
  intros s r.
  assert (fst r = Ok (["line 1"; "line 2"], [])) as Hr by (vm_compute; reflexivity).
  destruct (send_cmd_writes_the_command Sample.cfg Sample.needle "show" 1 s)
    as (k & n & Hw & _ & Hok & _).
  split; [exact Hr|]. split; [vm_compute; reflexivity|].
  exists k, n. split; [exact Hw|]. exact (Hok _ Hr).
Defined.
(** ** The echo of a command ([_send], [send_cmd]) *)

(** X10. On a switch that echoes as expected, [send_cmd] passes the echo
    check: when the bytes to come are the bytes of a command without a
    carriage return, followed by carriage return and line feed (or, in state
    [LOGIN_PASSWORD], one star for every byte and the same ending), the
    command line is written in full, exactly this echo is consumed, the echo
    counter stays where it was, and what follows is the reception of the
    answer, with its two possible failures. *)
Theorem send_cmd_accepts_the_echo (config : Config) (prompt_needle : _States → string)
    (cmd : string) (tmo : Z) (echo rest : list (option ascii)) (s : Sw) :
  (echo = echo_bytes cmd
   ∧ all_chars (λ c, negb (Ascii.eqb c PyStr.CR)) cmd = true)
  ∨ (echo = masked_echo_bytes cmd ∧ state s = Some LOGIN_PASSWORD) →
  rx_bytes (sock s) = echo ++ rest →
  let r := send_cmd config prompt_needle cmd tmo s in
  let s1 := with_rx_bytes rest
              (wrote (cmd +:+ String PyStr.LF "")
                 (set_history (history s ++ [cmd]) s)) in
  r = _recv config prompt_needle true tmo s1
  ∧ _bad_echo (snd r) = _bad_echo s
  ∧ rx_bytes (sock (snd r)) = rest
  ∧ (∀ e, fst r = Raise e → e = SerialTimeoutException ∨ e = IndexError).
Proof.
  intros Hecho Hrx r s1.
  assert (r = _recv config prompt_needle true tmo s1) as Hr.
  { unfold r, send_cmd, _send, mbind, M_bind, bind, modify. cbn beta iota.
    rewrite (send_chars_good_echo config cmd echo rest); [done| |done].
    destruct Hecho as [?|[? ?]]; [by left | by right]. }
  split; [exact Hr|]. rewrite Hr.
  destruct (writes_spaces_recv config prompt_needle true tmo s1) as (_ & H1 & H2 & _).
  split; [by rewrite H2|]. split; [by rewrite H1|].
  apply (recv_pages config prompt_needle true tmo s1).
Qed.

(** The sample switch echoes [show] and answers with its prompt. *)
Lemma send_cmd_accepts_the_echo_witness :
  let s := Sample.session (Some ADMIN_MAIN) (echo_bytes "show") [["line"; "sw# "]] in
  let r := send_cmd Sample.cfg Sample.needle "show" 1 s in
  rx_bytes (sock s) = echo_bytes "show" ++ []
  ∧ fst r = Ok (["line"], [])
  ∧ _bad_echo (snd r) = 0
  ∧ rx_bytes (sock (snd r)) = [].
Proof.
  intros s r.
  assert (rx_bytes (sock s) = echo_bytes "show" ++ []) as Hrx by reflexivity.
  destruct (send_cmd_accepts_the_echo Sample.cfg Sample.needle "show" 1
              (echo_bytes "show") [] s (or_introl (conj eq_refl eq_refl)) Hrx)
    as (_ & Hb & Hbytes & _).
  split; [exact Hrx|]. split; [vm_compute; reflexivity|].
  split; [exact Hb | exact Hbytes].
Defined.
(** ** Navigation and login ([_goto_admin_main_prompt], [_login]) *)

(** X11. Whatever the state of the session and whatever the switch answers,
    the commands [_goto_admin_main_prompt] hands to [send_cmd] are one of:
    nothing, [enable], [end], the user name, the user name then the
    password, the password.  It never ends on the assertion of [_login],
    which it only calls in the two login states; it fails only with a read
    timeout, the echo budget error, or the [IndexError] or [TypeError] of a
    malformed answer.  In state [ADMIN_MAIN] it flushes the input and returns
    [True] without writing or reading anything. *)
Theorem goto_admin_sends_navigation_only (config : Config)
    (prompt_needle : _States → string) (s : Sw) :
  let r := _goto_admin_main_prompt config prompt_needle s in
  (∃ k, history (snd r) = history s ++ k ∧ k ∈ navigation_scripts config)
  ∧ fst r ≠ Raise AssertionError
  ∧ (∀ e, fst r = Raise e →
       e = SerialTimeoutException ∨ e = SwitchBadEchoBudgetExceededError
       ∨ e = IndexError ∨ e = TypeError)
  ∧ (state s = Some ADMIN_MAIN → r = (Ok (PyBool true), flushed s)).
Proof.
  intros r.
  destruct (goto_admin_main_prompt_history config prompt_needle s) as [Hh Hna].
  fold r in Hh, Hna.
  split; [exact Hh|]. split; [exact Hna|]. split.
  - intros e He.
    apply (raises_goto_admin_main_prompt config prompt_needle
             (λ e, e ≠ AssertionError →
                   e = SerialTimeoutException ∨ e = SwitchBadEchoBudgetExceededError
                   ∨ e = IndexError ∨ e = TypeError)
             ltac:(intros _; auto) ltac:(intros _; auto) ltac:(intros _; auto)
             ltac:(intros _; auto) ltac:(intros H; by destruct H) s e He).
    intros ->. by destruct Hna.
  - intros Hst. unfold r. rewrite goto_admin_main_prompt_eq.
    unfold navigate_from_state, mbind, M_bind, bind, gets, sock_flushInput, modify.
    cbn beta iota. change (set_sock _ s) with (flushed s).
    change (state (flushed s)) with (state s). rewrite Hst.
    rewrite !bool_decide_eq_false_2 by done. cbn [orb].
    unfold mret, M_ret, ret. cbn beta iota.
    change (state (flushed s)) with (state s). rewrite Hst.
    by rewrite bool_decide_eq_true_2 by done.
Qed.

(** From the user prompt the one command is [enable]; at the admin prompt
    nothing is sent at all. *)
Lemma goto_admin_sends_navigation_only_witness :
  let user := Sample.session (Some USER_MAIN) (Sample.echo_of "enable") [["sw# "]] in
  let admin := Sample.session (Some ADMIN_MAIN) [] [] in
  history (snd (_goto_admin_main_prompt Sample.cfg Sample.needle user)) = ["enable"]
  ∧ (∃ k, history (snd (_goto_admin_main_prompt Sample.cfg Sample.needle user))
          = history user ++ k
          ∧ k ∈ navigation_scripts Sample.cfg)
  ∧ _goto_admin_main_prompt Sample.cfg Sample.needle admin
    = (Ok (PyBool true), flushed admin).
Proof.
  intros user admin.
  destruct (goto_admin_sends_navigation_only Sample.cfg Sample.needle user)
    as (Hk & _).
  destruct (goto_admin_sends_navigation_only Sample.cfg Sample.needle admin)
    as (_ & _ & _ & Hadm).
  split; [vm_compute; reflexivity|]. split; [exact Hk|]. by apply Hadm.
Defined.

(** X12. [_login] returns [True] exactly when the password was sent in state
    [LOGIN_PASSWORD] and a comment of the answer holds the word ACCEPTED,
    whether or not another one holds REJECTED; the session was in that state
    from the start, or reached it by the user name, whose answer did not
    carry the marker of an unknown user.  Every other return is [False]. *)
Theorem login_succeeds_iff_accepted (config : Config) (prompt_needle : _States → string)
    (s s' : Sw) (b : bool) :
  _login config prompt_needle s = (Ok b, s') →
  (b = true
   ↔ ∃ (s0 : Sw) (out coms : list string),
       state s0 = Some LOGIN_PASSWORD
       ∧ send_cmd config prompt_needle (PASSWORD config) (READ_TIMEOUT config) s0
         = (Ok (out, coms), s')
       ∧ existsb (PyStr.contains "ACCEPTED") coms = true
       ∧ (s0 = s
          ∨ ∃ o c, state s = Some LOGIN_USERNAME
                   ∧ send_cmd config prompt_needle (USER config) (READ_TIMEOUT config) s
                     = (Ok (o, c), s0)
                   ∧ existsb (PyStr.contains "Incorrect User Name") o = false)).
Proof.
  assert (∀ s0 b0 s1, state s0 = Some LOGIN_PASSWORD →
            password_phase config prompt_needle s0 = (Ok b0, s1) →
            ∃ out coms,
              send_cmd config prompt_needle (PASSWORD config) (READ_TIMEOUT config) s0
                = (Ok (out, coms), s1)
              ∧ b0 = existsb (PyStr.contains "ACCEPTED") coms) as Hphase.
  { intros s0 b0 s1 _. unfold password_phase.
    destruct (send_cmd config prompt_needle (PASSWORD config) _ s0)
      as [[[out coms]|e] s2]; [|done].
    intros [= <- <-]. eauto. }
  assert (∀ s0 out coms s1,
            send_cmd config prompt_needle (PASSWORD config) (READ_TIMEOUT config) s0
              = (Ok (out, coms), s1) →
            password_phase config prompt_needle s0
              = (Ok (existsb (PyStr.contains "ACCEPTED") coms), s1)) as Hphase'.
  { intros s0 out coms s1 H. unfold password_phase. by rewrite H. }
  intros Hlogin.
  destruct (decide (state s = Some LOGIN_USERNAME)) as [Hu|Hu].
  - rewrite (login_username_state config prompt_needle s Hu) in Hlogin.
    destruct (send_cmd config prompt_needle (USER config) (READ_TIMEOUT config) s)
      as [[[o c]|e] s1] eqn:Hsend; [|done].
    destruct (existsb (PyStr.contains "Incorrect User Name") o) eqn:Hmark.
    { injection Hlogin as <- <-. split; [done|].
      intros (s0 & out & coms & Hst & _ & _ & [-> | (o' & c' & _ & [= <- _ _] & Hm)]);
        congruence. }
    case_bool_decide as Hp.
    + destruct (Hphase _ _ _ Hp Hlogin) as (out & coms & Hpw & ->).
      split.
      * intros Hacc. exists s1, out, coms. split; [done|]. split; [done|].
        split; [done|]. right. by exists o, c.
      * intros (s0 & out' & coms' & Hst & Hpw' & Hacc & [-> | (o' & c' & _ & [= _ _ <-] & _)]);
          [congruence|].
        rewrite Hpw in Hpw'. by injection Hpw' as _ <-.
    + injection Hlogin as <- <-. split; [done|].
      intros (s0 & out & coms & Hst & _ & _ & [-> | (o' & c' & _ & [= _ _ <-] & _)]);
        congruence.
  - destruct (decide (state s = Some LOGIN_PASSWORD)) as [Hp|Hp].
    + rewrite (login_password_state config prompt_needle s Hp) in Hlogin.
      destruct (Hphase _ _ _ Hp Hlogin) as (out & coms & Hpw & ->).
      split.
      * intros Hacc. exists s, out, coms. auto.
      * intros (s0 & out' & coms' & Hst & Hpw' & Hacc & [-> | (o' & c' & ? & _)]);
          [|congruence].
        rewrite Hpw in Hpw'. by injection Hpw' as _ <-.
    + by rewrite (login_other_state config prompt_needle s Hu Hp) in Hlogin.
Qed.

(** The user name is answered by the password prompt, the password by the
    notification of the new console connection. *)
Lemma login_succeeds_iff_accepted_witness :
  let s := Sample.session (Some LOGIN_USERNAME)
             (Sample.echo_of "admin" ++ Sample.echo_of "*****")
             [ ["Password: "];
               ["*Jan 13 2000 11:25:20: %System-5: New console connection for user admin, source async  ACCEPTED";
                "sw# "] ] in
  let r := _login Sample.cfg Sample.needle s in
  fst r = Ok true
  ∧ ∃ (s0 : Sw) (out coms : list string),
      state s0 = Some LOGIN_PASSWORD
      ∧ send_cmd Sample.cfg Sample.needle "admin" 1 s0 = (Ok (out, coms), snd r)
      ∧ existsb (PyStr.contains "ACCEPTED") coms = true.
Proof.
  intros s r.
  assert (r = (Ok true, snd r)) as Hr by (vm_compute; reflexivity).
  split; [by rewrite Hr|].
  destruct (proj1 (login_succeeds_iff_accepted Sample.cfg Sample.needle s (snd r) true Hr)
              eq_refl) as (s0 & out & coms & H1 & H2 & H3 & _).
  exists s0, out, coms. auto.
Defined.
(** ** The hostname ([_determine_hostname], [_parse_prompt]) *)

(** X13. The hostname is learnt once.  As soon as the session holds a
    hostname that is not the empty string, no method changes it:
    [_parse_prompt] does not look for it again, and receiving, sending, the
    login, the navigation and the VLAN update keep it; only [close] forgets
    it.  A prompt that does not begin with the hostname held (and with none
    of the needles that carry no hostname) is therefore classified as
    unknown, the output and the session being left as they are. *)
Theorem hostname_learnt_once (config : Config) (prompt_needle : _States → string) :
  (∀ out, preserves hostname_kept (_parse_prompt prompt_needle out))
  ∧ (∀ auto_more tmo, preserves hostname_kept (_recv config prompt_needle auto_more tmo))
  ∧ (∀ cmd tmo, preserves hostname_kept (send_cmd config prompt_needle cmd tmo))
  ∧ preserves hostname_kept (_login config prompt_needle)
  ∧ preserves hostname_kept (_goto_admin_main_prompt config prompt_needle)
  ∧ (∀ vlans_new ports_new,
       preserves hostname_kept (update_vlan_conf config prompt_needle vlans_new ports_new))
  ∧ (∀ s, hostname (snd (close s)) = None)
  ∧ (∀ (pre : list string) (l h : string) (s : Sw),
       hostname s = Some h → h ≠ "" →
       PyStr.startswith l h = false →
       Forall (λ st, PyStr.startswith l (prompt_needle st) = false) fixed_states →
       _parse_prompt prompt_needle (pre ++ [l]) s = (Ok (None, pre ++ [l]), s)).
Proof.
  destruct (hostname_kept_all config prompt_needle) as (H1 & H2 & H3 & H4 & H5).
  split; [apply parse_prompt_hostname_kept|].
  split; [exact H1|]. split; [exact H2|]. split; [exact H3|].
  split; [exact H4|]. split; [exact H5|]. split; [done|].
  intros pre l h s Hh Hne Hl Hfixed.
  rewrite parse_prompt_spec. unfold classify_spec.
  unfold fixed_states in Hfixed.
  apply Forall_cons in Hfixed as [-> Hfixed].
  apply Forall_cons in Hfixed as [-> Hfixed].
  apply Forall_cons in Hfixed as [-> Hfixed].
  apply Forall_cons in Hfixed as [-> _].
  rewrite Hh. destruct h as [|c h]; [done|].
  rewrite classify_foreign_prompt by done.
  by rewrite <- Hh, set_hostname_same.
Qed.

(** The session knows the switch as [sw]; a prompt of another name is not
    recognised, and the name held stays. *)
Lemma hostname_learnt_once_witness :
  let s := Sample.session (Some ADMIN_MAIN) (Sample.echo_of "show") [["other# "]] in
  hostname s = Some "sw"
  ∧ _parse_prompt Sample.needle ["other# "] s = (Ok (None, ["other# "]), s)
  ∧ hostname (snd (send_cmd Sample.cfg Sample.needle "show" 1 s)) = Some "sw"
  ∧ state (snd (send_cmd Sample.cfg Sample.needle "show" 1 s)) = None.
Proof.
  intros s.
  destruct (hostname_learnt_once Sample.cfg Sample.needle)
    as (_ & _ & Hsend & _ & _ & _ & _ & Hforeign).
  split; [reflexivity|]. split.
  - apply (Hforeign [] "other# " "sw" s); [reflexivity | done | reflexivity |].
    repeat constructor.
  - split; [|vm_compute; reflexivity].
    by apply (Hsend "show" 1 s "sw").
Defined.

(** X14. [_determine_hostname] takes the hostname from a prompt line: for a
    name that is not empty and holds no opening parenthesis, followed by "# ",
    by "> ", or by a context in parentheses and "# ", the name is stored and
    the method returns [True].  A line that holds neither "# " nor "> " gives
    [False] and leaves the session as it is.  A hostname that is stored is
    never empty and never holds an opening parenthesis. *)
Theorem determine_hostname_extracts (h ctx : string) (s : Sw) :
  h ≠ "" →
  all_chars (λ c, negb (Ascii.eqb c "(")) h = true →
  all_chars (λ c, negb (Ascii.eqb c PyStr.LF)) ctx = true →
  _determine_hostname (h +:+ "# ") s = (Ok true, set_hostname (Some h) s)
  ∧ _determine_hostname (h +:+ "> ") s = (Ok true, set_hostname (Some h) s)
  ∧ _determine_hostname (h +:+ "(" +:+ ctx +:+ ")# ") s
    = (Ok true, set_hostname (Some h) s)
  ∧ (∀ l, PyStr.contains "# " l = false → PyStr.contains "> " l = false →
          _determine_hostname l s = (Ok false, s))
  ∧ (∀ l s', _determine_hostname l s = (Ok true, s') →
             ∃ hn, hostname s' = Some hn ∧ hn ≠ ""
                   ∧ all_chars (λ c, negb (Ascii.eqb c "(")) hn = true).
Proof.
  intros Hne Hpar Hctx.
  assert (∀ tail, Regex.hostname_at tail = None → Regex.prompt_tail tail = true →
            _determine_hostname (h +:+ tail) s = (Ok true, set_hostname (Some h) s)) as Hext.
  { intros tail Ht Hp. unfold _determine_hostname.
    by rewrite (hostname_search_at _ _ (hostname_at_app h tail Hne Hpar Ht Hp)). }
  split; [by apply Hext|]. split; [by apply Hext|]. split.
  { apply Hext; [done|].
    change ("(" +:+ ctx +:+ ")# ") with (String "(" (ctx +:+ ")# ")).
    cbn [Regex.prompt_tail]. rewrite prompt_tail_context by done. done. }
  split.
  - intros l H1 H2. unfold _determine_hostname.
    destruct (Regex.hostname_search l) as [hn|] eqn:Hs; [|done].
    destruct (hostname_search_marker _ _ Hs); congruence.
  - intros l s'. unfold _determine_hostname.
    destruct (Regex.hostname_search l) as [hn|] eqn:Hs; [|done].
    intros [= <-]. exists hn. split; [done|]. by eapply hostname_search_shape.
Qed.

(** The prompts of a switch called [sw]. *)
Lemma determine_hostname_extracts_witness :
  let s := Sample.session None [] [] in
  let s0 := set_hostname None s in
  _determine_hostname "sw# " s0 = (Ok true, s)
  ∧ _determine_hostname "sw> " s0 = (Ok true, s)
  ∧ _determine_hostname "sw(config-if)# " s0 = (Ok true, s)
  ∧ _determine_hostname "Username: " s0 = (Ok false, s0).
Proof.
  intros s s0.
  destruct (determine_hostname_extracts "sw" "config-if" s0)
    as (H1 & H2 & H3 & H4 & _); [done | reflexivity | reflexivity |].
  split; [exact H1|]. split; [exact H2|]. split; [exact H3|].
  apply H4; reflexivity.
Defined.
(** ** The VLAN data structures ([sw_vlan.py]) *)

(** X15. [init_vlan_config_datastruct] returns the empty VLAN set and a port
    dictionary whose keys are exactly the numbers from [PORT_MIN] to
    [PORT_MAX], every one with no untagged VID and an empty tagged set; with
    [PORT_MAX] below [PORT_MIN] the dictionary is empty. *)
Theorem init_vlan_config_datastruct_lookup (config : Config) (p : Z) :
  fst (init_vlan_config_datastruct config) = ∅
  ∧ snd (init_vlan_config_datastruct config) !! p
    = (if bool_decide (PORT_MIN config ≤ p ≤ PORT_MAX config)
       then Some (mkPortConf None ∅) else None)
  ∧ (PORT_MAX config < PORT_MIN config →
     snd (init_vlan_config_datastruct config) = ∅).
Proof.
  split; [done|]. split; [apply init_ports_lookup|].
  intros Hlt. apply map_eq. intros q. rewrite init_ports_lookup, lookup_empty.
  rewrite bool_decide_eq_false_2; [done | lia].
Qed.

(** X16. [_set_diff(old, new)] returns the VIDs of [new] that are not in
    [old] and the VIDs of [old] that are not in [new].  The two sets are
    disjoint, taking the second out of [old] and adding the first gives
    [new], and both are empty exactly when [old] and [new] are the same
    set. *)
Theorem set_diff_applies (old new : gset Z) :
  let added := fst (_set_diff old new) in
  let removed := snd (_set_diff old new) in
  added = new ∖ old
  ∧ removed = old ∖ new
  ∧ added ## removed
  ∧ (old ∖ removed) ∪ added = new
  ∧ (added = ∅ ∧ removed = ∅ ↔ old = new).
Proof.
  rewrite set_diff_spec. simpl.
  split; [done|]. split; [done|]. split; [set_solver|]. split.
  - apply set_eq. intros x. rewrite elem_of_union, !elem_of_difference.
    destruct (decide (x ∈ old)), (decide (x ∈ new)); tauto.
  - split.
    + intros [Ha Hr]. apply set_eq. intros x.
      assert (x ∉ new ∖ old) as H1 by (rewrite Ha; apply not_elem_of_empty).
      assert (x ∉ old ∖ new) as H2 by (rewrite Hr; apply not_elem_of_empty).
      rewrite elem_of_difference in H1, H2.
      destruct (decide (x ∈ old)), (decide (x ∈ new)); tauto.
    + intros ->. split; apply set_eq; intros x;
        rewrite elem_of_difference, elem_of_empty; tauto.
Qed.

(** X17. [_dict_diff(old, new)] is the set of the keys that both
    dictionaries have and to which they give different values.  A key that
    only one of them has is never reported, and the result does not depend on
    which dictionary is called the old one. *)
Theorem dict_diff_changed_ports (old new : gmap Z PortConf) (p : Z) :
  (p ∈ _dict_diff old new
   ↔ ∃ a b, old !! p = Some a ∧ new !! p = Some b ∧ a ≠ b)
  ∧ (old !! p = None ∨ new !! p = None → p ∉ _dict_diff old new)
  ∧ _dict_diff old new = _dict_diff new old.
Proof.
  split; [apply dict_diff_elem|]. split.
  - rewrite dict_diff_elem. intros [H|H] (a & b & Ha & Hb & _); congruence.
  - apply set_eq. intros q. rewrite !dict_diff_elem. naive_solver.
Qed.

(** X18. [_str_to_if_range] fails in one way only: with the [ValueError] of
    [int] on a bound that is not a number.  The subscripts [r[0]] and
    [r[-1]] never fail, since [split] always returns at least one field. *)
Theorem str_to_if_range_raises_value_error (string_ : string) (e : exn) :
  _str_to_if_range string_ = Raise e → e = ValueError.
Proof. apply str_to_if_range_value_error. Qed.

(** A range with no number after "gi", and one with an open end. *)
Lemma str_to_if_range_raises_value_error_witness :
  _str_to_if_range "gi4,gi,lag2" = Raise ValueError
  ∧ _str_to_if_range "gi8-" = Raise ValueError
  ∧ ValueError = ValueError.
Proof.
  split; [vm_compute; reflexivity|]. split; [vm_compute; reflexivity|].
  apply (str_to_if_range_raises_value_error "gi4,gi,lag2" ValueError).
  vm_compute. reflexivity.
Defined.

(** ** Reading the VLAN table ([_parse_vlans]) *)

(** X19. When [_parse_vlans] returns, the switch answered the query
    [show vlan static], every line after the first two has the four columns,
    an integer VID and two well-formed port ranges naming ports from
    [PORT_MIN] to [PORT_MAX] only, and the result is what these rows say: the
    VLAN set is the set of their VIDs; the dictionary has the ports from
    [PORT_MIN] to [PORT_MAX] as keys; the untagged VID of a port is the VID of
    the first row that lists it as untagged ([None] when none does), its
    tagged set the VIDs of all the rows that list it as tagged. *)
Theorem parse_vlans_reads_the_table (config : Config) (prompt_needle : _States → string)
    (s s' : Sw) (vlans : gset Z) (ports : gmap Z PortConf) :
  _parse_vlans config prompt_needle s = (Ok (vlans, ports), s') →
  ∃ (out coms : list string) (rows : list (Z * list Z * list Z)),
    send_cmd config prompt_needle "show vlan static" (READ_TIMEOUT config) s
      = (Ok (out, coms), s')
    ∧ Forall2 (λ line row,
                 row_fields line = Ok row
                 ∧ Forall (λ p, p ∈ port_range config) (row_ports row))
              (drop 2 out) rows
    ∧ vlans = list_to_set (row_vid <$> rows)
    ∧ ∀ p : Z,
        ports !! p =
          if bool_decide (PORT_MIN config ≤ p ≤ PORT_MAX config)
          then Some (mkPortConf (first_untagged rows p) (all_tagged rows p))
          else None.
Proof.
  intros (out & coms & Hsend & Hrows)%parse_vlans_query_inv.
  pose proof (parse_rows_init config (drop 2 out)) as H. rewrite Hrows in H.
  destruct (checked_rows (port_range config) (drop 2 out)) as [rows|e] eqn:Hc; [|done].
  destruct H as [Hv Hp]. exists out, coms, rows.
  split; [done|]. split; [by apply checked_rows_Forall2|]. done.
Qed.

(** The table of the sample switch: one row, VLAN 1 untagged on the ports 1
    to 18. *)
Lemma parse_vlans_reads_the_table_witness :
  let s := Sample.query_session in
  let r := _parse_vlans Sample.cfg Sample.needle s in
  fst r = Ok (Sample.current_vlans, Sample.current_ports)
  ∧ ∃ rows,
      rows = [(1, [1;2;3;4;5;6;7;8;9;10;11;12;13;14;15;16;17;18], [])]
      ∧ Sample.current_vlans = list_to_set (row_vid <$> rows)
      ∧ Sample.current_ports !! 5
        = Some (mkPortConf (first_untagged rows 5) (all_tagged rows 5))
      ∧ Sample.current_ports !! 19 = None.
Proof.
  intros s r.
  assert (r = (Ok (Sample.current_vlans, Sample.current_ports), snd r)) as Hr
    by (vm_compute; reflexivity).
  split; [by rewrite Hr|].
  destruct (parse_vlans_reads_the_table Sample.cfg Sample.needle s (snd r)
              Sample.current_vlans Sample.current_ports Hr)
    as (out & coms & rows & Hsend & Hrows & Hv & Hp).
  assert (send_cmd Sample.cfg Sample.needle "show vlan static" 1 s
          = (Ok (take 3 Sample.vlan_table, []), snd r)) as Hs
    by (vm_compute; reflexivity).
  change (READ_TIMEOUT Sample.cfg) with 1 in Hsend. rewrite Hs in Hsend.
  injection Hsend as <- <-.
  apply checked_rows_Forall2 in Hrows.
  assert (rows = [(1, [1;2;3;4;5;6;7;8;9;10;11;12;13;14;15;16;17;18], [])]) as Hrows'.
  { vm_compute in Hrows. by injection Hrows as <-. }
  exists rows. split; [exact Hrows'|]. split; [exact Hv|].
  split; [apply (Hp 5) | apply (Hp 19)].
Defined.

(** X20. Once the switch has answered, [_parse_vlans] fails exactly when a
    row fails, the first such row deciding: [IndexError] for a row of fewer
    than four columns, [ValueError] for a VID or a port bound that is not a
    number, [KeyError] for a row that names a port outside [PORT_MIN] to
    [PORT_MAX]; nothing else is raised by the parsing.  An answer of two
    lines or fewer gives the empty configuration. *)
Theorem parse_vlans_failures (config : Config) (prompt_needle : _States → string)
    (s s1 : Sw) (out coms : list string) :
  send_cmd config prompt_needle "show vlan static" (READ_TIMEOUT config) s
    = (Ok (out, coms), s1) →
  let r := _parse_vlans config prompt_needle s in
  snd r = s1
  ∧ (∀ e, fst r = Raise e
          ↔ checked_rows (port_range config) (drop 2 out) = Raise e)
  ∧ (∀ e, fst r = Raise e → e = IndexError ∨ e = ValueError ∨ e = KeyError)
  ∧ (∀ line, checked_row (port_range config) line = Raise KeyError
             ↔ ∃ row, row_fields line = Ok row
                      ∧ ¬ Forall (λ p, p ∈ port_range config) (row_ports row))
  ∧ (∀ line e, row_fields line = Raise e → e = IndexError ∨ e = ValueError)
  ∧ ((length out ≤ 2)%nat → fst r = Ok (init_vlan_config_datastruct config)).
Proof.
  intros Hsend r. unfold r. rewrite (parse_vlans_after_query _ _ _ _ _ _ Hsend).
  cbn [fst snd].
  pose proof (parse_rows_init config (drop 2 out)) as H.
  split; [done|]. split; [|split; [|split; [|split]]].
  - intros e.
    destruct (parse_rows _ _) as [[v p]|e1];
      destruct (checked_rows _ _) as [rows|e2]; try done.
    subst e2. split; intros [= ->]; done.
  - intros e He. rewrite He in H.
    destruct (checked_rows _ _) as [rows|e2] eqn:Hc; [done|]. subst e2.
    by eapply checked_rows_errors.
  - intros line. apply checked_row_key_error.
  - apply row_fields_errors.
  - intros Hlen. by rewrite drop_ge by lia.
Qed.

(** A switch with a nineteenth port where the module knows eighteen: the row
    is read and the parsing ends with [KeyError]. *)
Lemma parse_vlans_failures_witness :
  let table := [ "header"; "------";
                 "     1 |          default |                  gi1-19 |   --- | Default ";
                 "sw# " ] in
  let s := Sample.session (Some ADMIN_MAIN) (Sample.echo_of "show vlan static")
             [table] in
  let r := _parse_vlans Sample.cfg Sample.needle s in
  fst (send_cmd Sample.cfg Sample.needle "show vlan static" 1 s) = Ok (take 3 table, [])
  ∧ fst r = Raise KeyError
  ∧ checked_rows (port_range Sample.cfg) (drop 2 (take 3 table)) = Raise KeyError.
Proof.
  intros table s r.
  set (q := send_cmd Sample.cfg Sample.needle "show vlan static" 1 s).
  assert (q = (Ok (take 3 table, []), snd q)) as Hq by (vm_compute; reflexivity).
  destruct (parse_vlans_failures Sample.cfg Sample.needle s (snd q) (take 3 table) []
              Hq) as (_ & Hiff & _).
  assert (fst r = Raise KeyError) as Hr by (vm_compute; reflexivity).
  split; [by rewrite Hq|]. split; [exact Hr|]. by apply Hiff.
Defined.
(** ** The port loop of [update_vlan_conf] *)

(** X21. A wanted port with no untagged VID and no tagged VID cannot be
    configured: the interface is entered and put into access mode, then the
    command that sets the access VLAN fails with [TypeError] on the missing
    VID.  The port loop stops there, inside the interface context: neither
    [exit] nor [end] is sent. *)
Theorem configure_port_without_vlan (config : Config) (prompt_needle : _States → string)
    (ports_old ports_new : gmap Z PortConf) (p : Z) (s : Sw) :
  ports_new !! p = Some (mkPortConf None ∅) →
  let enter := "interface GigabitEthernet " +:+ PyStr.str_of_int p in
  let r := configure_port config prompt_needle ports_old ports_new p s in
  (∃ e, fst r = Raise e)
  ∧ (history (snd r) = history s ++ [enter]
     ∨ history (snd r) = history s ++ [enter; "switchport mode access"])
  ∧ (∀ a b s1 s2,
       send_cmd config prompt_needle enter (READ_TIMEOUT config) s = (Ok a, s1) →
       send_cmd config prompt_needle "switchport mode access" (READ_TIMEOUT config) s1
         = (Ok b, s2) →
       r = (Raise TypeError, s2)).
Proof.
  intros Hn enter r. unfold r, configure_port. rewrite Hn. cbn [tagged untagged].
  rewrite bool_decide_eq_false_2 by (intros H; by apply H).
  unfold send_cmd_, mbind, M_bind, bind, mret, M_ret, ret, raise. cbn beta iota.
  fold enter.
  pose proof (send_cmd_history config prompt_needle enter (READ_TIMEOUT config) s) as H1.
  destruct (send_cmd config prompt_needle enter (READ_TIMEOUT config) s)
    as [[a|e] s1]; cbn [fst snd] in *.
  - pose proof (send_cmd_history config prompt_needle "switchport mode access"
                  (READ_TIMEOUT config) s1) as H2.
    destruct (send_cmd config prompt_needle "switchport mode access"
                (READ_TIMEOUT config) s1) as [[b|e] s2] eqn:Hs2; cbn [fst snd] in *.
    + split; [by eexists|]. split.
      * right. by rewrite H2, H1, <- app_assoc.
      * intros a' b' s1' s2' [= <- <-] Hb. rewrite Hs2 in Hb. by injection Hb as <- <-.
    + split; [by eexists|]. split.
      * right. by rewrite H2, H1, <- app_assoc.
      * intros a' b' s1' s2' [= <- <-] Hb. by rewrite Hs2 in Hb.
  - split; [by eexists|]. split; [by left | by intros a' b' s1' s2' [=]].
Qed.

(** Port 5 is wanted without any VLAN: two commands go out, then the
    failure. *)
Lemma configure_port_without_vlan_witness :
  let s := Sample.session (Some CONFIG)
             (Sample.echo_of "interface GigabitEthernet 5"
              ++ Sample.echo_of "switchport mode access")
             [["sw(config-if)# "]; ["sw(config-if)# "]] in
  let ports_new : gmap Z PortConf := {[ 5 := mkPortConf None ∅ ]} in
  let r := configure_port Sample.cfg Sample.needle Sample.current_ports ports_new 5 s in
  ports_new !! 5 = Some (mkPortConf None ∅)
  ∧ fst r = Raise TypeError
  ∧ history (snd r) = ["interface GigabitEthernet 5"; "switchport mode access"]
  ∧ state (snd r) = Some CONFIG_IF.
Proof.
  intros s ports_new r.
  assert (ports_new !! 5 = Some (mkPortConf None ∅)) as Hn by reflexivity.
  destruct (configure_port_without_vlan Sample.cfg Sample.needle Sample.current_ports
              ports_new 5 s Hn) as (_ & _ & Hr).
  set (q1 := send_cmd Sample.cfg Sample.needle "interface GigabitEthernet 5" 1 s).
  assert (q1 = (Ok ([], []), snd q1)) as Hq1 by (vm_compute; reflexivity).
  set (q2 := send_cmd Sample.cfg Sample.needle "switchport mode access" 1 (snd q1)).
  assert (q2 = (Ok ([], []), snd q2)) as Hq2 by (vm_compute; reflexivity).
  specialize (Hr _ _ _ _ Hq1 Hq2). fold r in Hr.
  split; [exact Hn|]. rewrite Hr.
  split; [reflexivity|]. split; vm_compute; reflexivity.
Defined.

(** X22. Once [_parse_vlans] has returned, [update_vlan_conf] cannot fail on
    a dictionary access: the ports it configures are keys of both
    dictionaries, hence ports from [PORT_MIN] to [PORT_MAX]; a wanted port
    outside is left out without a word.  What is left to fail is the
    conversation with the switch: a read timeout, the echo budget, the
    [IndexError] or [TypeError] of a malformed answer, and the [TypeError] of
    a port wanted without any VLAN. *)
Theorem update_vlan_conf_known_ports (config : Config) (prompt_needle : _States → string)
    (vlans_new : gset Z) (ports_new : gmap Z PortConf)
    (s s1 : Sw) (vlans_old : gset Z) (ports_old : gmap Z PortConf) :
  _parse_vlans config prompt_needle s = (Ok (vlans_old, ports_old), s1) →
  let r := update_vlan_conf config prompt_needle vlans_new ports_new s in
  (∀ p, p ∈ _dict_diff ports_old ports_new →
        PORT_MIN config ≤ p ≤ PORT_MAX config ∧ is_Some (ports_new !! p))
  ∧ (∀ p, ¬ (PORT_MIN config ≤ p ≤ PORT_MAX config) →
          p ∉ _dict_diff ports_old ports_new)
  ∧ (∀ e, fst r = Raise e →
          e = SerialTimeoutException ∨ e = SwitchBadEchoBudgetExceededError
          ∨ e = IndexError ∨ e = TypeError).
Proof.
  intros Hparse r.
  assert (∀ p, p ∈ _dict_diff ports_old ports_new →
               PORT_MIN config ≤ p ≤ PORT_MAX config ∧ is_Some (ports_new !! p)) as Hrange.
  { intros p (a & b & Ha & Hb & _)%dict_diff_elem. split; [|by eexists].
    apply parse_vlans_query_inv in Hparse as (out & coms & _ & Hrows).
    pose proof (parse_rows_init config (drop 2 out)) as H. rewrite Hrows in H.
    destruct (checked_rows _ _) as [rows|e]; [|done].
    destruct H as [_ Hp]. specialize (Hp p). rewrite Ha in Hp.
    case_bool_decide; [done | discriminate]. }
  split; [exact Hrange|]. split.
  { intros p Hout Hin. by destruct (Hrange p Hin). }
  intros e He. unfold r in He.
  rewrite (update_vlan_conf_after_parse config prompt_needle _ _ _ _ _ _ Hparse) in He.
  destruct (_set_diff vlans_old vlans_new) as [va vr]. cbv zeta in He.
  destruct (bool_decide (_dict_diff ports_old ports_new = ∅) && bool_decide (va = ∅)
            && bool_decide (vr = ∅)); [by simpl in He|].
  assert (e ≠ KeyError) as H1.
  { revert He. apply (raises_bind (λ e, e ≠ KeyError)).
    - by apply raises_goto_admin_main_prompt.
    - intros _. apply apply_vlan_conf_no_key_error. }
  assert (e ≠ ValueError ∧ e ≠ NonTermination) as [H2 H3].
  { revert He. apply (raises_bind (λ e, e ≠ ValueError ∧ e ≠ NonTermination)).
    - by apply raises_goto_admin_main_prompt.
    - intros _. by apply raises_apply_vlan_conf. }
  assert (e ≠ AssertionError) as H4.
  { revert He. apply (raises_bind (λ e, e ≠ AssertionError)).
    - intros s0 e0 He0 ->.
      by destruct (goto_admin_main_prompt_history config prompt_needle s0) as [_ Hna].
    - intros _. by apply raises_apply_vlan_conf. }
  destruct e; auto; done.
Qed.

(** The wanted configuration names port 40, which the switch does not have:
    the port is not among the changed ones. *)
Lemma update_vlan_conf_known_ports_witness :
  let s := Sample.query_session in
  let p := _parse_vlans Sample.cfg Sample.needle s in
  let wanted : gmap Z PortConf := <[ 40 := mkPortConf (Some 20) ∅ ]> Sample.current_ports in
  fst p = Ok (Sample.current_vlans, Sample.current_ports)
  ∧ wanted !! 40 = Some (mkPortConf (Some 20) ∅)
  ∧ 40 ∉ _dict_diff Sample.current_ports wanted.
Proof.
  intros s p wanted.
  assert (p = (Ok (Sample.current_vlans, Sample.current_ports), snd p)) as Hp
    by (vm_compute; reflexivity).
  destruct (update_vlan_conf_known_ports Sample.cfg Sample.needle Sample.current_vlans
              wanted s (snd p) Sample.current_vlans Sample.current_ports Hp)
    as (_ & Hout & _).
  split; [by rewrite Hp|]. split; [reflexivity|].
  apply Hout. simpl. lia.
Defined.
